(** * smartQuery: the natural-language query interpreter of the DynamoDB MCP server

    A shallow embedding of [findBestAttributeMatch] and [smartQuery]
    (the variant with the [processAndAddFilter] helper and the three-step
    cascade) together with the JavaScript primitives they rely on, and the
    properties of the specification stated over that embedding.

    Modelling conventions.
    - Text is a Rocq [string]; the character classes and the case mapping are
      those of JavaScript on ASCII.  Characters above 127 are caseless and
      belong to no class.
    - A JavaScript number is a [number]: NaN, the two infinities, or a finite
      value kept as an exact rational.  The binary64 overflow threshold is
      modelled; the rounding of the mantissa is not.
    - A date is parsed as ECMA-262 prescribes when the text is a date-only
      form of an existing day; what the engine makes of any other text is a
      parameter of the interpreter.
    - The store is reached through two collaborators, [describeTable] and
      [scan]; every call is recorded in a trace.

    The development also embeds the client that routes the tool calls of the
    model (module [Client]: [sanitizeToolName], [optimizeQuery], the table of
    tool names, [connectToServer], [initMCPClient], [mcpProcessQuery]) and
    the read-only tools of the server (module [Server]: the utility
    functions, [listTables], [describeTable], [getItem], [queryTable],
    [scanTable] and the request handler), over the values of module [Wire].
    - A value that arrives as JSON is a [json]; an object is a finite map
      from its own property names to values, and [undefined] is the absence
      of a value.
    - The SDK of the server is a record: [marshall], which may throw
      before a command is built, and the answer of the store to each
      command; every command sent is recorded in a trace.
    - [JSON.parse], [JSON.stringify] and the decimal text of a number are
      parameters of the server.
    Module [Untyped] holds [smartQuery] on parameters of any type, over the
    SDK of the server: the interpreter of the first part is the function on
    parameters of the types that the tool declares. *)

From Stdlib Require Import ZArith QArith Qabs Ascii String DecimalString.
From Stdlib Require Import Sorting.Sorted Sorting.Permutation.
From stdpp Require Import gmap strings list.

Open Scope string_scope.

#[local] Set Warnings "-clear-no-such-hyp".

(* ===================================================================== *)
(** * JavaScript primitives *)
(* ===================================================================== *)

Module JS.

(** ** Characters and strings *)

Definition code (c : ascii) : N := N_of_ascii c.

Definition in_range (lo hi : N) (c : ascii) : bool :=
  (lo <=? code c)%N && (code c <=? hi)%N.

Definition is_upper : ascii -> bool := in_range 65 90.
Definition is_lower : ascii -> bool := in_range 97 122.
Definition is_digit : ascii -> bool := in_range 48 57.

(** [\w] *)
Definition is_word (c : ascii) : bool :=
  is_upper c || is_lower c || is_digit c || (code c =? 95)%N.

(** [\s], and the characters removed by [trim] and skipped by [parseFloat] *)
Definition is_space (c : ascii) : bool :=
  in_range 9 13 c || (code c =? 32)%N.

Definition lower_char (c : ascii) : ascii :=
  if is_upper c then ascii_of_N (code c + 32) else c.

Fixpoint toLowerCase (s : string) : string :=
  match s with
  | EmptyString => EmptyString
  | String c s' => String (lower_char c) (toLowerCase s')
  end.

(** [s.includes(sub)] *)
Fixpoint includes (s sub : string) : bool :=
  if String.prefix sub s then true
  else match s with
       | EmptyString => false
       | String _ s' => includes s' sub
       end.

Fixpoint trimStart (s : string) : string :=
  match s with
  | String c s' => if is_space c then trimStart s' else s
  | EmptyString => EmptyString
  end.

Fixpoint trimEnd (s : string) : string :=
  match s with
  | EmptyString => EmptyString
  | String c s' =>
      match trimEnd s' with
      | EmptyString => if is_space c then EmptyString else String c EmptyString
      | t => String c t
      end
  end.

Definition trim (s : string) : string := trimEnd (trimStart s).

(** [s.replace(/[cs]/g, '')] for a character class: every member is dropped *)
Fixpoint removeAll (p : ascii -> bool) (s : string) : string :=
  match s with
  | EmptyString => EmptyString
  | String c s' => if p c then removeAll p s' else String c (removeAll p s')
  end.

(** [s.split(sep)[0]] for a one-character separator *)
Fixpoint splitHead (sep : ascii) (s : string) : string :=
  match s with
  | EmptyString => EmptyString
  | String c s' => if Ascii.eqb c sep then EmptyString else String c (splitHead sep s')
  end.

(** Truthiness of a string value: only the empty string is falsy. *)
Definition truthy (s : string) : bool := negb (String.eqb s "").

(** Decimal rendering of a natural number, as in a template literal. *)
Definition showNat (n : nat) : string := NilZero.string_of_uint (Nat.to_uint n).

(** ** Regular expressions

    A backtracking matcher for the fragment used by the source: literals,
    classes, sequence, ordered alternation, greedy repetition of a class,
    capture groups and the word boundary.  [ic] is the [i] flag. *)

Inductive regex : Type :=
| REmpty
| RChar (c : ascii)
| RClass (p : ascii -> bool)
| RSeq (r1 r2 : regex)
| RAlt (r1 r2 : regex)
| RStar (p : ascii -> bool)
| RGroup (i : nat) (r : regex)
| RWordB.

Fixpoint RLit (s : string) : regex :=
  match s with
  | EmptyString => REmpty
  | String c EmptyString => RChar c
  | String c s' => RSeq (RChar c) (RLit s')
  end.

Definition RPlus (p : ascii -> bool) : regex := RSeq (RClass p) (RStar p).

Fixpoint RRep (n : nat) (p : ascii -> bool) : regex :=
  match n with
  | O => REmpty
  | S O => RClass p
  | S n' => RSeq (RClass p) (RRep n' p)
  end.

Fixpoint RAlts (rs : list regex) : regex :=
  match rs with
  | [] => REmpty
  | [r] => r
  | r :: rs' => RAlt r (RAlts rs')
  end.

Fixpoint RSeqs (rs : list regex) : regex :=
  match rs with
  | [] => REmpty
  | [r] => r
  | r :: rs' => RSeq r (RSeqs rs')
  end.

Abbreviation Captures := (gmap nat string).

(** Continuation of a match: the previous character, the rest of the input
    and the captures so far. *)
Definition Cont : Type := option ascii -> string -> Captures -> option Captures.

Definition char_eq (ic : bool) (c a : ascii) : bool :=
  if ic then Ascii.eqb (lower_char c) (lower_char a) else Ascii.eqb c a.

Definition is_word_opt (o : option ascii) : bool :=
  match o with Some c => is_word c | None => false end.

Definition next_char (s : string) : option ascii :=
  match s with String c _ => Some c | EmptyString => None end.

(** [\b]: exactly one side is a word character *)
Definition at_word_boundary (prev : option ascii) (s : string) : bool :=
  xorb (is_word_opt prev) (is_word_opt (next_char s)).

(** The text consumed between [s] and its suffix [s'] *)
Definition consumed (s s' : string) : string :=
  substring 0 (String.length s - String.length s') s.

(** Greedy [p*]: take as many as possible, give back one at a time *)
Fixpoint star_class (p : ascii -> bool) (prev : option ascii) (s : string)
    (caps : Captures) (k : Cont) : option Captures :=
  match s with
  | String a s' =>
      if p a then
        match star_class p (Some a) s' caps k with
        | Some r => Some r
        | None => k prev s caps
        end
      else k prev s caps
  | EmptyString => k prev s caps
  end.

Fixpoint rmatch (ic : bool) (r : regex) (prev : option ascii) (s : string)
    (caps : Captures) (k : Cont) : option Captures :=
  match r with
  | REmpty => k prev s caps
  | RChar c =>
      match s with
      | String a s' => if char_eq ic c a then k (Some a) s' caps else None
      | EmptyString => None
      end
  | RClass p =>
      match s with
      | String a s' => if p a then k (Some a) s' caps else None
      | EmptyString => None
      end
  | RSeq r1 r2 =>
      rmatch ic r1 prev s caps (fun prev' s' caps' => rmatch ic r2 prev' s' caps' k)
  | RAlt r1 r2 =>
      match rmatch ic r1 prev s caps k with
      | Some c => Some c
      | None => rmatch ic r2 prev s caps k
      end
  | RStar p => star_class p prev s caps k
  | RGroup i r1 =>
      rmatch ic r1 prev s caps
        (fun prev' s' caps' => k prev' s' (<[i := consumed s s']> caps'))
  | RWordB => if at_word_boundary prev s then k prev s caps else None
  end.

(** Leftmost match: the start positions are tried from left to right.
    Group 0 is the whole match. *)
Fixpoint exec_from (ic : bool) (r : regex) (prev : option ascii) (s : string)
    : option Captures :=
  match rmatch ic (RGroup 0 r) prev s ∅ (fun _ _ caps => Some caps) with
  | Some caps => Some caps
  | None =>
      match s with
      | String a s' => exec_from ic r (Some a) s'
      | EmptyString => None
      end
  end.

(** [s.match(re)] for a regular expression without the [g] flag *)
Definition match_ (ic : bool) (r : regex) (s : string) : option Captures :=
  exec_from ic r None s.

(** Truthiness of [s.match(re)] *)
Definition matches (ic : bool) (r : regex) (s : string) : bool :=
  bool_decide (is_Some (match_ ic r s)).

(** ** Numbers *)

Inductive number : Type :=
| NaN
| PosInf
| NegInf
| Fin (q : Q).

Definition isNaN (n : number) : bool :=
  match n with NaN => true | _ => false end.

Definition isFinite (n : number) : bool :=
  match n with Fin _ => true | _ => false end.

(** Halfway between the largest binary64 value and [2^1024]: a decimal
    literal of that magnitude or more denotes an infinity. *)
Definition overflow_threshold : Z := 2 ^ 1024 - 2 ^ 970.

Definition of_rational (q : Q) : number :=
  if Qle_bool (inject_Z overflow_threshold) (Qabs q)
  then (if Qle_bool 0 q then PosInf else NegInf)
  else Fin (Qred q).

Definition neg (n : number) : number :=
  match n with
  | NaN => NaN
  | PosInf => NegInf
  | NegInf => PosInf
  | Fin q => Fin (Qred (- q))
  end.

(** [m * 10^e] *)
Definition scale10 (m e : Z) : Q :=
  if (0 <=? e)%Z then inject_Z (m * 10 ^ e) else Qmake m (Z.to_pos (10 ^ (- e))).

Definition digit_value (c : ascii) : Z :=
  if is_digit c then Z.of_N (code c) - 48
  else if in_range 97 102 c then Z.of_N (code c) - 87
  else if in_range 65 70 c then Z.of_N (code c) - 55
  else 0.

(** The value of a digit string in [radix], most significant digit first *)
Fixpoint digits_value (radix : Z) (acc : Z) (s : string) : Z :=
  match s with
  | EmptyString => acc
  | String c s' => digits_value radix (acc * radix + digit_value c)%Z s'
  end.

(** The longest prefix of [s] made of characters of class [p], and the rest *)
Fixpoint span (p : ascii -> bool) (s : string) : string * string :=
  match s with
  | String c s' =>
      if p c then let '(a, b) := span p s' in (String c a, b) else (EmptyString, s)
  | EmptyString => (EmptyString, EmptyString)
  end.

Definition drop_prefix (pre s : string) : option string :=
  if String.prefix pre s
  then Some (substring (String.length pre) (String.length s - String.length pre) s)
  else None.

(** [ExponentPart]: [e] or [E], an optional sign and at least one digit.
    Returns the exponent and the rest; an incomplete part is not consumed. *)
Definition parse_exponent (s : string) : Z * string :=
  match s with
  | String c s1 =>
      if Ascii.eqb c "e" || Ascii.eqb c "E" then
        let '(sgn, s2) :=
          match s1 with
          | String "+" t => (1%Z, t)
          | String "-" t => ((-1)%Z, t)
          | _ => (1%Z, s1)
          end in
        let '(ds, rest) := span is_digit s2 in
        if String.eqb ds "" then (0%Z, s) else ((sgn * digits_value 10 0 ds)%Z, rest)
      else (0%Z, s)
  | EmptyString => (0%Z, s)
  end.

(** The longest prefix that is a [StrUnsignedDecimalLiteral] *)
Definition parse_unsigned_decimal (s : string) : option (number * string) :=
  match drop_prefix "Infinity" s with
  | Some rest => Some (PosInf, rest)
  | None =>
      let '(ip, r1) := span is_digit s in
      let mantissa : option (string * Z * string) :=
        match r1 with
        | String "." r1' =>
            let '(fp, r2) := span is_digit r1' in
            if String.eqb ip "" && String.eqb fp "" then None
            else Some (ip +:+ fp, (- Z.of_nat (String.length fp))%Z, r2)
        | _ => if String.eqb ip "" then None else Some (ip, 0%Z, r1)
        end in
      match mantissa with
      | None => None
      | Some (ds, sc, r2) =>
          let '(e, rest) := parse_exponent r2 in
          Some (of_rational (scale10 (digits_value 10 0 ds) (e + sc)), rest)
      end
  end.

(** The longest prefix that is a [StrDecimalLiteral] *)
Definition parse_decimal (s : string) : option (number * string) :=
  match s with
  | String "+" s' => parse_unsigned_decimal s'
  | String "-" s' =>
      match parse_unsigned_decimal s' with
      | Some (n, rest) => Some (neg n, rest)
      | None => None
      end
  | _ => parse_unsigned_decimal s
  end.

(** [parseFloat(s)] *)
Definition parseFloat (s : string) : number :=
  match parse_decimal (trimStart s) with
  | Some (n, _) => n
  | None => NaN
  end.

Definition is_radix_digit (radix : Z) (c : ascii) : bool :=
  (is_digit c || in_range 97 102 c || in_range 65 70 c) && (digit_value c <? radix)%Z.

Definition parse_radix (radix : Z) (s : string) : number :=
  if negb (String.eqb s "") && String.eqb (fst (span (is_radix_digit radix) s)) s
  then of_rational (inject_Z (digits_value radix 0 s))
  else NaN.

(** [StringToNumber]: the whole trimmed text has to be a numeric literal;
    the empty text is 0. *)
Definition stringToNumber (s : string) : number :=
  let t := trim s in
  match t with
  | EmptyString => Fin 0
  | String "0" (String c t') =>
      if Ascii.eqb c "x" || Ascii.eqb c "X" then parse_radix 16 t'
      else if Ascii.eqb c "o" || Ascii.eqb c "O" then parse_radix 8 t'
      else if Ascii.eqb c "b" || Ascii.eqb c "B" then parse_radix 2 t'
      else match parse_decimal t with
           | Some (n, EmptyString) => n
           | _ => NaN
           end
  | _ =>
      match parse_decimal t with
      | Some (n, EmptyString) => n
      | _ => NaN
      end
  end.

(** [n || 0] on numbers: NaN and zero are falsy *)
Definition orZero (n : number) : number :=
  match n with
  | NaN => Fin 0
  | Fin q => if Qeq_bool q 0 then Fin 0 else n
  | _ => n
  end.

(** [a - b] *)
Definition sub (a b : number) : number :=
  match a, b with
  | NaN, _ | _, NaN => NaN
  | PosInf, PosInf | NegInf, NegInf => NaN
  | PosInf, _ | _, NegInf => PosInf
  | NegInf, _ | _, PosInf => NegInf
  | Fin x, Fin y => Fin (Qred (x - y))
  end.

(** The sign of a comparator result, as [Array.prototype.sort] reads it:
    NaN counts as zero. *)
Definition sign (n : number) : comparison :=
  match n with
  | NaN => Eq
  | PosInf => Gt
  | NegInf => Lt
  | Fin q => (q ?= 0)%Q
  end.

(** ** Dates

    A [Date] holds a time value: milliseconds since the epoch in UTC, or
    nothing for an invalid date.  The day and year arithmetic follows the
    definitions of ECMA-262. *)

Local Open Scope Z_scope.

Definition msPerDay : Z := 86400000.

Definition Day (t : Z) : Z := t / msPerDay.

Definition TimeWithinDay (t : Z) : Z := t mod msPerDay.

Definition DaysInYear (y : Z) : Z :=
  if negb (y mod 4 =? 0)%Z then 365
  else if negb (y mod 100 =? 0)%Z then 366
  else if negb (y mod 400 =? 0)%Z then 365
  else 366.

Definition DayFromYear (y : Z) : Z :=
  365 * (y - 1970) + (y - 1969) / 4 - (y - 1901) / 100 + (y - 1601) / 400.

(** The largest [y] whose first day is not after [t]: an estimate from the
    mean year length, moved by one year where it is off. *)
Definition YearFromTime (t : Z) : Z :=
  let d := Day t in
  let y0 := 1970 + d * 400 / 146097 in
  if (d <? DayFromYear y0)%Z then y0 - 1
  else if (DayFromYear (y0 + 1) <=? d)%Z then y0 + 1
  else y0.

Definition InLeapYear (t : Z) : Z :=
  if (DaysInYear (YearFromTime t) =? 366)%Z then 1 else 0.

Definition DayWithinYear (t : Z) : Z := Day t - DayFromYear (YearFromTime t).

Definition MonthFromTime (t : Z) : Z :=
  let d := DayWithinYear t in
  let l := InLeapYear t in
  if (d <? 31)%Z then 0
  else if (d <? 59 + l)%Z then 1
  else if (d <? 90 + l)%Z then 2
  else if (d <? 120 + l)%Z then 3
  else if (d <? 151 + l)%Z then 4
  else if (d <? 181 + l)%Z then 5
  else if (d <? 212 + l)%Z then 6
  else if (d <? 243 + l)%Z then 7
  else if (d <? 273 + l)%Z then 8
  else if (d <? 304 + l)%Z then 9
  else if (d <? 334 + l)%Z then 10
  else 11.

Definition DateFromTime (t : Z) : Z :=
  let d := DayWithinYear t in
  let l := InLeapYear t in
  match MonthFromTime t with
  | 0 => d + 1
  | 1 => d - 30
  | 2 => d - 58 - l
  | 3 => d - 89 - l
  | 4 => d - 119 - l
  | 5 => d - 150 - l
  | 6 => d - 180 - l
  | 7 => d - 211 - l
  | 8 => d - 242 - l
  | 9 => d - 272 - l
  | 10 => d - 303 - l
  | _ => d - 333 - l
  end%Z.

(** Days of the year before the first of month [m] (0-based) *)
Definition daysBeforeMonth (leap m : Z) : Z :=
  match m with
  | 0 => 0
  | 1 => 31
  | 2 => 59 + leap
  | 3 => 90 + leap
  | 4 => 120 + leap
  | 5 => 151 + leap
  | 6 => 181 + leap
  | 7 => 212 + leap
  | 8 => 243 + leap
  | 9 => 273 + leap
  | 10 => 304 + leap
  | _ => 334 + leap
  end%Z.

Definition daysInMonth (y m : Z) : Z :=
  match m with
  | 1 => if DaysInYear y =? 366 then 29 else 28
  | 3 | 5 | 8 | 10 => 30
  | _ => 31
  end.

(** [MakeDay(year, month, date)] for a month in 0..11 *)
Definition MakeDay (y m d : Z) : Z :=
  let leap := if (DaysInYear y =? 366)%Z then 1 else 0 in
  DayFromYear y + daysBeforeMonth leap m + d - 1.

Fixpoint all_digits (s : string) : bool :=
  match s with
  | EmptyString => true
  | String c s' => is_digit c && all_digits s'
  end.

(** The date-only form [YYYY-MM-DD] of the date-time string format, for a
    day that exists in the calendar: midnight UTC of that day. *)
Definition parseIsoDateOnly (s : string) : option Z :=
  let y := substring 0 4 s in
  let m := substring 5 2 s in
  let d := substring 8 2 s in
  if (String.length s =? 10)%nat
     && all_digits y && all_digits m && all_digits d
     && String.eqb (substring 4 1 s) "-" && String.eqb (substring 7 1 s) "-"
  then
    let yv := digits_value 10 0 y in
    let mv := digits_value 10 0 m in
    let dv := digits_value 10 0 d in
    if (1 <=? mv)%Z && (mv <=? 12)%Z && (1 <=? dv)%Z && (dv <=? daysInMonth yv (mv - 1))%Z
    then Some (MakeDay yv (mv - 1) dv * msPerDay)%Z
    else None
  else None.

(** [new Date(s).getTime()]: the date-only form is read as above; what any
    other text yields is left to the engine ([fallback]). *)
Definition Date_parse (fallback : string -> option Z) (s : string) : option Z :=
  match parseIsoDateOnly s with
  | Some t => Some t
  | None => fallback s
  end.

Fixpoint zeros (n : nat) : string :=
  match n with O => EmptyString | S n' => String "0" (zeros n') end.

(** A non-negative integer in decimal, padded with zeros to [width] *)
Definition pad (width : nat) (z : Z) : string :=
  let ds := showNat (Z.to_nat z) in
  zeros (width - String.length ds)%nat +:+ ds.

Definition isoYear (y : Z) : string :=
  if (0 <=? y)%Z && (y <=? 9999)%Z then pad 4 y
  else if (0 <=? y)%Z then "+" +:+ pad 6 y
  else "-" +:+ pad 6 (- y).

(** [date.toISOString()] for a valid date *)
Definition toISOString (t : Z) : string :=
  let w := TimeWithinDay t in
  isoYear (YearFromTime t) +:+ "-" +:+ pad 2 (MonthFromTime t + 1) +:+ "-"
    +:+ pad 2 (DateFromTime t)
    +:+ "T" +:+ pad 2 (w / 3600000) +:+ ":" +:+ pad 2 (w / 60000 mod 60)
    +:+ ":" +:+ pad 2 (w / 1000 mod 60) +:+ "." +:+ pad 3 (w mod 1000) +:+ "Z".

End JS.

(* ===================================================================== *)
(** * Data model *)
(* ===================================================================== *)

(** A value of a record field, or a typed literal of a filter: a number, a
    string, a boolean or null.  The lists, maps, sets and binary values an
    item may also hold are not modelled. *)
Inductive jsval : Type :=
| JNum (n : JS.number)
| JStr (s : string)
| JBool (b : bool)
| JNull.

(** An unmarshalled item of the table: field name to value. *)
Abbreviation Item := (gmap string jsval).

Record AttributeDefinition : Type := {
  AttributeName : option string;
  AttributeType : option string
}.

Record TableDescription : Type := {
  AttributeDefinitions : option (list AttributeDefinition)
}.

(** The input of a [ScanCommand]; the values are the typed literals that the
    client marshals for the wire. *)
Record ScanCommandInput : Type := {
  TableName : string;
  FilterExpression : option string;
  ExpressionAttributeNames : option (gmap string string);
  ExpressionAttributeValues : option (gmap string jsval);
  Limit : option Z
}.

(** A thrown value: its [message] property, if any, and its rendering in a
    template literal. *)
Record JsError : Type := {
  err_message : option string;
  err_string : string
}.

Inductive Outcome (A : Type) : Type :=
| Returned (a : A)
| Thrown (e : JsError).
Arguments Returned {A} a.
Arguments Thrown {A} e.

(** The two collaborators.  [describeTable] answers a [DescribeTableCommand]
    with the [Table] of the response; [scan] stands for marshalling the
    values, sending the [ScanCommand] and unmarshalling the [Items] of the
    response, any of which may throw. *)
Record Store : Type := {
  describeTable : string -> Outcome (option TableDescription);
  scan : ScanCommandInput -> Outcome (option (list Item))
}.

Inductive Call : Type :=
| CallDescribe (tableName : string)
| CallScan (input : ScanCommandInput).

(** The parameters, of the types the tool declares: two strings and an
    integer, each of which may be absent.  [Untyped.smartQuery] below is
    the function on parameters of any type. *)
Record Params : Type := {
  tableName : option string;
  queryText : option string;
  limit : option Z
}.

Record QueryResult : Type := {
  success : bool;
  items : list Item;
  message : string;
  count : nat;
  errorType : option string
}.

(* ===================================================================== *)
(** * Store calls, exceptions and the trace *)
(* ===================================================================== *)

(** A computation that may call the store: it extends the trace of calls and
    either returns or throws. *)
Definition M (A : Type) : Type := list Call -> Outcome A * list Call.

Definition ret {A} (a : A) : M A := fun tr => (Returned a, tr).

Definition throw {A} (e : JsError) : M A := fun tr => (Thrown e, tr).

Definition bind {A B} (m : M A) (k : A -> M B) : M B :=
  fun tr =>
    match m tr with
    | (Returned a, tr') => k a tr'
    | (Thrown e, tr') => (Thrown e, tr')
    end.

(** [try { m } catch (err) { h err }] *)
Definition tryCatch {A} (m : M A) (h : JsError -> M A) : M A :=
  fun tr =>
    match m tr with
    | (Returned a, tr') => (Returned a, tr')
    | (Thrown e, tr') => h e tr'
    end.

Notation "x <- c1 ;; c2" := (bind c1 (fun x => c2))
  (at level 100, c1 at next level, right associativity).

Definition sendDescribe (st : Store) (t : string) : M (option TableDescription) :=
  fun tr => (describeTable st t, (tr ++ [CallDescribe t])%list).

Definition sendScan (st : Store) (input : ScanCommandInput) : M (option (list Item)) :=
  fun tr => (scan st input, (tr ++ [CallScan input])%list).

(** Running a computation from the empty trace *)
Definition run {A} (m : M A) : Outcome A * list Call := m [].

Definition TypeError (msg : string) : JsError :=
  {| err_message := Some msg; err_string := "TypeError: " +:+ msg |}.

(* ===================================================================== *)
(** * The attribute resolver *)
(* ===================================================================== *)

Import JS.

(** A loop over [l] that returns at the first element for which the body
    returns. *)
Fixpoint firstSome {A B} (f : A -> option B) (l : list A) : option B :=
  match l with
  | [] => None
  | x :: l' =>
      match f x with
      | Some b => Some b
      | None => firstSome f l'
      end
  end.

(** [/\b(w1|w2|...)\b/i] *)
Definition keyword (alts : list string) : regex :=
  RSeqs [RWordB; RGroup 1 (RAlts (map RLit alts)); RWordB].

Definition keywordMap : list (regex * list string) :=
  [ (keyword ["from"; "source"], ["SourceCountry"; "source"; "from"]);
    (keyword ["to"; "destination"], ["DestinationCountry"; "destination"; "to"]);
    (keyword ["amt"; "cost"; "price"; "value"], ["Amount"; "amount"; "cost"; "price"; "value"]);
    (keyword ["when"; "day"; "time"; "period"], ["Date"; "date"; "timestamp"]);
    (keyword ["type"; "category"], ["TradeType"; "type"; "category"]) ].

(** Step 1 of the resolver: the first attribute whose name occurs in the
    query, both lowercased. *)
Definition directMatch (lowerQuery : string) (attributeNames : list string) : option string :=
  List.find (fun attr => includes lowerQuery (toLowerCase attr)) attributeNames.

(** Step 2 of the resolver: the keyword classes in order; within a class that
    fires, the candidate fragments in order. *)
Definition keywordMatch (lowerQuery : string) (attributeNames : list string) : option string :=
  firstSome
    (fun entry : regex * list string =>
       let '(keyword, potentialMatches) := entry in
       if matches true keyword lowerQuery then
         firstSome
           (fun match_ : string =>
              match List.find (fun a => includes (toLowerCase a) (toLowerCase match_))
                      attributeNames with
              | Some schemaMatch => if truthy schemaMatch then Some schemaMatch else None
              | None => None
              end)
           potentialMatches
       else None)
    keywordMap.

Definition findBestAttributeMatch (queryText : string) (attributeNames : list string)
    : option string :=
  let lowerQuery := toLowerCase queryText in
  match directMatch lowerQuery attributeNames with
  | Some attr => Some attr
  | None => keywordMatch lowerQuery attributeNames
  end.

(* ===================================================================== *)
(** * The query interpreter *)
(* ===================================================================== *)

(** ** The superlative path *)

(** [Number(v)] *)
Definition toNumber (v : jsval) : number :=
  match v with
  | JNum n => n
  | JStr s => stringToNumber s
  | JBool b => if b then Fin 1 else Fin 0
  | JNull => Fin 0
  end.

(** [item[field] ?? 0]: a missing or null field reads as 0 *)
Definition fieldOrZero (field : string) (item : Item) : jsval :=
  match item !! field with
  | None | Some JNull => JNum (Fin 0)
  | Some v => v
  end.

(** [Number(item[field] ?? 0) || 0] *)
Definition sortKey (field : string) (item : Item) : number :=
  orZero (toNumber (fieldOrZero field item)).

(** The comparator handed to [sort] *)
Definition compareItems (isHighest : bool) (numericField : string) (a b : Item) : number :=
  if isHighest
  then sub (sortKey numericField b) (sortKey numericField a)
  else sub (sortKey numericField a) (sortKey numericField b).

(** [Array.prototype.sort] is stable; it is modelled by insertion from the
    right, an element staying in front of those it does not compare greater
    than. *)
Fixpoint insertSorted {A} (cmp : A -> A -> number) (x : A) (l : list A) : list A :=
  match l with
  | [] => [x]
  | y :: l' =>
      match sign (cmp x y) with
      | Gt => y :: insertSorted cmp x l'
      | _ => x :: l
      end
  end.

Definition sort {A} (cmp : A -> A -> number) (l : list A) : list A :=
  foldr (insertSorted cmp) [] l.

(** [l.slice(0, e)] for an integer [e] *)
Definition slice0 {A} (e : Z) (l : list A) : list A :=
  if (0 <=? e)%Z then firstn (Z.to_nat e) l
  else firstn (Z.to_nat (Z.of_nat (length l) + e)) l.

(** [params.limit || 1] *)
Definition limitOrOne (limit : option Z) : Z :=
  match limit with
  | Some n => if (n =? 0)%Z then 1%Z else n
  | None => 1%Z
  end.

Definition isNumericName (name : string) : bool :=
  includes (toLowerCase name) "amount" || includes (toLowerCase name) "value".

Definition isHighestQuery (lowerQuery : string) : bool :=
  includes lowerQuery "highest" || includes lowerQuery "maximum" || includes lowerQuery "max".

Definition isLowestQuery (lowerQuery : string) : bool :=
  includes lowerQuery "lowest" || includes lowerQuery "minimum" || includes lowerQuery "min".

(** ** The filter under construction *)

Record FilterState : Type := {
  valueIndex : nat;
  filterParts : list string;
  expressionAttributeNames : gmap string string;
  expressionAttributeValues : gmap string jsval
}.

Definition initialFilter : FilterState :=
  {| valueIndex := 0; filterParts := [];
     expressionAttributeNames := ∅; expressionAttributeValues := ∅ |}.

(** [/\d{4}[-/]\d{2}[-/]\d{2}/] *)
Definition datePattern : regex :=
  let sep := RClass (fun c => Ascii.eqb c "-" || Ascii.eqb c "/") in
  RSeqs [RRep 4 is_digit; sep; RRep 2 is_digit; sep; RRep 2 is_digit].

(** The class of the single and the double quote character *)
Definition is_quote (c : ascii) : bool := (code c =? 39)%N || (code c =? 34)%N.

(** The raw value trimmed, then every quote character replaced by nothing *)
Definition cleanValue (rawValue : string) : string := removeAll is_quote (trim rawValue).

Definition isDateField (targetAttribute : string) : bool :=
  includes (toLowerCase targetAttribute) "date" || includes (toLowerCase targetAttribute) "time".

Section Interpreter.

(** What [new Date(text)] yields for a text that is not a date-only form *)
Variable dateFallback : string -> option Z.

Variable store : Store.

(** The typed literal of a cleaned value for a target attribute *)
Definition typeValue (targetAttribute value : string) : jsval :=
  if isDateField targetAttribute && matches false datePattern value then
    match Date_parse dateFallback value with
    | Some t => JStr (splitHead "T" (toISOString t))
    | None => JStr value
    end
  else
    if negb (isNaN (parseFloat value)) && isFinite (parseFloat value)
    then JNum (parseFloat value)
    else JStr value.

Definition processAndAddFilter (fs : FilterState) (targetAttribute op rawValue : string)
    : bool * FilterState :=
  let value := cleanValue rawValue in
  if negb (truthy value) then (false, fs)
  else
    let key := ":val" +:+ showNat (valueIndex fs) in
    let hashName := "#attr" +:+ showNat (valueIndex fs) in
    let parsedValue := typeValue targetAttribute value in
    (true,
     {| valueIndex := S (valueIndex fs);
        filterParts := (filterParts fs ++ [hashName +:+ " " +:+ op +:+ " " +:+ key])%list;
        expressionAttributeNames := <[hashName := targetAttribute]> (expressionAttributeNames fs);
        expressionAttributeValues := <[key := parsedValue]> (expressionAttributeValues fs) |}).

(** ** The three strategies of the cascade *)

Definition valueClassDot (c : ascii) : bool :=
  is_upper c || is_lower c || is_digit c || is_space c || Ascii.eqb c "." || Ascii.eqb c "-".

Definition valueClass (c : ascii) : bool :=
  is_upper c || is_lower c || is_digit c || is_space c || Ascii.eqb c "-".

(** [/(after|before|less than|greater than)\s+([A-Za-z0-9\s.-]+)/i] *)
Definition naturalOpPattern : regex :=
  RSeqs [RGroup 1 (RAlts [RLit "after"; RLit "before"; RLit "less than"; RLit "greater than"]);
         RPlus is_space;
         RGroup 2 (RPlus valueClassDot)].

(** [/(\w+)\s*(>=|<=|>|<|=)\s*([A-Za-z0-9\s.-]+)/i] *)
Definition explicitPattern : regex :=
  RSeqs [RGroup 1 (RPlus is_word);
         RStar is_space;
         RGroup 2 (RAlts [RLit ">="; RLit "<="; RLit ">"; RLit "<"; RLit "="]);
         RStar is_space;
         RGroup 3 (RPlus valueClassDot)].

(** [/(\w+)\s+([A-Za-z0-9\s-]+)/i] *)
Definition simplePattern : regex :=
  RSeqs [RGroup 1 (RPlus is_word);
         RPlus is_space;
         RGroup 2 (RPlus valueClass)].

(** [m[i]] where a string is required: reading a property of an unmatched
    group throws. *)
Definition group (m : Captures) (i : nat) : M string :=
  match m !! i with
  | Some g => ret g
  | None => throw (TypeError "Cannot read properties of undefined")
  end.

Definition naturalOperator (operatorPhrase : string) : string :=
  if includes operatorPhrase "after" || includes operatorPhrase "greater than" then ">"
  else if includes operatorPhrase "before" || includes operatorPhrase "less than" then "<"
  else "=".

(** A resolved attribute is used only if it is truthy. *)
Definition resolved (o : option string) : option string :=
  match o with
  | Some a => if truthy a then Some a else None
  | None => None
  end.

(** Strategy 1: an attribute implied by the whole query and a natural
    operator phrase with its value. *)
Definition naturalStrategy (queryText : string) (attributeNames : list string)
    (fs : FilterState) : M (bool * FilterState) :=
  let impliedTargetAttribute := findBestAttributeMatch queryText attributeNames in
  match resolved impliedTargetAttribute with
  | Some attr =>
      match match_ true naturalOpPattern queryText with
      | Some naturalOpMatch =>
          g1 <- group naturalOpMatch 1 ;;
          let operatorPhrase := toLowerCase g1 in
          let op := naturalOperator operatorPhrase in
          g2 <- group naturalOpMatch 2 ;;
          ret (processAndAddFilter fs attr op g2)
      | None => ret (false, fs)
      end
  | None => ret (false, fs)
  end.

(** Strategy 2: attribute, comparison operator, value. *)
Definition explicitStrategy (queryText : string) (attributeNames : list string)
    (fs : FilterState) : M (bool * FilterState) :=
  match match_ true explicitPattern queryText with
  | Some explicitMatch =>
      g1 <- group explicitMatch 1 ;;
      match resolved (findBestAttributeMatch g1 attributeNames) with
      | Some matchedAttr =>
          g2 <- group explicitMatch 2 ;;
          g3 <- group explicitMatch 3 ;;
          ret (processAndAddFilter fs matchedAttr g2 g3)
      | None => ret (false, fs)
      end
  | None => ret (false, fs)
  end.

(** Strategy 3: attribute and value, equality implied. *)
Definition simpleStrategy (queryText : string) (attributeNames : list string)
    (fs : FilterState) : M (bool * FilterState) :=
  match match_ true simplePattern queryText with
  | Some simpleMatch =>
      g1 <- group simpleMatch 1 ;;
      match resolved (findBestAttributeMatch g1 attributeNames) with
      | Some matchedAttr =>
          g2 <- group simpleMatch 2 ;;
          ret (processAndAddFilter fs matchedAttr "=" g2)
      | None => ret (false, fs)
      end
  | None => ret (false, fs)
  end.

(** The strategies in order, each tried only while no filter was found *)
Definition cascade (queryText : string) (attributeNames : list string) : M FilterState :=
  r1 <- naturalStrategy queryText attributeNames initialFilter ;;
  r2 <- (if fst r1 then ret r1 else explicitStrategy queryText attributeNames (snd r1)) ;;
  r3 <- (if fst r2 then ret r2 else simpleStrategy queryText attributeNames (snd r2)) ;;
  ret (snd r3).

(** [parts.join(sep)] *)
Fixpoint join (sep : string) (parts : list string) : string :=
  match parts with
  | [] => ""
  | [p] => p
  | p :: ps => p +:+ sep +:+ join sep ps
  end.

(** ** smartQuery *)

Definition failure (msg errType : string) : QueryResult :=
  {| success := false; items := []; message := msg; count := 0;
     errorType := Some errType |}.

Definition getTableSchema (tableName : string) : M (option TableDescription) :=
  tryCatch (sendDescribe store tableName) (fun _ => ret None).

(** The names of the attribute definitions that are truthy *)
Definition attributeNamesOf (defs : list AttributeDefinition) : list string :=
  omap (fun def => resolved (AttributeName def)) defs.

(** [err.message || err] in a template literal *)
Definition errorText (err : JsError) : string :=
  match resolved (err_message err) with
  | Some m => m
  | None => err_string err
  end.

(** The result built by the [catch] clause *)
Definition internalError (err : JsError) : QueryResult :=
  failure ("SmartQuery failed: " +:+ errorText err) "InternalError".

(** A scan of the whole table: nothing but the table name is set. *)
Definition fullScan (tableName : string) : ScanCommandInput :=
  {| TableName := tableName; FilterExpression := None;
     ExpressionAttributeNames := None; ExpressionAttributeValues := None;
     Limit := None |}.

Definition superlativePath (tableName : string) (limit : option Z)
    (isHighest : bool) (numericField : string) : M QueryResult :=
  result <- sendScan store (fullScan tableName) ;;
  let items := default [] result in
  let items := sort (compareItems isHighest numericField) items in
  ret {| success := true;
         items := slice0 (limitOrOne limit) items;
         message := "SmartQuery executed: returning "
                    +:+ (if isHighest then "highest" else "lowest") +:+ " "
                    +:+ numericField +:+ " item(s) by scanning the table.";
         count := length (slice0 (limitOrOne limit) items);
         errorType := None |}.

(** [filterParts.join(" AND ")] when there is a part, undefined otherwise *)
Definition filterExpressionOf (fs : FilterState) : option string :=
  if (0 <? length (filterParts fs))%nat
  then Some (join " AND " (filterParts fs)) else None.

(** The input of the filtered scan; an empty map is not sent. *)
Definition filterScan (tableName filterExpression : string) (fs : FilterState)
    (limit : option Z) : ScanCommandInput :=
  {| TableName := tableName;
     FilterExpression := Some filterExpression;
     ExpressionAttributeNames :=
       if (0 <? size (expressionAttributeNames fs))%nat
       then Some (expressionAttributeNames fs) else None;
     ExpressionAttributeValues :=
       if (0 <? size (expressionAttributeValues fs))%nat
       then Some (expressionAttributeValues fs) else None;
     Limit := limit |}.

Definition invalidFilter : QueryResult :=
  failure
    ("SmartQuery could not generate a valid filter expression from the natural "
     +:+ "language query. Please be more specific or use the exact attribute name.")
    "InvalidFilter".

Definition filterPath (tableName queryText : string) (limit : option Z)
    (attributeNames : list string) : M QueryResult :=
  fs <- cascade queryText attributeNames ;;
  match resolved (filterExpressionOf fs) with
  | Some filterExpression =>
      result <- sendScan store (filterScan tableName filterExpression fs limit) ;;
      let items := default [] result in
      ret {| success := true;
             items := items;
             message := "SmartQuery executed successfully on table " +:+ tableName
                        +:+ ". Filter: " +:+ filterExpression;
             count := length items;
             errorType := None |}
  | None => ret invalidFilter
  end.

(** The test that selects the superlative path: the sort key, if the path is
    taken. *)
Definition superlativeField (lowerQuery : string) (attributeNames : list string)
    : option string :=
  let numericFields := List.filter isNumericName attributeNames in
  let numericField := head numericFields in
  if isHighestQuery lowerQuery || isLowestQuery lowerQuery
  then resolved numericField
  else None.

(** The part of [smartQuery] inside [try]: the superlative path if its test
    succeeds, the filter path otherwise; whatever is thrown becomes an
    [InternalError] result. *)
Definition guardedBody (tableName queryText : string) (limit : option Z)
    (attributeNames : list string) : M QueryResult :=
  let lowerQuery := toLowerCase queryText in
  tryCatch
    match superlativeField lowerQuery attributeNames with
    | Some numericField =>
        superlativePath tableName limit (isHighestQuery lowerQuery) numericField
    | None => filterPath tableName queryText limit attributeNames
    end
    (fun err => ret (internalError err)).

Definition smartQuery (params : Params) : M QueryResult :=
  match resolved (tableName params), resolved (queryText params) with
  | Some tableName, Some queryText =>
      tableSchema <- getTableSchema tableName ;;
      match tableSchema ≫= AttributeDefinitions with
      | None =>
          ret (failure ("Could not retrieve schema for table " +:+ tableName +:+ ".")
                 "SchemaError")
      | Some defs =>
          let attributeNames := attributeNamesOf defs in
          guardedBody tableName queryText (limit params) attributeNames
      end
  | _, _ =>
      ret (failure "tableName and queryText are required" "InvalidArgument")
  end.

End Interpreter.

(* ===================================================================== *)
(** * Values on the wire *)
(* ===================================================================== *)

(** The arguments of a tool call travel as JSON.  A value of type [any] that
    comes from there is a [json]; [undefined] is the absence of a value, and
    a property whose value is [undefined] is an absent key.  An object is a
    finite map from its own property names to values; the properties that
    every object inherits are not modelled. *)
Module Wire.

#[local] Set Warnings "-register-all".

Inductive json : Type :=
| VNull
| VBool (b : bool)
| VNum (n : number)
| VStr (s : string)
| VArr (l : list json)
| VObj (o : gmap string json).

Abbreviation object := (gmap string json).

(** Truthiness *)
Definition truthyV (v : json) : bool :=
  match v with
  | VNull => false
  | VBool b => b
  | VNum NaN => false
  | VNum (Fin q) => negb (Qeq_bool q 0)
  | VNum _ => true
  | VStr s => truthy s
  | VArr _ | VObj _ => true
  end.

Definition truthyO (o : option json) : bool :=
  match o with
  | Some v => truthyV v
  | None => false
  end.

(** [typeof v === "string"], [typeof v === "number"], [typeof v === "object"] *)
Definition isString (v : json) : bool :=
  match v with VStr _ => true | _ => false end.

Definition isNumber (v : json) : bool :=
  match v with VNum _ => true | _ => false end.

Definition isObject (v : json) : bool :=
  match v with VNull | VArr _ | VObj _ => true | _ => false end.

(** [Number(v)].  An array is first joined to a text: the empty array
    gives the empty text, an array of one element the text of that element,
    and a longer one a text with a comma, which is no number. *)
Fixpoint toNumberV (v : json) : number :=
  match v with
  | VNull => Fin 0
  | VBool b => if b then Fin 1 else Fin 0
  | VNum n => n
  | VStr s => stringToNumber s
  | VArr [] => Fin 0
  | VArr [x] =>
      match x with
      | VNull => Fin 0
      | VBool _ | VObj _ => NaN
      | _ => toNumberV x
      end
  | VArr _ => NaN
  | VObj _ => NaN
  end.

(** The elements of an array under their indices *)
Definition indexed (l : list json) : object :=
  list_to_map (imap (fun i x => (showNat i, x)) l).

(** The characters of a text, as the array-like object it is read as *)
Definition characters (s : string) : list json :=
  map (fun c => VStr (String c "")) (list_ascii_of_string s).

(** The own enumerable properties of a value that is not null: what
    [Object.keys] and the spread into an object literal go through. *)
Definition ownProperties (v : json) : object :=
  match v with
  | VNull | VBool _ | VNum _ => ∅
  | VStr s => indexed (characters s)
  | VArr l => indexed l
  | VObj o => o
  end.

(** An object literal: a property whose value is undefined is left out. *)
Definition fields (l : list (string * option json)) : object :=
  foldr (fun kv o => match kv.2 with Some x => <[kv.1 := x]> o | None => o end) ∅ l.

(** A thrown error: its [name] and [message] properties and its rendering
    in a template literal. *)
Record Exception : Type := {
  name : option string;
  message : option string;
  text : string
}.

Definition Error (msg : string) : Exception :=
  {| name := Some "Error"; message := Some msg; text := "Error: " +:+ msg |}.

Definition TypeError (msg : string) : Exception :=
  {| name := Some "TypeError"; message := Some msg; text := "TypeError: " +:+ msg |}.

(** [error.message || error] in a template literal *)
Definition errorText (error : Exception) : string :=
  match message error with
  | Some m => if truthy m then m else text error
  | None => text error
  end.

Inductive Result (A : Type) : Type :=
| Ok (a : A)
| Raise (e : Exception).
Arguments Ok {A} a.
Arguments Raise {A} e.

Definition andThen {A B} (r : Result A) (k : A -> Result B) : Result B :=
  match r with
  | Ok a => k a
  | Raise e => Raise e
  end.

End Wire.

(* ===================================================================== *)
(** * The client: tool names and the rewriting of tool calls *)
(* ===================================================================== *)

Module Client.

Import Wire.

(** [s.replace(/[cs]/g, r)] for a character class and one character *)
Fixpoint replaceEach (p : ascii -> bool) (r : ascii) (s : string) : string :=
  match s with
  | EmptyString => EmptyString
  | String c s' => String (if p c then r else c) (replaceEach p r s')
  end.

(** [s.endsWith(suffix)] *)
Definition endsWith (s suffix : string) : bool :=
  (String.length suffix <=? String.length s)%nat
  && String.eqb (substring (String.length s - String.length suffix) (String.length suffix) s)
       suffix.

(** The class [a-zA-Z0-9_-] *)
Definition isNameChar (c : ascii) : bool :=
  is_lower c || is_upper c || is_digit c || Ascii.eqb c "_" || Ascii.eqb c "-".

Definition sanitizeToolName (name : string) : string :=
  replaceEach (fun c => negb (isNameChar c)) "_" name.

Record ToolCall : Type := {
  callName : string;
  callArgs : object
}.

(** [v.includes(sub)] for a text or an array; any other value has no such
    method. *)
Definition includesV (v : json) (sub : string) : Result bool :=
  match v with
  | VStr s => Ok (includes s sub)
  | VArr l => Ok (existsb (fun x => match x with VStr s => String.eqb s sub | _ => false end) l)
  | _ => Raise (TypeError "keyCondition.includes is not a function")
  end.

(** The arguments of the scan that replaces a query *)
Definition scanArgsOf (toolArgs : object) : object :=
  fields [ ("tableName", toolArgs !! "tableName");
           ("filterExpression", toolArgs !! "keyConditionExpression");
           ("expressionAttributeNames", toolArgs !! "expressionAttributeNames");
           ("expressionAttributeValues", toolArgs !! "expressionAttributeValues");
           ("limit", toolArgs !! "limit") ].

Definition optimizeQuery (toolName : string) (toolArgs : object) : Result ToolCall :=
  let unchanged := {| callName := toolName; callArgs := toolArgs |} in
  if String.eqb toolName "dynamodb:query_table" then
    let keyCondition :=
      match toolArgs !! "keyConditionExpression" with
      | Some v => if truthyV v then v else VStr ""
      | None => VStr ""
      end in
    andThen (includesV keyCondition "Age") (fun hasAge =>
    if hasAge then
      andThen (includesV keyCondition "Name") (fun hasName =>
      if negb hasName then
        andThen (includesV keyCondition "#name") (fun hasHashName =>
        if negb hasHashName
        then Ok {| callName := "dynamodb:scan_table"; callArgs := scanArgsOf toolArgs |}
        else Ok unchanged)
      else Ok unchanged)
    else Ok unchanged)
  else Ok unchanged.

(** A tool as the server lists it, and as the client keeps it *)
Record ListedTool : Type := {
  listedName : string;
  listedDescription : option string;
  inputSchema : json
}.

Record Tool : Type := {
  toolName : string;
  description : string;
  input_schema : json
}.

Definition toolOf (tool : ListedTool) : Tool :=
  {| toolName := listedName tool;
     description := default "" (listedDescription tool);
     input_schema := inputSchema tool |}.

(** The table from sanitized to original names, filled tool by tool *)
Definition nameTable (tools : list Tool) : gmap string string :=
  foldl (fun table tool => <[sanitizeToolName (toolName tool) := toolName tool]> table) ∅ tools.

(** The names under which the tools are offered to the model *)
Definition offeredNames (tools : list Tool) : list string :=
  map (fun tool => sanitizeToolName (toolName tool)) tools.

(** The part of [processQuery] that turns a [tool_use] block into the call
    sent to the server: the name of the tool to call and its arguments. *)
Definition toolCallOf (table : gmap string string) (name : string) (input : object)
    : Result (string * object) :=
  andThen (optimizeQuery name input) (fun optimized =>
  let sanitizedToolName := sanitizeToolName (callName optimized) in
  let mcpToolName :=
    match table !! sanitizedToolName with
    | Some original => if truthy original then original else callName optimized
    | None => callName optimized
    end in
  Ok (mcpToolName, callArgs optimized)).

(** ** The one client instance *)

Record StdioClientTransport : Type := {
  command : string;
  args : list string
}.

Record EnhancedMCPClient : Type := {
  inferenceProfileId : option string;
  transport : option StdioClientTransport;
  tools : list Tool;
  sanitizedToOriginalToolName : gmap string string
}.

(** The host of the client: the platform, the path of the running
    executable, and the server reached through a transport, which may
    refuse the connection or the listing of its tools. *)
Record Host : Type := {
  platform : string;
  execPath : string;
  connect : StdioClientTransport -> Result unit;
  listTools : StdioClientTransport -> Result (list ListedTool)
}.

(** [new EnhancedMCPClient(inferenceProfileId)] *)
Definition newClient (profile : option string) : EnhancedMCPClient :=
  {| inferenceProfileId := resolved profile;
     transport := None;
     tools := [];
     sanitizedToOriginalToolName := ∅ |}.

(** [connectToServer]: the outcome, the client as the call leaves it, and
    the transports a connection was attempted through. *)
Definition connectToServer (host : Host) (this : EnhancedMCPClient) (serverScriptPath : string)
    : Result unit * EnhancedMCPClient * list StdioClientTransport :=
  let isJs := endsWith serverScriptPath ".js" in
  let isPy := endsWith serverScriptPath ".py" in
  if negb isJs && negb isPy
  then (Raise (Error "Server script must be a .js or .py file"), this, [])
  else
    let command :=
      if isPy
      then (if String.eqb (platform host) "win32" then "python" else "python3")
      else execPath host in
    let transport := {| command := command; args := [serverScriptPath] |} in
    let this :=
      {| inferenceProfileId := inferenceProfileId this;
         transport := Some transport;
         tools := tools this;
         sanitizedToOriginalToolName := sanitizedToOriginalToolName this |} in
    match connect host transport with
    | Raise e => (Raise e, this, [transport])
    | Ok _ =>
        match listTools host transport with
        | Raise e => (Raise e, this, [transport])
        | Ok listed =>
            let tools := map toolOf listed in
            (Ok tt,
             {| inferenceProfileId := inferenceProfileId this;
                transport := Some transport;
                tools := tools;
                sanitizedToOriginalToolName := nameTable tools |},
             [transport])
        end
    end.

(** [initMCPClient] on the module variable [mcpClientInstance]: the
    outcome, the variable afterwards, and the connections attempted. *)
Definition initMCPClient (host : Host) (serverScriptPath : string) (profile : option string)
    (mcpClientInstance : option EnhancedMCPClient)
    : Result EnhancedMCPClient * option EnhancedMCPClient * list StdioClientTransport :=
  match mcpClientInstance with
  | None =>
      let '(outcome, instance, attempts) :=
        connectToServer host (newClient profile) serverScriptPath in
      match outcome with
      | Ok _ => (Ok instance, Some instance, attempts)
      | Raise e => (Raise e, Some instance, attempts)
      end
  | Some instance => (Ok instance, Some instance, [])
  end.

(** [mcpProcessQuery]; [processQuery] is the method of the instance. *)
Definition mcpProcessQuery {A} (processQuery : EnhancedMCPClient -> string -> Result A)
    (query : string) (mcpClientInstance : option EnhancedMCPClient) : Result A :=
  match mcpClientInstance with
  | None => Raise (Error "MCP client not initialized. Call initMCPClient first.")
  | Some instance => processQuery instance query
  end.

End Client.

(* ===================================================================== *)
(** * The server: the read-only tools *)
(* ===================================================================== *)

Module Server.

Import Wire.

(** What the engine provides and is not embedded: the parsing of a JSON
    text (nothing when it throws), the JSON text of a value, and the
    decimal text of a number. *)
Record Engine : Type := {
  JSON_parse : string -> option json;
  JSON_stringify : json -> string;
  numberToString : number -> string
}.

(** The double quote character *)
Definition dq : string := String (ascii_of_nat 34) "".

Definition invalidKeyMessage : string :=
  "Invalid ExpressionAttributeNames key: " +:+ dq +:+ "#" +:+ dq
  +:+ " is not allowed. Use descriptive names like " +:+ dq +:+ "#age" +:+ dq
  +:+ ", " +:+ dq +:+ "#name" +:+ dq +:+ ".".

(** ** Tables and commands *)

Record KeySchemaElement : Type := {
  keyAttributeName : option string;
  KeyType : option string
}.

Record Table : Type := {
  tableTableName : option string;
  TableStatus : option string;
  ItemCount : option Z;
  TableSizeBytes : option Z;
  KeySchema : option (list KeySchemaElement);
  AttributeDefinitions : option (list AttributeDefinition);
  GlobalSecondaryIndexes : option (list json);
  LocalSecondaryIndexes : option (list json)
}.

Record ListTablesInput : Type := {
  listLimit : option json;
  ExclusiveStartTableName : option json
}.

Record ListTablesOutput : Type := {
  TableNames : option (list string);
  LastEvaluatedTableName : option string
}.

(** The input of a [ScanCommand]; the values are those that [marshall]
    returned. *)
Record ScanInput : Type := {
  TableName : option json;
  IndexName : option json;
  FilterExpression : option json;
  ExpressionAttributeValues : option json;
  ExpressionAttributeNames : option object;
  Limit : option json
}.

Record ScanOutput : Type := {
  Items : option (list object);
  Count : option Z;
  ScannedCount : option Z;
  LastEvaluatedKey : option object;
  ConsumedCapacity : option json
}.

(** The input of a [GetItemCommand]; the key is the one that [marshall]
    returned. *)
Record GetItemInput : Type := {
  getTableName : option json;
  Key : json
}.

(** The SDK.  [marshall] turns a value into the attribute values of the
    store, or throws: it does so before a command is built, so that no
    command is sent when it throws.  The other fields are what the store
    answers to each command.  [sendGetItem] and [sendScan] stand for sending
    the command and unmarshalling the response, either of which may throw;
    [sendDescribeTable] answers with the [Table] of the response. *)
Record Dynamo : Type := {
  marshall : option json -> Result json;
  sendListTables : ListTablesInput -> Result ListTablesOutput;
  sendDescribeTable : option json -> Result (option Table);
  sendGetItem : GetItemInput -> Result (option object);
  sendScan : ScanInput -> Result ScanOutput
}.

Inductive Command : Type :=
| ListTablesCommand (input : ListTablesInput)
| DescribeTableCommand (tableName : option json)
| GetItemCommand (input : GetItemInput)
| ScanCommand (input : ScanInput).

(** A computation that may send commands: it extends the trace of commands
    and either returns or throws. *)
Definition S (A : Type) : Type := list Command -> Result A * list Command.

Definition ret {A} (a : A) : S A := fun tr => (Ok a, tr).

Definition bind {A B} (m : S A) (k : A -> S B) : S B :=
  fun tr =>
    match m tr with
    | (Ok a, tr') => k a tr'
    | (Raise e, tr') => (Raise e, tr')
    end.

Definition lift {A} (r : Result A) : S A := fun tr => (r, tr).

(** [await dynamoClient.send(command)]: the command is recorded, and the
    answer of the store is the outcome. *)
Definition send {A} (command : Command) (answer : Result A) : S A :=
  fun tr => (answer, (tr ++ [command])%list).

(** [try { m } catch (error) { h error }] *)
Definition tryCatch {A} (m : S A) (h : Exception -> S A) : S A :=
  fun tr =>
    match m tr with
    | (Ok a, tr') => (Ok a, tr')
    | (Raise e, tr') => h e tr'
    end.

Notation "x <~ c1 ;; c2" := (bind c1 (fun x => c2))
  (at level 100, c1 at next level, right associativity).

Definition run {A} (m : S A) : Result A * list Command := m [].

(** [params.k]: reading a property of [undefined] throws. *)
Definition property (params : option object) (k : string) : S (option json) :=
  match params with
  | Some o => ret (o !! k)
  | None =>
      lift (Raise (TypeError ("Cannot read properties of undefined (reading '" +:+ k +:+ "')")))
  end.

Section Tools.

Variable engine : Engine.
Variable dynamo : Dynamo.

(** ** Utility functions *)

(** [String(v)] in a template literal *)
Fixpoint toStringV (v : json) : string :=
  match v with
  | VNull => "null"
  | VBool b => if b then "true" else "false"
  | VNum n => numberToString engine n
  | VStr s => s
  | VArr l => join "," (map (fun x => match x with VNull => "" | _ => toStringV x end) l)
  | VObj _ => "[object Object]"
  end.

Definition template (v : option json) : string :=
  match v with
  | Some x => toStringV x
  | None => "undefined"
  end.

(** What is stored for one value of the expression attribute values, if
    anything is *)
Definition normalizeEntry (val : json) : option json :=
  match val with
  | VObj o =>
      if truthyO (o !! "N") || truthyO (o !! "S") || truthyO (o !! "B") then
        match o !! "N", o !! "S", o !! "B" with
        | Some n, _, _ => Some (VNum (toNumberV n))
        | None, Some s, _ => Some s
        | None, None, Some b => Some b
        | None, None, None => None
        end
      else Some val
  | _ => Some val
  end.

Definition normalizeAttributeValues (exprAttrVals : option json) : Result (option object) :=
  match exprAttrVals with
  | None => Ok None
  | Some v =>
      if negb (truthyV v) then Ok None
      else
        let parsed :=
          match v with
          | VStr s => JSON_parse engine s
          | _ => Some v
          end in
        match parsed with
        | None => Ok None
        | Some VNull => Raise (TypeError "Cannot convert undefined or null to object")
        | Some v' => Ok (Some (omap normalizeEntry (ownProperties v')))
        end
  end.

(** [expressions.filter(e => typeof e === "string").join(" ")] *)
Definition combinedExpressionOf (expressions : list json) : string :=
  join " " (omap (fun e => match e with VStr s => Some s | _ => None end) expressions).

Definition cleanExpressionAttributeNames (expressionAttributeNames : option json)
    (expressions : list json) : Result (option object) :=
  match expressionAttributeNames with
  | None => Ok None
  | Some names =>
      if negb (truthyV names) then Ok None
      else
        let combinedExpression := combinedExpressionOf expressions in
        if bool_decide ("#" ∈ dom (ownProperties names))
        then Raise (Error invalidKeyMessage)
        else
          let cleanedNames :=
            filter (fun kv => includes combinedExpression kv.1 = true) (ownProperties names) in
          Ok (if (0 <? size cleanedNames)%nat then Some cleanedNames else None)
  end.

Definition getTableSchema (tableName : option json) : S (option Table) :=
  tryCatch
    (send (DescribeTableCommand tableName) (sendDescribeTable dynamo tableName))
    (fun _ => ret None).

(** The text a key attribute of type S is replaced by *)
Definition keyText (x : json) : string :=
  if isObject x then JSON_stringify engine x else toStringV x.

(** One round of the loop over the key attributes *)
Definition fixKeyAttribute (attrTypes : gmap string string) (fixedItem : object) (attr : string)
    : object :=
  match fixedItem !! attr with
  | None => fixedItem
  | Some x =>
      let expectedType := attrTypes !! attr in
      let fixedItem :=
        if bool_decide (expectedType = Some "S") && negb (isString x)
        then <[attr := VStr (keyText x)]> fixedItem
        else fixedItem in
      if bool_decide (expectedType = Some "N") then
        match fixedItem !! attr with
        | Some y =>
            if isNumber y then fixedItem
            else
              let num := toNumberV y in
              if isNaN num then fixedItem else <[attr := VNum num]> fixedItem
        | None => fixedItem
        end
      else fixedItem
  end.

(** The declared type of each attribute whose name and type are texts *)
Definition attrTypesOf (defs : list AttributeDefinition) : gmap string string :=
  foldl (fun attrTypes def =>
           match AttributeName def, AttributeType def with
           | Some n, Some ty => <[n := ty]> attrTypes
           | _, _ => attrTypes
           end) ∅ defs.

Definition fixItemKeyTypes (item : option json) (tableSchema : option Table) : option json :=
  match tableSchema ≫= KeySchema, tableSchema ≫= AttributeDefinitions, item with
  | Some keySchema, Some defs, Some v =>
      if negb (truthyV v) then item
      else
        let keyAttrs := omap keyAttributeName keySchema in
        let attrTypes := attrTypesOf defs in
        Some (VObj (foldl (fixKeyAttribute attrTypes) (ownProperties v) keyAttrs))
  | _, _, _ => item
  end.

(** ** The tools *)

(** The answer of [scanTable] and [queryTable]: the fields of a success, or
    the message and the error type of a failure, whose [items] are empty. *)
Inductive ScanResult : Type :=
| Scanned (message : string) (items : list object) (count scannedCount : option Z)
    (lastEvaluatedKey : option object) (consumedCapacity : option json)
| ScanFailed (message : string) (errorType : option string).

Definition success (r : ScanResult) : bool :=
  match r with Scanned _ _ _ _ _ _ => true | ScanFailed _ _ => false end.

Definition message (r : ScanResult) : string :=
  match r with Scanned m _ _ _ _ _ => m | ScanFailed m _ => m end.

Definition items (r : ScanResult) : list object :=
  match r with Scanned _ its _ _ _ _ => its | ScanFailed _ _ => [] end.

(** [scanResult.message = prefix + scanResult.message] *)
Definition prefixMessage (prefix : string) (r : ScanResult) : ScanResult :=
  match r with
  | Scanned m its c sc k cc => Scanned (prefix +:+ m) its c sc k cc
  | ScanFailed m ty => ScanFailed (prefix +:+ m) ty
  end.

(** The answer of [getItem]: the message, the item or null and whether it
    was found, or the message of a failure. *)
Inductive GetItemResult : Type :=
| Retrieved (message : string) (item : option object) (found : bool)
| GetItemFailed (message : string).

Definition getItem (params : option object) : S GetItemResult :=
  tryCatch
    (tableName <~ property params "tableName" ;;
     tableSchema <~ getTableSchema tableName ;;
     key <~ property params "key" ;;
     let fixedKey := fixItemKeyTypes key tableSchema in
     marshalledKey <~ lift (marshall dynamo fixedKey) ;;
     let input := {| getTableName := tableName; Key := marshalledKey |} in
     response <~ send (GetItemCommand input) (sendGetItem dynamo input) ;;
     ret (Retrieved
            match response with
            | Some _ => "Item retrieved successfully from table " +:+ template tableName
            | None => "No item found with the specified key in table " +:+ template tableName
            end
            response
            match response with Some _ => true | None => false end))
    (fun error => ret (GetItemFailed ("Failed to get item: " +:+ errorText error))).

(** [[params.filterExpression].filter(Boolean)] *)
Definition truthyOnly (v : option json) : list json :=
  match v with
  | Some x => if truthyV x then [x] else []
  | None => []
  end.

(** [normalizedValues ? marshall(normalizedValues) : undefined] *)
Definition marshalled (normalizedValues : option object) : Result (option json) :=
  match normalizedValues with
  | Some values => andThen (marshall dynamo (Some (VObj values))) (fun v => Ok (Some v))
  | None => Ok None
  end.

(** The input of the scan command for the parameters, once the values are
    normalized and marshalled and the names cleaned *)
Definition scanInputOf (params : object) (marshalledValues : option json)
    (cleanedNames : option object) : ScanInput :=
  {| TableName := params !! "tableName";
     IndexName := params !! "indexName";
     FilterExpression := params !! "filterExpression";
     ExpressionAttributeValues := marshalledValues;
     ExpressionAttributeNames := cleanedNames;
     Limit := params !! "limit" |}.

Definition scanTable (params : option object) : S ScanResult :=
  tryCatch
    (expressionAttributeValues <~ property params "expressionAttributeValues" ;;
     normalizedValues <~ lift (normalizeAttributeValues expressionAttributeValues) ;;
     expressionAttributeNames <~ property params "expressionAttributeNames" ;;
     filterExpression <~ property params "filterExpression" ;;
     cleanedNames <~ lift (cleanExpressionAttributeNames expressionAttributeNames
                             (truthyOnly filterExpression)) ;;
     marshalledValues <~ lift (marshalled normalizedValues) ;;
     let input := scanInputOf (default ∅ params) marshalledValues cleanedNames in
     response <~ send (ScanCommand input) (sendScan dynamo input) ;;
     tableName <~ property params "tableName" ;;
     indexName <~ property params "indexName" ;;
     ret (Scanned
            ("Scan executed successfully on table " +:+ template tableName
             +:+ (if truthyO indexName then " (index: " +:+ template indexName +:+ ")" else ""))
            (default [] (Items response))
            (Count response)
            (ScannedCount response)
            (LastEvaluatedKey response)
            (ConsumedCapacity response)))
    (fun error => ret (ScanFailed ("Failed to scan table: " +:+ errorText error) (name error))).

(** The parameters of the scan that stands in for a query *)
Definition scanParamsOf (params : object) : object :=
  fields [ ("tableName", params !! "tableName");
           ("indexName", params !! "indexName");
           ("filterExpression", params !! "keyConditionExpression");
           ("expressionAttributeNames", params !! "expressionAttributeNames");
           ("expressionAttributeValues", params !! "expressionAttributeValues");
           ("limit", params !! "limit") ].

Definition queryTable (params : option object) : S ScanResult :=
  tryCatch
    (_ <~ property params "tableName" ;;
     let scanParams := scanParamsOf (default ∅ params) in
     scanResult <~ scanTable (Some scanParams) ;;
     ret (prefixMessage "Query converted to scan: " scanResult))
    (fun scanError =>
       ret (ScanFailed ("Query failed and scan fallback also failed: " +:+ text scanError) None)).

(** The answer of [listTables]: the fields of a success, or the message of a
    failure. *)
Inductive ListTablesResult : Type :=
| Listed (message : string) (tables : list string) (lastEvaluatedTable : option string)
    (tableCount : nat)
| ListTablesFailed (message : string).

(** [params = {}] by default *)
Definition listTables (params : option object) : S ListTablesResult :=
  let params := default ∅ params in
  tryCatch
    (let input :=
       {| listLimit := params !! "limit";
          ExclusiveStartTableName := params !! "exclusiveStartTableName" |} in
     response <~ send (ListTablesCommand input) (sendListTables dynamo input) ;;
     ret (Listed "Tables listed successfully"
            (default [] (TableNames response))
            (LastEvaluatedTableName response)
            (default 0%nat (length <$> TableNames response))))
    (fun error => ret (ListTablesFailed ("Failed to list tables: " +:+ errorText error))).

Record TableSummary : Type := {
  summaryTableName : option string;
  status : option string;
  itemCount : option Z;
  tableSize : option Z;
  partitionKey : option string;
  sortKey : option string;
  gsiCount : nat;
  lsiCount : nat
}.

(** [table?.KeySchema?.find(k => k.KeyType === keyType)?.AttributeName] *)
Definition keyNamed (keyType : string) (table : option Table) : option string :=
  keySchema ← table ≫= KeySchema;
  k ← List.find (fun k => bool_decide (KeyType k = Some keyType)) keySchema;
  keyAttributeName k.

Definition summaryOf (table : option Table) : TableSummary :=
  {| summaryTableName := table ≫= tableTableName;
     status := table ≫= TableStatus;
     itemCount := table ≫= ItemCount;
     tableSize := table ≫= TableSizeBytes;
     partitionKey := keyNamed "HASH" table;
     sortKey := keyNamed "RANGE" table;
     gsiCount := default 0%nat (length <$> (table ≫= GlobalSecondaryIndexes));
     lsiCount := default 0%nat (length <$> (table ≫= LocalSecondaryIndexes)) |}.

(** The answer of [describeTable] *)
Inductive DescribeTableResult : Type :=
| Described (message : string) (table : option Table) (summary : TableSummary)
| DescribeTableFailed (message : string).

Definition describeTable (params : option object) : S DescribeTableResult :=
  tryCatch
    (tableName <~ property params "tableName" ;;
     table <~ send (DescribeTableCommand tableName) (sendDescribeTable dynamo tableName) ;;
     ret (Described ("Table " +:+ template tableName +:+ " described successfully")
            table (summaryOf table)))
    (fun error => ret (DescribeTableFailed ("Failed to describe table: " +:+ errorText error))).

(** ** The request handler *)

(** The names of the tools of [READ_ONLY_TOOLS], in order *)
Definition READ_ONLY_TOOLS : list string :=
  [ "dynamodb:list_tables"; "dynamodb:describe_table"; "dynamodb:get_item";
    "dynamodb:query_table"; "dynamodb:scan_table" ].

(** What [result] holds once a tool has returned *)
Inductive ToolResult : Type :=
| OfListTables (result : ListTablesResult)
| OfDescribeTable (result : DescribeTableResult)
| OfGetItem (result : GetItemResult)
| OfScan (result : ScanResult).

(** [result.success] *)
Definition succeeded (result : ToolResult) : bool :=
  match result with
  | OfListTables (Listed _ _ _ _) => true
  | OfDescribeTable (Described _ _ _) => true
  | OfGetItem (Retrieved _ _ _) => true
  | OfScan r => success r
  | _ => false
  end.

(** [JSON.stringify(v, null, 2)].  On a value of [json] it returns its
    text.  The result of a tool can hold what JSON cannot express: for an
    integer beyond the safe range [unmarshall] returns a BigInt, which is no
    value of [json] and on which [JSON.stringify] throws; what it does on a
    result is therefore a parameter of its own. *)
Record Serializer : Type := {
  ofValue : json -> string;
  ofResult : ToolResult -> Result string
}.

Variable serializer : Serializer.

(** The response of the handler: the text of its one content block and
    the error flag. *)
Record ToolResponse : Type := {
  contentText : string;
  isError : bool
}.

(** The object answered to a name that is no tool *)
Definition unknownTool (name : string) : json :=
  VObj (fields [ ("success", Some (VBool false));
                 ("message", Some (VStr ("Unknown tool: " +:+ name)));
                 ("availableTools", Some (VArr (map VStr READ_ONLY_TOOLS))) ]).

(** The object answered by the [catch] clause *)
Definition errorResponse (name : string) (error : Exception) (args : option object) : json :=
  VObj (fields [ ("success", Some (VBool false));
                 ("message",
                  Some (VStr ("Unexpected error occurred while executing " +:+ name +:+ ": "
                              +:+ errorText error)));
                 ("errorType",
                  Some (VStr (default "UnknownError" (resolved (Wire.name error)))));
                 ("tool", Some (VStr name));
                 ("arguments", VObj <$> args) ]).

(** The two statements after the [switch] *)
Definition respond (result : ToolResult) : S ToolResponse :=
  responseText <~ lift (ofResult serializer result) ;;
  ret {| contentText := responseText; isError := negb (succeeded result) |}.

(** The handler of [CallToolRequestSchema], for a request with the name
    [name] and the arguments [args] *)
Definition callTool (name : string) (args : option object) : S ToolResponse :=
  tryCatch
    (if String.eqb name "dynamodb:list_tables" then
       result <~ listTables args ;; respond (OfListTables result)
     else if String.eqb name "dynamodb:describe_table" then
       result <~ describeTable args ;; respond (OfDescribeTable result)
     else if String.eqb name "dynamodb:get_item" then
       result <~ getItem args ;; respond (OfGetItem result)
     else if String.eqb name "dynamodb:query_table" then
       result <~ queryTable args ;; respond (OfScan result)
     else if String.eqb name "dynamodb:scan_table" then
       result <~ scanTable args ;; respond (OfScan result)
     else
       ret {| contentText := ofValue serializer (unknownTool name); isError := true |})
    (fun error =>
       ret {| contentText := ofValue serializer (errorResponse name error args); isError := true |}).

End Tools.

End Server.

(* ===================================================================== *)
(** * smartQuery on the arguments as they arrive *)
(* ===================================================================== *)

(** The outcome of a computation of the interpreter that calls no store *)
Definition outcomeOf {A} (m : M A) : Outcome A := fst (m []).

(** [smartQuery] takes [params: any].  The interpreter above is the function
    on parameters of the types that the tool declares.  Here the parameters
    are any value, and so are the table name, the query text and the limit
    read from them; the store is the SDK of the server and
    [getTableSchema] is the function of the server.  The items of a scan
    are objects of [json]: the sets, the binary values and the BigInt that
    [unmarshall] can return are not modelled, and an object converts to a
    text and to a number as an object without properties named toString or
    valueOf does. *)
Module Untyped.

Import Wire Server.

Record QueryResult : Type := {
  success : bool;
  items : list object;
  message : string;
  count : nat;
  errorType : option string
}.

Definition failure (msg errType : string) : QueryResult :=
  {| success := false; items := []; message := msg; count := 0;
     errorType := Some errType |}.

Definition invalidFilter : QueryResult :=
  failure
    ("SmartQuery could not generate a valid filter expression from the natural "
     +:+ "language query. Please be more specific or use the exact attribute name.")
    "InvalidFilter".

(** The result built by the [catch] clause *)
Definition internalError (err : Exception) : QueryResult :=
  failure ("SmartQuery failed: " +:+ errorText err) "InternalError".

(** [params.k] for parameters of any type: only undefined and null have no
    properties to read. *)
Definition propertyOf (params : option json) (k : string) : S (option json) :=
  match params with
  | None =>
      lift (Raise (TypeError ("Cannot read properties of undefined (reading '" +:+ k +:+ "')")))
  | Some VNull =>
      lift (Raise (TypeError ("Cannot read properties of null (reading '" +:+ k +:+ "')")))
  | Some v => ret (ownProperties v !! k)
  end.

(** [item[field] ?? 0] *)
Definition fieldOrZero (field : string) (item : object) : json :=
  match item !! field with
  | None | Some VNull => VNum (Fin 0)
  | Some v => v
  end.

(** [Number(item[field] ?? 0) || 0] *)
Definition sortKey (field : string) (item : object) : number :=
  orZero (toNumberV (fieldOrZero field item)).

Definition compareItems (isHighest : bool) (numericField : string) (a b : object) : number :=
  if isHighest
  then sub (sortKey numericField b) (sortKey numericField a)
  else sub (sortKey numericField a) (sortKey numericField b).

(** [limit || 1] *)
Definition limitOrOne (limit : option json) : json :=
  match limit with
  | Some v => if truthyV v then v else VNum (Fin 1)
  | None => VNum (Fin 1)
  end.

(** The integer part of a rational, towards zero *)
Definition truncate (q : Q) : Z := Z.quot (Qnum q) (Z.pos (Qden q)).

(** [l.slice(0, e)]: the end is converted to a number and then to an
    integer or an infinity, NaN counting as 0. *)
Definition sliceTo {A} (e : json) (l : list A) : list A :=
  match toNumberV e with
  | NaN | NegInf => []
  | PosInf => l
  | Fin q => slice0 (truncate q) l
  end.

(** A value of a filter, as a value of [json] *)
Definition toJson (v : jsval) : json :=
  match v with
  | JNum n => VNum n
  | JStr s => VStr s
  | JBool b => VBool b
  | JNull => VNull
  end.

(** What the cascade throws, as an exception of the server *)
Definition ofJsError (e : JsError) : Exception :=
  {| name := Some "TypeError"; Wire.message := err_message e; text := err_string e |}.

Section SmartQuery.

Variable dateFallback : string -> option Z.
Variable engine : Engine.
Variable dynamo : Dynamo.

(** [new ScanCommand({ TableName: tableName })] *)
Definition fullScan (tableName : option json) : ScanInput :=
  {| TableName := tableName; IndexName := None; FilterExpression := None;
     ExpressionAttributeValues := None; ExpressionAttributeNames := None;
     Limit := None |}.

Definition superlativePath (params tableName : option json) (isHighest : bool)
    (numericField : string) : S QueryResult :=
  result <~ send (ScanCommand (fullScan tableName)) (sendScan dynamo (fullScan tableName)) ;;
  let items := default [] (Items result) in
  let items := sort (compareItems isHighest numericField) items in
  limit <~ propertyOf params "limit" ;;
  ret {| success := true;
         items := sliceTo (limitOrOne limit) items;
         message := "SmartQuery executed: returning "
                    +:+ (if isHighest then "highest" else "lowest") +:+ " "
                    +:+ numericField +:+ " item(s) by scanning the table.";
         count := length (sliceTo (limitOrOne limit) items);
         errorType := None |}.

(** The values of the filter, marshalled when there are any *)
Definition marshalledValues (fs : FilterState) : Result (option json) :=
  if (0 <? size (expressionAttributeValues fs))%nat
  then andThen (marshall dynamo (Some (VObj (toJson <$> expressionAttributeValues fs))))
         (fun v => Ok (Some v))
  else Ok None.

(** The input of the filtered scan; an empty map of names is not sent. *)
Definition filterScan (tableName : option json) (filterExpression : string) (fs : FilterState)
    (values : option json) (limit : option json) : ScanInput :=
  {| TableName := tableName;
     IndexName := None;
     FilterExpression := Some (VStr filterExpression);
     ExpressionAttributeValues := values;
     ExpressionAttributeNames :=
       if (0 <? size (expressionAttributeNames fs))%nat
       then Some (VStr <$> expressionAttributeNames fs) else None;
     Limit := limit |}.

Definition filterPath (params tableName : option json) (queryText : string)
    (attributeNames : list string) : S QueryResult :=
  match outcomeOf (cascade dateFallback queryText attributeNames) with
  | Thrown e => lift (Raise (ofJsError e))
  | Returned fs =>
      match resolved (filterExpressionOf fs) with
      | Some filterExpression =>
          values <~ lift (marshalledValues fs) ;;
          limit <~ propertyOf params "limit" ;;
          let input := filterScan tableName filterExpression fs values limit in
          result <~ send (ScanCommand input) (sendScan dynamo input) ;;
          let items := default [] (Items result) in
          ret {| success := true;
                 items := items;
                 message := "SmartQuery executed successfully on table "
                            +:+ template engine tableName
                            +:+ ". Filter: " +:+ filterExpression;
                 count := length items;
                 errorType := None |}
      | None => ret invalidFilter
      end
  end.

(** The part of [smartQuery] inside [try], for a query text that is a
    string *)
Definition guardedBody (params tableName : option json) (queryText : string)
    (attributeNames : list string) : S QueryResult :=
  let lowerQuery := toLowerCase queryText in
  tryCatch
    match superlativeField lowerQuery attributeNames with
    | Some numericField =>
        superlativePath params tableName (isHighestQuery lowerQuery) numericField
    | None => filterPath params tableName queryText attributeNames
    end
    (fun err => ret (internalError err)).

Definition smartQuery (params : option json) : S QueryResult :=
  tableName <~ propertyOf params "tableName" ;;
  queryText <~ propertyOf params "queryText" ;;
  if negb (truthyO tableName) || negb (truthyO queryText)
  then ret (failure "tableName and queryText are required" "InvalidArgument")
  else
    tableSchema <~ getTableSchema dynamo tableName ;;
    match tableSchema ≫= AttributeDefinitions with
    | None =>
        ret (failure ("Could not retrieve schema for table " +:+ template engine tableName
                      +:+ ".") "SchemaError")
    | Some defs =>
        let attributeNames := attributeNamesOf defs in
        match queryText with
        | Some (VStr text) => guardedBody params tableName text attributeNames
        | _ => lift (Raise (TypeError "queryText.toLowerCase is not a function"))
        end
    end.

End SmartQuery.

End Untyped.

(* ===================================================================== *)
(** * Vocabulary of the properties *)
(* ===================================================================== *)

Definition leNum (a b : number) : Prop :=
  match a, b with
  | NaN, _ | _, NaN => False
  | NegInf, _ => True
  | _, PosInf => True
  | Fin x, Fin y => (x <= y)%Q
  | _, _ => False
  end.

(** Two numbers that the order does not tell apart *)
Definition sameNum (a b : number) : Prop := leNum a b /\ leNum b a.

(** The order in which the superlative path leaves the items *)
Definition keyOrder (descending : bool) (field : string) (a b : Item) : Prop :=
  if descending
  then leNum (sortKey field b) (sortKey field a)
  else leNum (sortKey field a) (sortKey field b).

(** The groups that take part in every match of a regular expression *)
Fixpoint sureGroups (r : regex) : gset nat :=
  match r with
  | RSeq r1 r2 => sureGroups r1 ∪ sureGroups r2
  | RGroup i r1 => {[ i ]} ∪ sureGroups r1
  | _ => ∅
  end.

(** The shapes a result can have: a failure, or a success whose count is the
    number of its items. *)
Inductive ResultShape : QueryResult -> Prop :=
| shape_failure msg ty : ResultShape (failure msg ty)
| shape_success its msg :
    ResultShape {| success := true; items := its; message := msg;
                   count := length its; errorType := None |}.


(** The token captured by a strategy's pattern, if the pattern matches,
    resolves to no attribute. *)
Definition unresolvedToken (pattern : regex) (q : string) (attrs : list string) : Prop :=
  forall m g, match_ true pattern q = Some m -> m !! 1 = Some g ->
    resolved (findBestAttributeMatch g attrs) = None.

Definition highestWords : list string := ["highest"; "maximum"; "max"].
Definition lowestWords : list string := ["lowest"; "minimum"; "min"].

(** The lowercased query contains one of the words. *)
Definition mentions (lowerQuery : string) (words : list string) : Prop :=
  exists w, In w words /\ includes lowerQuery w = true.

(** The attribute name contains amount or value, whatever the case. *)
Definition numericName (a : string) : Prop :=
  includes (toLowerCase a) "amount" = true \/ includes (toLowerCase a) "value" = true.

(** [key] is the first attribute, in schema order, with such a name. *)
Definition firstNumeric (attrs : list string) (key : string) : Prop :=
  exists pre post, attrs = (pre ++ key :: post)%list /\ numericName key
                   /\ forall b, In b pre -> ~ numericName b.

(** The schema fetch fails: the call throws, the response has no table, or
    the table has no attribute definitions. *)
Definition schemaUnavailable (store : Store) (t : string) : Prop :=
  (exists e, describeTable store t = Thrown e)
  \/ describeTable store t = Returned None
  \/ (exists tbl, describeTable store t = Returned (Some tbl)
                  /\ AttributeDefinitions tbl = None).

(** The calendar date of a time value in UTC: year, month and day of the
    month, two digits each for the last two and four for a year in 0..9999. *)
Definition isoDate (t : Z) : string :=
  isoYear (YearFromTime t) +:+ "-" +:+ pad 2 (MonthFromTime t + 1) +:+ "-"
    +:+ pad 2 (DateFromTime t).

(** No character of the text is [c]. *)
Fixpoint lacks (c : ascii) (s : string) : bool :=
  match s with
  | EmptyString => true
  | String a s' => negb (Ascii.eqb a c) && lacks c s'
  end.

(** The ten digit characters *)
Definition digitChars : list ascii :=
  ["0"; "1"; "2"; "3"; "4"; "5"; "6"; "7"; "8"; "9"]%char.

Definition str2 (a b : ascii) : string := String a (String b "").

Definition str4 (a b c d : ascii) : string := String a (String b (str2 c d)).

(** The text of a date-only form: four digits, two digits and two digits,
    with a dash in between *)
Definition dateOnly (y1 y2 y3 y4 m1 m2 d1 d2 : ascii) : string :=
  str4 y1 y2 y3 y4 +:+ "-" +:+ str2 m1 m2 +:+ "-" +:+ str2 d1 d2.

(** ** Sample data *)

Definition tradeAttributes : list string := ["TradeId"; "Amount"; "SourceCountry"; "TradeDate"].

Definition attributeDefinition (name type : string) : AttributeDefinition :=
  {| AttributeName := Some name; AttributeType := Some type |}.

Definition tradeTable : TableDescription :=
  {| AttributeDefinitions :=
       Some [attributeDefinition "TradeId" "S"; attributeDefinition "Amount" "N";
             attributeDefinition "SourceCountry" "S"; attributeDefinition "TradeDate" "S"] |}.

Definition trade (id : string) (amount : option jsval) : Item :=
  match amount with
  | Some a => {[ "TradeId" := JStr id; "Amount" := a ]}
  | None => {[ "TradeId" := JStr id ]}
  end.

Definition sampleItems : list Item :=
  [trade "t1" (Some (JNum (Fin 5))); trade "t2" (Some (JStr "70"));
   trade "t3" (Some (JStr "n/a")); trade "t4" (Some (JNum (Fin 1200))); trade "t5" None].

(** A store with one table description and the same items for every scan *)
Definition sampleStore : Store :=
  {| describeTable := fun _ => Returned (Some tradeTable);
     scan := fun _ => Returned (Some sampleItems) |}.

(** A store whose scans fail *)
Definition failingStore : Store :=
  {| describeTable := fun _ => Returned (Some tradeTable);
     scan := fun _ =>
       Thrown {| err_message := Some "Throttled"; err_string := "Error: Throttled" |} |}.

(** An engine that reads nothing but the date-only form *)
Definition noFallback (s : string) : option Z := None.

(** The parameters of a query on the table Trades *)
Definition ask (q : string) (lim : option Z) : Params :=
  {| tableName := Some "Trades"; queryText := Some q; limit := lim |}.

(** The character before the position reached after reading [w] *)
Fixpoint last_char (prev : option ascii) (w : string) : option ascii :=
  match w with
  | EmptyString => prev
  | String a w' => last_char (Some a) w'
  end.

(** Every character of the text is in the class. *)
Fixpoint all_in (p : ascii -> bool) (s : string) : bool :=
  match s with
  | EmptyString => true
  | String a s' => p a && all_in p s'
  end.

(** [derives ic r prev w rest caps caps']: the expression reads the word
    [w] in front of [rest], the character before it being [prev], and
    takes the captures from [caps] to [caps']. *)
Inductive derives (ic : bool)
  : regex -> option ascii -> string -> string -> Captures -> Captures -> Prop :=
| derives_empty prev rest caps :
    derives ic REmpty prev "" rest caps caps
| derives_char c a prev rest caps :
    char_eq ic c a = true ->
    derives ic (RChar c) prev (String a "") rest caps caps
| derives_class p a prev rest caps :
    p a = true ->
    derives ic (RClass p) prev (String a "") rest caps caps
| derives_seq r1 r2 prev w1 w2 rest caps caps1 caps2 :
    derives ic r1 prev w1 (w2 +:+ rest) caps caps1 ->
    derives ic r2 (last_char prev w1) w2 rest caps1 caps2 ->
    derives ic (RSeq r1 r2) prev (w1 +:+ w2) rest caps caps2
| derives_alt_l r1 r2 prev w rest caps caps' :
    derives ic r1 prev w rest caps caps' ->
    derives ic (RAlt r1 r2) prev w rest caps caps'
| derives_alt_r r1 r2 prev w rest caps caps' :
    derives ic r2 prev w rest caps caps' ->
    derives ic (RAlt r1 r2) prev w rest caps caps'
| derives_star p prev w rest caps :
    all_in p w = true ->
    derives ic (RStar p) prev w rest caps caps
| derives_group i r prev w rest caps caps' :
    derives ic r prev w rest caps caps' ->
    derives ic (RGroup i r) prev w rest caps (<[i := w]> caps')
| derives_wordb prev rest caps :
    at_word_boundary prev rest = true ->
    derives ic RWordB prev "" rest caps caps.

(** The expression has no capture group. *)
Fixpoint groupFree (r : regex) : bool :=
  match r with
  | RGroup _ _ => false
  | RSeq r1 r2 | RAlt r1 r2 => groupFree r1 && groupFree r2
  | _ => true
  end.

(** The operators of the explicit strategy *)
Definition comparisonOperators : list string := [">="; "<="; ">"; "<"; "="].

(** The phrases of the natural strategy *)
Definition naturalPhrases : list string := ["after"; "before"; "less than"; "greater than"].

(** A typed literal that can be compared: a finite number or a text that is
    not empty. *)
Definition literal (v : jsval) : Prop :=
  (exists q, v = JNum (Fin q)) \/ (exists s, v = JStr s /\ s <> "").

(** The state after one filter was added to the initial state *)
Definition singleFilter (a op : string) (v : jsval) : FilterState :=
  {| valueIndex := 1;
     filterParts := ["#attr0 " +:+ op +:+ " :val0"];
     expressionAttributeNames := {[ "#attr0" := a ]};
     expressionAttributeValues := {[ ":val0" := v ]} |}.

(** What a strategy leaves when it starts from the initial state: nothing,
    or one filter on an attribute of the schema. *)
Definition strategyResult (dateFallback : string -> option Z) (attrs ops : list string)
    (r : bool * FilterState) : Prop :=
  r = (false, initialFilter)
  \/ exists a op raw,
       In a attrs /\ In op ops /\ truthy (cleanValue raw) = true
       /\ r = (true, singleFilter a op (typeValue dateFallback a (cleanValue raw))).

(** The input of a scan that smartQuery may send for table [t]: the whole
    table, or one comparison of an attribute of the schema with a literal. *)
Definition scanForm (t : string) (lim : option Z) (attrs : list string)
    (input : ScanCommandInput) : Prop :=
  input = fullScan t
  \/ exists a op v,
       In a attrs /\ In op comparisonOperators /\ literal v
       /\ input = {| TableName := t;
                     FilterExpression := Some ("#attr0 " +:+ op +:+ " :val0");
                     ExpressionAttributeNames := Some {[ "#attr0" := a ]};
                     ExpressionAttributeValues := Some {[ ":val0" := v ]};
                     Limit := lim |}.

(** [a] comes strictly before [b] in the order of the superlative path. *)
Definition strictlyBefore (descending : bool) (field : string) (a b : Item) : Prop :=
  keyOrder descending field a b /\ ~ keyOrder descending field b a.

(** The value a key attribute ends with, given its declared type: a text
    for S, a number for N where the value converts to one. *)
Definition fixedKeyValue (engine : Server.Engine) (expectedType : option string)
    (x : Wire.json) : Wire.json :=
  if bool_decide (expectedType = Some "S") then
    if Wire.isString x then x else Wire.VStr (Server.keyText engine x)
  else if bool_decide (expectedType = Some "N") then
    if Wire.isNumber x || isNaN (Wire.toNumberV x) then x else Wire.VNum (Wire.toNumberV x)
  else x.


(** The text cannot go on a decimal literal that ends before it: it is
    empty, or its first character is no digit, no dot and no exponent
    mark. *)
Definition endsNumber (rest : string) : Prop :=
  match rest with
  | EmptyString => True
  | String c _ =>
      is_digit c = false /\ c <> "."%char /\ c <> "e"%char /\ c <> "E"%char
  end.

(** ** More sample data *)

(** A store whose table description names no attribute *)
Definition bareStore : Store :=
  {| describeTable := fun _ => Returned (Some {| AttributeDefinitions := Some [] |});
     scan := fun _ => Returned (Some sampleItems) |}.

(** The tools of the server, as the client keeps them *)
Definition serverTools : list Client.Tool :=
  map (fun name =>
         {| Client.toolName := name;
            Client.description := "";
            Client.input_schema := Wire.VObj ∅ |})
    Server.READ_ONLY_TOOLS.

(** An engine for the examples, none of which reaches it: it parses no
    text and has the empty text for every value. *)
Definition idleEngine : Server.Engine :=
  {| Server.JSON_parse := fun _ => None;
     Server.JSON_stringify := fun _ => "";
     Server.numberToString := fun _ => "" |}.

(** A store for the server that holds nothing; marshalling leaves every
    value as it is. *)
Definition emptyDynamo : Server.Dynamo :=
  {| Server.marshall := fun v => Wire.Ok (default Wire.VNull v);
     Server.sendListTables := fun _ =>
       Wire.Ok {| Server.TableNames := None; Server.LastEvaluatedTableName := None |};
     Server.sendDescribeTable := fun _ => Wire.Ok None;
     Server.sendGetItem := fun _ => Wire.Ok None;
     Server.sendScan := fun _ =>
       Wire.Ok {| Server.Items := None; Server.Count := None; Server.ScannedCount := None;
                  Server.LastEvaluatedKey := None; Server.ConsumedCapacity := None |} |}.

(** A table with the partition key TradeId, a text, and the sort key
    Version, a number *)
Definition versionedTable : Server.Table :=
  {| Server.tableTableName := Some "Trades";
     Server.TableStatus := Some "ACTIVE";
     Server.ItemCount := None;
     Server.TableSizeBytes := None;
     Server.KeySchema :=
       Some [ {| Server.keyAttributeName := Some "TradeId"; Server.KeyType := Some "HASH" |};
              {| Server.keyAttributeName := Some "Version"; Server.KeyType := Some "RANGE" |} ];
     Server.AttributeDefinitions :=
       Some [attributeDefinition "TradeId" "S"; attributeDefinition "Version" "N"];
     Server.GlobalSecondaryIndexes := None;
     Server.LocalSecondaryIndexes := None |}.

(** The arguments of a query by age *)
Definition ageQuery : Wire.object :=
  {[ "tableName" := Wire.VStr "People";
     "keyConditionExpression" := Wire.VStr "Age > :a" ]}.

(** Names with the key that is refused, and parameters that carry them *)
Definition hashNames : Wire.object := {[ "#" := Wire.VStr "Amount" ]}.

Definition hashParams : Wire.object :=
  {[ "tableName" := Wire.VStr "Trades";
     "filterExpression" := Wire.VStr "# > :v";
     "expressionAttributeNames" := Wire.VObj hashNames ]}.

(** A key whose sort key is given as a text *)
Definition versionedKey : Wire.object :=
  {[ "TradeId" := Wire.VStr "t1"; "Version" := Wire.VStr "3" ]}.




(* ===================================================================== *)
(** * Facts about the primitives *)
(* ===================================================================== *)

(** ** The order behind the comparator *)

Lemma leNum_trans a b c : leNum a b -> leNum b c -> leNum a c.
Proof.
  destruct a, b, c; simpl; try tauto. apply Qle_trans.
Qed.

Lemma sign_sub_le a b : a <> NaN -> b <> NaN -> sign (sub a b) <> Gt -> leNum a b.
Proof.
  destruct a, b; simpl; try tauto; try congruence.
  intros _ _ H. rewrite (Qred_correct (q - q0)) in H.
  destruct (Qlt_le_dec q0 q) as [Hlt|Hle]; [|exact Hle].
  exfalso. apply H. rewrite <- Qgt_alt. unfold Qminus.
  now rewrite <- Qlt_minus_iff.
Qed.

Lemma sign_sub_gt a b : a <> NaN -> b <> NaN -> sign (sub a b) = Gt -> leNum b a.
Proof.
  destruct a, b; simpl; try tauto; try congruence.
  intros _ _ H. rewrite (Qred_correct (q - q0)) in H.
  rewrite <- Qgt_alt in H. unfold Qminus in H. rewrite <- Qlt_minus_iff in H.
  now apply Qlt_le_weak.
Qed.

Lemma orZero_not_NaN n : orZero n <> NaN.
Proof. destruct n; simpl; try discriminate. destruct (Qeq_bool q 0); discriminate. Qed.

Lemma sortKey_not_NaN field item : sortKey field item <> NaN.
Proof. apply orZero_not_NaN. Qed.

Lemma orZero_same n : n <> NaN -> sameNum (orZero n) n.
Proof.
  destruct n; simpl; try tauto; intros _; try (split; exact I).
  destruct (Qeq_bool q 0) eqn:E.
  - apply Qeq_bool_iff in E. split; simpl; rewrite E; apply Qle_refl.
  - split; apply Qle_refl.
Qed.

Lemma sortKey_missing field (item : Item) :
  item !! field = None \/ item !! field = Some JNull
  \/ (exists v, item !! field = Some v /\ toNumber v = NaN) ->
  sortKey field item = Fin 0.
Proof.
  unfold sortKey, fieldOrZero. intros [->|[->|(v & -> & Hv)]]; try reflexivity.
  destruct v; simpl in *; try rewrite Hv; reflexivity.
Qed.

Lemma sortKey_numeric field (item : Item) v :
  item !! field = Some v -> toNumber v <> NaN ->
  sameNum (sortKey field item) (toNumber v).
Proof.
  intros Hv Hn. unfold sortKey, fieldOrZero. rewrite Hv.
  destruct v; now apply orZero_same.
Qed.

(** ** Insertion sort under a comparator that reflects a preorder *)

Section SortFacts.
Context {A : Type} (cmp : A -> A -> number) (le : A -> A -> Prop).
Hypothesis le_trans : forall x y z, le x y -> le y z -> le x z.
Hypothesis cmp_le : forall x y, sign (cmp x y) <> Gt -> le x y.
Hypothesis cmp_gt : forall x y, sign (cmp x y) = Gt -> le y x.

Lemma insertSorted_perm x l : Permutation (insertSorted cmp x l) (x :: l).
Proof.
  induction l as [|y l IH]; simpl; [reflexivity|].
  destruct (sign (cmp x y)); try reflexivity.
  rewrite IH. apply perm_swap.
Qed.

Lemma sort_perm l : Permutation (sort cmp l) l.
Proof.
  induction l as [|x l IH]; simpl; [reflexivity|].
  rewrite insertSorted_perm. now constructor.
Qed.

Lemma insertSorted_sorted x l :
  StronglySorted le l -> StronglySorted le (insertSorted cmp x l).
Proof.
  induction 1 as [|y l Hs IH Hall]; simpl.
  - repeat constructor.
  - destruct (sign (cmp x y)) eqn:E.
    1,2: assert (Hxy : le x y) by (apply cmp_le; rewrite E; discriminate);
         constructor; [now constructor|];
         constructor; [exact Hxy|];
         eapply Forall_impl; [exact Hall|]; intros z Hz; simpl in Hz; eauto.
    constructor; [exact IH|].
    apply (Permutation_Forall (Permutation_sym (insertSorted_perm x l))).
    constructor; [now apply cmp_gt | exact Hall].
Qed.

Lemma sort_sorted l : StronglySorted le (sort cmp l).
Proof.
  induction l as [|x l IH]; simpl; [constructor|].
  now apply insertSorted_sorted.
Qed.

End SortFacts.

Lemma sort_compareItems_sorted descending field l :
  StronglySorted (keyOrder descending field) (sort (compareItems descending field) l).
Proof.
  apply sort_sorted; unfold keyOrder, compareItems; destruct descending; intros *.
  - intros H1 H2. eapply leNum_trans; eauto.
  - apply leNum_trans.
  - apply sign_sub_le; apply sortKey_not_NaN.
  - apply sign_sub_le; apply sortKey_not_NaN.
  - apply sign_sub_gt; apply sortKey_not_NaN.
  - apply sign_sub_gt; apply sortKey_not_NaN.
Qed.

Lemma slice0_absent {A} (l : list A) : slice0 (limitOrOne None) l = firstn 1 l.
Proof. reflexivity. Qed.

Lemma slice0_zero {A} (l : list A) : slice0 (limitOrOne (Some 0%Z)) l = firstn 1 l.
Proof. reflexivity. Qed.

Lemma slice0_positive {A} n (l : list A) :
  (0 < n)%Z -> slice0 (limitOrOne (Some n)) l = firstn (Z.to_nat n) l.
Proof.
  intros H. unfold slice0, limitOrOne. simpl.
  destruct (n =? 0)%Z eqn:E; [apply Z.eqb_eq in E; lia|].
  destruct (0 <=? n)%Z eqn:E'; [reflexivity|apply Z.leb_gt in E'; lia].
Qed.

(** ** The first element that passes a filter *)

Lemma head_filter_Some {A} (p : A -> bool) l x :
  head (List.filter p l) = Some x <->
  exists pre post, l = (pre ++ x :: post)%list /\ p x = true /\ forall b, In b pre -> p b = false.
Proof.
  induction l as [|y l IH]; simpl.
  - split; [discriminate|]. intros (pre & post & H & _). now destruct pre.
  - destruct (p y) eqn:E; simpl.
    + split.
      * intros [= ->]. exists [], l. repeat split; [exact E|intros b []].
      * intros (pre & post & H & Hx & Hpre). destruct pre as [|b pre]; simpl in H.
        -- now injection H as -> _.
        -- injection H as -> _. rewrite (Hpre b) in E by now left. discriminate.
    + rewrite IH. split.
      * intros (pre & post & -> & Hx & Hpre). exists (y :: pre), post.
        repeat split; [exact Hx|]. intros b [<-|Hb]; auto.
      * intros (pre & post & H & Hx & Hpre). destruct pre as [|b pre]; simpl in H.
        -- injection H as -> _. congruence.
        -- injection H as -> ->. exists pre, post. repeat split; [exact Hx|].
           intros c Hc. apply Hpre. now right.
Qed.

Lemma head_filter_None {A} (p : A -> bool) l :
  head (List.filter p l) = None <-> forall a, In a l -> p a = false.
Proof.
  induction l as [|y l IH]; simpl.
  - split; [intros _ a []|reflexivity].
  - destruct (p y) eqn:E; simpl.
    + split; [discriminate|]. intros H. rewrite (H y) in E by now left. discriminate.
    + rewrite IH. split.
      * intros H a [<-|Ha]; auto.
      * intros H a Ha. apply H. now right.
Qed.

(** ** Capture groups of a successful match *)

Lemma star_class_inv p prev s caps k c :
  star_class p prev s caps k = Some c ->
  exists prev' s', k prev' s' caps = Some c.
Proof.
  revert prev. induction s as [|a s IH]; intros prev; simpl.
  - eauto.
  - destruct (p a); [|eauto].
    destruct (star_class p (Some a) s caps k) eqn:E.
    + intros [= <-]. eapply IH, E.
    + eauto.
Qed.

Lemma rmatch_inv ic r : forall prev s caps k c,
  rmatch ic r prev s caps k = Some c ->
  exists prev' s' caps',
    dom caps ∪ sureGroups r ⊆ dom caps' /\ k prev' s' caps' = Some c.
Proof.
  induction r as [|ch|p|r1 IH1 r2 IH2|r1 IH1 r2 IH2|p|i r1 IH1|]; intros prev s caps k c; simpl.
  - intros H. exists prev, s, caps. split; [set_solver|exact H].
  - destruct s as [|a s]; [discriminate|]. destruct (char_eq ic ch a); [|discriminate].
    intros H. exists (Some a), s, caps. split; [set_solver|exact H].
  - destruct s as [|a s]; [discriminate|]. destruct (p a); [|discriminate].
    intros H. exists (Some a), s, caps. split; [set_solver|exact H].
  - intros H. apply IH1 in H as (p1 & s1 & c1 & Hd1 & H).
    apply IH2 in H as (p2 & s2 & c2 & Hd2 & H).
    exists p2, s2, c2. split; [set_solver|exact H].
  - destruct (rmatch ic r1 prev s caps k) eqn:E.
    + intros [= <-]. apply IH1 in E as (p1 & s1 & c1 & Hd1 & H).
      exists p1, s1, c1. split; [set_solver|exact H].
    + intros H. apply IH2 in H as (p1 & s1 & c1 & Hd1 & H).
      exists p1, s1, c1. split; [set_solver|exact H].
  - intros H. apply star_class_inv in H as (p1 & s1 & H).
    exists p1, s1, caps. split; [set_solver|exact H].
  - intros H. apply IH1 in H as (p1 & s1 & c1 & Hd1 & H).
    exists p1, s1, (<[i := consumed s s1]> c1). split; [|exact H].
    rewrite dom_insert. set_solver.
  - destruct (at_word_boundary prev s); [|discriminate].
    intros H. exists prev, s, caps. split; [set_solver|exact H].
Qed.

Lemma match_groups ic r s m i :
  match_ ic r s = Some m -> i ∈ sureGroups r -> is_Some (m !! i).
Proof.
  unfold match_. generalize (@None ascii) as prev.
  induction s as [|a s IH]; intros prev; simpl.
  - destruct (rmatch ic r prev "" ∅ _) eqn:E; [|discriminate].
    intros [= <-] Hi. apply rmatch_inv in E as (p1 & s1 & c1 & Hd & [= <-]).
    apply elem_of_dom. rewrite dom_insert. set_solver.
  - destruct (rmatch ic r prev (String a s) ∅ _) eqn:E.
    + intros [= <-] Hi. apply rmatch_inv in E as (p1 & s1 & c1 & Hd & [= <-]).
      apply elem_of_dom. rewrite dom_insert. set_solver.
    + apply IH.
Qed.

Lemma explicit_groups q m :
  match_ true explicitPattern q = Some m ->
  exists g1 g2 g3, m !! 1 = Some g1 /\ m !! 2 = Some g2 /\ m !! 3 = Some g3.
Proof.
  intros H.
  destruct (match_groups _ _ _ _ 1 H) as [g1 H1]; [vm_compute; set_solver|].
  destruct (match_groups _ _ _ _ 2 H) as [g2 H2]; [vm_compute; set_solver|].
  destruct (match_groups _ _ _ _ 3 H) as [g3 H3]; [vm_compute; set_solver|].
  eauto 7.
Qed.

Lemma simple_groups q m :
  match_ true simplePattern q = Some m ->
  exists g1 g2, m !! 1 = Some g1 /\ m !! 2 = Some g2.
Proof.
  intros H.
  destruct (match_groups _ _ _ _ 1 H) as [g1 H1]; [vm_compute; set_solver|].
  destruct (match_groups _ _ _ _ 2 H) as [g2 H2]; [vm_compute; set_solver|].
  eauto.
Qed.

Lemma natural_groups q m :
  match_ true naturalOpPattern q = Some m ->
  exists g1 g2, m !! 1 = Some g1 /\ m !! 2 = Some g2.
Proof.
  intros H.
  destruct (match_groups _ _ _ _ 1 H) as [g1 H1]; [vm_compute; set_solver|].
  destruct (match_groups _ _ _ _ 2 H) as [g2 H2]; [vm_compute; set_solver|].
  eauto.
Qed.

(** ** Substrings *)

Lemma includes_self s : includes s s = true.
Proof.
  assert (H : String.prefix s s = true).
  { induction s as [|c s IH]; simpl; [reflexivity|].
    destruct (ascii_dec c c); [exact IH|congruence]. }
  destruct s; simpl in *; [reflexivity|now rewrite H].
Qed.

Lemma includes_cons c x s :
  includes (String c x) s = if String.prefix s (String c x) then true else includes x s.
Proof. reflexivity. Qed.

Lemma includes_append pre s : includes (pre +:+ s) s = true.
Proof.
  induction pre as [|c pre IH].
  - apply includes_self.
  - change (String c pre +:+ s) with (String c (pre +:+ s)). rewrite includes_cons.
    destruct (String.prefix s (String c (pre +:+ s))); [reflexivity|exact IH].
Qed.

(** ** The date part of an ISO rendering *)

Lemma append_cons c a b : String c a +:+ b = String c (a +:+ b).
Proof. reflexivity. Qed.

Lemma append_nil_r s : s +:+ "" = s.
Proof.
  induction s as [|c s IH]; [reflexivity|]. now rewrite append_cons, IH.
Qed.

Lemma lacks_app c a b : lacks c (a +:+ b) = lacks c a && lacks c b.
Proof.
  induction a as [|x a IH]; [reflexivity|].
  rewrite append_cons. cbn [lacks]. now rewrite IH, andb_assoc.
Qed.

Lemma splitHead_app c a b : lacks c a = true -> splitHead c (a +:+ b) = a +:+ splitHead c b.
Proof.
  induction a as [|x a IH]; [reflexivity|].
  rewrite !append_cons. cbn [lacks splitHead].
  intros H. apply andb_true_iff in H as [Hx Ha].
  apply negb_true_iff in Hx. rewrite Hx. now rewrite IH.
Qed.

Lemma digit_differs c a : is_digit c = false -> is_digit a = true -> negb (Ascii.eqb a c) = true.
Proof.
  intros Hc Ha. apply negb_true_iff.
  destruct (Ascii.eqb a c) eqn:E; [|reflexivity].
  apply Ascii.eqb_eq in E. congruence.
Qed.

Lemma lacks_uint c d :
  is_digit c = false -> lacks c (NilEmpty.string_of_uint d) = true.
Proof.
  intros Hc.
  induction d as [|d IH|d IH|d IH|d IH|d IH|d IH|d IH|d IH|d IH|d IH];
    cbn [NilEmpty.string_of_uint lacks];
    [reflexivity|..]; rewrite IH, andb_true_r; now apply digit_differs.
Qed.

Lemma lacks_showNat c n : is_digit c = false -> lacks c (showNat n) = true.
Proof.
  intros Hc. unfold showNat, NilZero.string_of_uint.
  destruct (Nat.to_uint n) eqn:E; try (rewrite <- E; now apply lacks_uint).
  cbn [lacks]. rewrite andb_true_r. now apply digit_differs.
Qed.

Lemma lacks_zeros c n : is_digit c = false -> lacks c (zeros n) = true.
Proof.
  intros Hc. induction n as [|n IH]; cbn [zeros lacks]; [reflexivity|].
  rewrite IH, andb_true_r. now apply digit_differs.
Qed.

Lemma lacks_pad c w z : is_digit c = false -> lacks c (pad w z) = true.
Proof.
  intros Hc. unfold pad. now rewrite lacks_app, lacks_zeros, lacks_showNat.
Qed.

Lemma lacks_isoYear y : lacks "T" (isoYear y) = true.
Proof.
  unfold isoYear.
  destruct (_ && _); [now apply lacks_pad|].
  destruct (0 <=? y)%Z; rewrite lacks_app, lacks_pad by reflexivity; reflexivity.
Qed.

Lemma splitHead_toISOString t : splitHead "T" (toISOString t) = isoDate t.
Proof.
  unfold toISOString, isoDate. cbv zeta.
  rewrite splitHead_app by apply lacks_isoYear.
  rewrite (splitHead_app "T" "-") by reflexivity.
  rewrite splitHead_app by now apply lacks_pad.
  rewrite (splitHead_app "T" "-") by reflexivity.
  rewrite splitHead_app by now apply lacks_pad.
  change (splitHead "T" ("T" +:+ _)) with "". now rewrite append_nil_r.
Qed.

(** ** The calendar

    [YearFromTime] is the year that ECMA-262 defines, the date-only form
    parses to the midnight of its day, and the rendering of that instant
    gives the text back. *)

Section Calendar.

Local Open Scope Z_scope.

Lemma YearFromTime_spec t :
  DayFromYear (YearFromTime t) <= Day t < DayFromYear (YearFromTime t + 1).
Proof.
  unfold YearFromTime. cbv zeta. generalize (Day t) as d. intros d.
  unfold DayFromYear.
  destruct (d <? _) eqn:E1; [apply Z.ltb_lt in E1|apply Z.ltb_ge in E1].
  - Z.div_mod_to_equations; lia.
  - destruct (_ <=? d) eqn:E2; [apply Z.leb_le in E2|apply Z.leb_gt in E2];
      Z.div_mod_to_equations; lia.
Qed.

Lemma DayFromYear_mono a b : a <= b -> DayFromYear a <= DayFromYear b.
Proof. unfold DayFromYear. intros H. Z.div_mod_to_equations. lia. Qed.

Lemma DayFromYear_next y : DayFromYear (y + 1) = DayFromYear y + DaysInYear y.
Proof.
  unfold DayFromYear, DaysInYear.
  destruct (y mod 4 =? 0) eqn:E4; [apply Z.eqb_eq in E4|apply Z.eqb_neq in E4]; simpl.
  2: Z.div_mod_to_equations; lia.
  destruct (y mod 100 =? 0) eqn:E100; [apply Z.eqb_eq in E100|apply Z.eqb_neq in E100]; simpl.
  2: Z.div_mod_to_equations; lia.
  destruct (y mod 400 =? 0) eqn:E400; [apply Z.eqb_eq in E400|apply Z.eqb_neq in E400]; simpl.
  all: Z.div_mod_to_equations; lia.
Qed.

Lemma YearFromTime_unique t y :
  DayFromYear y <= Day t < DayFromYear (y + 1) -> YearFromTime t = y.
Proof.
  intros H. pose proof (YearFromTime_spec t) as H'.
  destruct (Z.lt_trichotomy (YearFromTime t) y) as [Hlt|[Heq|Hgt]]; [|exact Heq|].
  - pose proof (DayFromYear_mono (YearFromTime t + 1) y ltac:(lia)). lia.
  - pose proof (DayFromYear_mono (y + 1) (YearFromTime t) ltac:(lia)). lia.
Qed.

Lemma Day_of_days d : Day (d * msPerDay) = d.
Proof. unfold Day, msPerDay. now rewrite Z.div_mul. Qed.

Lemma civil_roundtrip y m d :
  0 <= m <= 11 -> 1 <= d <= daysInMonth y m ->
  let t := MakeDay y m d * msPerDay in
  YearFromTime t = y /\ MonthFromTime t = m /\ DateFromTime t = d.
Proof.
  intros Hm Hd t.
  assert (Hcases : m = 0 \/ m = 1 \/ m = 2 \/ m = 3 \/ m = 4 \/ m = 5 \/ m = 6
                   \/ m = 7 \/ m = 8 \/ m = 9 \/ m = 10 \/ m = 11) by lia.
  assert (Hleap : DaysInYear y = 365 \/ DaysInYear y = 366).
  { unfold DaysInYear. repeat destruct (negb _); auto. }
  assert (Hy : YearFromTime t = y).
  { apply YearFromTime_unique. subst t. rewrite Day_of_days, DayFromYear_next.
    unfold MakeDay, daysInMonth in *.
    destruct Hleap as [Hl|Hl]; rewrite Hl in *;
      destruct Hcases as [->|[->|[->|[->|[->|[->|[->|[->|[->|[->|[->| ->]]]]]]]]]]];
      cbn in *; lia. }
  assert (Hw : DayWithinYear t
               = daysBeforeMonth (if DaysInYear y =? 366 then 1 else 0) m + d - 1).
  { unfold DayWithinYear. rewrite Hy. subst t. rewrite Day_of_days. unfold MakeDay. lia. }
  split; [exact Hy|].
  unfold DateFromTime, MonthFromTime, InLeapYear. rewrite Hy, Hw.
  unfold daysInMonth in Hd.
  destruct Hleap as [Hl|Hl]; rewrite Hl in *;
    destruct Hcases as [->|[->|[->|[->|[->|[->|[->|[->|[->|[->|[->| ->]]]]]]]]]]];
    cbn in Hd; cbn [daysBeforeMonth Z.eqb Pos.eqb Z.add Pos.add Pos.succ];
    repeat match goal with
           | |- context [?a <? ?b] =>
               let E := fresh in
               destruct (a <? b) eqn:E; [apply Z.ltb_lt in E|apply Z.ltb_ge in E]; try lia
           end; split; lia.
Qed.

Lemma is_digit_In c : is_digit c = true -> In c digitChars.
Proof.
  destruct c as [[] [] [] [] [] [] [] []]; intros H; vm_compute in H;
    try discriminate; simpl; tauto.
Qed.

Lemma pad2_roundtrip a b :
  is_digit a = true -> is_digit b = true ->
  pad 2 (digits_value 10 0 (str2 a b)) = str2 a b.
Proof.
  intros Ha Hb. apply is_digit_In in Ha, Hb.
  assert (H : forallb (fun a => forallb (fun b =>
            String.eqb (pad 2 (digits_value 10 0 (str2 a b))) (str2 a b))
            digitChars) digitChars = true) by (vm_compute; reflexivity).
  rewrite forallb_forall in H. specialize (H a Ha).
  rewrite forallb_forall in H. specialize (H b Hb).
  now apply String.eqb_eq.
Qed.

Lemma pad4_roundtrip a b c d :
  is_digit a = true -> is_digit b = true -> is_digit c = true -> is_digit d = true ->
  isoYear (digits_value 10 0 (str4 a b c d)) = str4 a b c d.
Proof.
  intros Ha Hb Hc Hd. apply is_digit_In in Ha, Hb, Hc, Hd.
  assert (H : forallb (fun a => forallb (fun b => forallb (fun c => forallb (fun d =>
            String.eqb (isoYear (digits_value 10 0 (str4 a b c d))) (str4 a b c d))
            digitChars) digitChars) digitChars) digitChars = true) by (vm_compute; reflexivity).
  rewrite forallb_forall in H. specialize (H a Ha).
  rewrite forallb_forall in H. specialize (H b Hb).
  rewrite forallb_forall in H. specialize (H c Hc).
  rewrite forallb_forall in H. specialize (H d Hd).
  now apply String.eqb_eq.
Qed.

Lemma parseIsoDateOnly_shape s t :
  parseIsoDateOnly s = Some t ->
  exists y1 y2 y3 y4 m1 m2 d1 d2,
    s = dateOnly y1 y2 y3 y4 m1 m2 d1 d2
    /\ all_digits (str4 y1 y2 y3 y4) = true
    /\ all_digits (str2 m1 m2) = true /\ all_digits (str2 d1 d2) = true
    /\ (1 <= digits_value 10 0 (str2 m1 m2) <= 12)%Z
    /\ (1 <= digits_value 10 0 (str2 d1 d2)
        <= daysInMonth (digits_value 10 0 (str4 y1 y2 y3 y4))
             (digits_value 10 0 (str2 m1 m2) - 1))%Z
    /\ t = (MakeDay (digits_value 10 0 (str4 y1 y2 y3 y4))
              (digits_value 10 0 (str2 m1 m2) - 1)
              (digits_value 10 0 (str2 d1 d2)) * msPerDay)%Z.
Proof.
  unfold parseIsoDateOnly.
  destruct s as [|y1 [|y2 [|y3 [|y4 [|s1 [|m1 [|m2 [|s2 [|d1 [|d2 [|x s]]]]]]]]]]];
    try discriminate.
  cbn [String.length Nat.eqb substring andb].
  fold (str2 m1 m2) (str2 d1 d2) (str2 y3 y4). fold (str4 y1 y2 y3 y4).
  intros H.
  destruct (all_digits (str4 y1 y2 y3 y4)) eqn:Dy; [|discriminate].
  destruct (all_digits (str2 m1 m2)) eqn:Dm; [|discriminate].
  destruct (all_digits (str2 d1 d2)) eqn:Dd; [|discriminate].
  destruct (String.eqb (String s1 "") "-") eqn:S1; [|discriminate].
  destruct (String.eqb (String s2 "") "-") eqn:S2; [|discriminate].
  apply String.eqb_eq in S1, S2.
  assert (s1 = "-"%char) as -> by congruence. assert (s2 = "-"%char) as -> by congruence.
  clear S1 S2. cbn [andb] in H.
  match type of H with (if ?c then _ else _) = _ => destruct c eqn:V; [|discriminate] end.
  injection H as <-.
  rewrite !andb_true_iff, !Z.leb_le in V.
  exists y1, y2, y3, y4, m1, m2, d1, d2.
  repeat split; try assumption; tauto.
Qed.

Lemma all_digits_str2 a b :
  all_digits (str2 a b) = true -> is_digit a = true /\ is_digit b = true.
Proof. unfold str2. cbn [all_digits]. rewrite !andb_true_iff. tauto. Qed.

Lemma all_digits_str4 a b c d :
  all_digits (str4 a b c d) = true ->
  is_digit a = true /\ is_digit b = true /\ is_digit c = true /\ is_digit d = true.
Proof. unfold str4, str2. cbn [all_digits]. rewrite !andb_true_iff. tauto. Qed.

Lemma parseIsoDateOnly_roundtrip s t : parseIsoDateOnly s = Some t -> isoDate t = s.
Proof.
  intros H.
  apply parseIsoDateOnly_shape in H
    as (y1 & y2 & y3 & y4 & m1 & m2 & d1 & d2 & -> & Dy & Dm & Dd & Hm & Hd & ->).
  assert (Hm' : (0 <= digits_value 10 0 (str2 m1 m2) - 1 <= 11)%Z) by lia.
  destruct (civil_roundtrip _ _ _ Hm' Hd) as (Hy & Hmo & Hda).
  unfold isoDate. rewrite Hy, Hmo, Hda.
  replace (digits_value 10 0 (str2 m1 m2) - 1 + 1)%Z with (digits_value 10 0 (str2 m1 m2)) by lia.
  apply all_digits_str4 in Dy as (Y1 & Y2 & Y3 & Y4).
  apply all_digits_str2 in Dm as (M1 & M2). apply all_digits_str2 in Dd as (D1 & D2).
  rewrite (pad4_roundtrip _ _ _ _ Y1 Y2 Y3 Y4).
  rewrite (pad2_roundtrip _ _ M1 M2), (pad2_roundtrip _ _ D1 D2).
  reflexivity.
Qed.

Lemma parseIsoDateOnly_matches s t :
  parseIsoDateOnly s = Some t -> matches false datePattern s = true.
Proof.
  intros H.
  apply parseIsoDateOnly_shape in H
    as (y1 & y2 & y3 & y4 & m1 & m2 & d1 & d2 & -> & Dy & Dm & Dd & _).
  apply all_digits_str4 in Dy as (Y1 & Y2 & Y3 & Y4).
  apply all_digits_str2 in Dm as (M1 & M2). apply all_digits_str2 in Dd as (D1 & D2).
  change (dateOnly y1 y2 y3 y4 m1 m2 d1 d2)
    with (String y1 (String y2 (String y3 (String y4 (String "-"
            (String m1 (String m2 (String "-" (String d1 (String d2 "")))))))))).
  unfold matches, match_, datePattern.
  cbn [exec_from RSeqs RRep rmatch]. rewrite Y1, Y2, Y3, Y4, M1, M2, D1, D2.

  cbn. reflexivity.
Qed.

End Calendar.

(** ** Groups and parameters *)

Lemma group_Some (m : Captures) i g : m !! i = Some g -> group m i = ret g.
Proof. intros H. unfold group. now rewrite H. Qed.


(** ** The words and names that select the superlative path *)

Lemma isNumericName_iff a : isNumericName a = true <-> numericName a.
Proof. unfold isNumericName, numericName. apply orb_true_iff. Qed.

Lemma isHighestQuery_iff lq : isHighestQuery lq = true <-> mentions lq highestWords.
Proof.
  unfold isHighestQuery, mentions, highestWords. rewrite !orb_true_iff. split.
  - intros [[H|H]|H]; eexists; (split; [|exact H]); simpl; auto.
  - intros (w & Hw & H). simpl in Hw. destruct Hw as [<-|[<-|[<-|[]]]]; auto.
Qed.

Lemma isLowestQuery_iff lq : isLowestQuery lq = true <-> mentions lq lowestWords.
Proof.
  unfold isLowestQuery, mentions, lowestWords. rewrite !orb_true_iff. split.
  - intros [[H|H]|H]; eexists; (split; [|exact H]); simpl; auto.
  - intros (w & Hw & H). simpl in Hw. destruct Hw as [<-|[<-|[<-|[]]]]; auto.
Qed.

Lemma numeric_truthy f : isNumericName f = true -> truthy f = true.
Proof. destruct f; [discriminate|reflexivity]. Qed.

Lemma superlativeField_Some lq attrs f :
  superlativeField lq attrs = Some f <->
  (mentions lq highestWords \/ mentions lq lowestWords) /\ firstNumeric attrs f.
Proof.
  unfold superlativeField, firstNumeric.
  rewrite <- isHighestQuery_iff, <- isLowestQuery_iff, <- orb_true_iff.
  destruct (isHighestQuery lq || isLowestQuery lq).
  - split.
    + intros H. split; [reflexivity|].
      destruct (head _) as [g|] eqn:E; [|discriminate]. simpl in H.
      destruct (truthy g); [|discriminate]. injection H as ->.
      apply head_filter_Some in E as (pre & post & -> & Hf & Hpre).
      exists pre, post. repeat split; [now apply isNumericName_iff|].
      intros b Hb Hn. apply isNumericName_iff in Hn. rewrite (Hpre b Hb) in Hn. discriminate.
    + intros (_ & pre & post & -> & Hf & Hpre).
      apply isNumericName_iff in Hf.
      assert (E : head (List.filter isNumericName (pre ++ f :: post)) = Some f).
      { apply head_filter_Some. exists pre, post. repeat split; [exact Hf|].
        intros b Hb. destruct (isNumericName b) eqn:Eb; [|reflexivity].
        exfalso. apply (Hpre b Hb). now apply isNumericName_iff. }
      rewrite E. simpl. now rewrite (numeric_truthy _ Hf).
  - split; [discriminate|]. intros [H _]. discriminate.
Qed.

Lemma superlativeField_None lq attrs :
  superlativeField lq attrs = None <->
  ~ ((mentions lq highestWords \/ mentions lq lowestWords)
     /\ exists a, In a attrs /\ numericName a).
Proof.
  split.
  - intros H (Hm & a & Ha & Hn).
    destruct (head (List.filter isNumericName attrs)) as [f|] eqn:E.
    + apply head_filter_Some in E as (pre & post & Hl & Hf & Hpre).
      assert (Hs : superlativeField lq attrs = Some f).
      { apply superlativeField_Some. split; [exact Hm|]. exists pre, post.
        repeat split; [exact Hl|now apply isNumericName_iff|].
        intros b Hb Hnb. apply isNumericName_iff in Hnb. rewrite (Hpre b Hb) in Hnb. discriminate. }
      congruence.
    + rewrite head_filter_None in E. apply isNumericName_iff in Hn.
      rewrite (E a Ha) in Hn. discriminate.
  - intros H. destruct (superlativeField lq attrs) as [f|] eqn:E; [|reflexivity].
    exfalso. apply H. apply superlativeField_Some in E as (Hm & pre & post & -> & Hf & _).
    split; [exact Hm|]. exists f. split; [|exact Hf]. apply in_or_app. right. now left.
Qed.

(* ===================================================================== *)
(** * Facts about the interpreter *)
(* ===================================================================== *)

Section Properties.

Variable dateFallback : string -> option Z.
Variable store : Store.

(** ** The cascade returns *)

(** The groups that the strategies read take part in every match, so the
    cascade returns: reading a group never throws. *)
Lemma naturalStrategy_returns q attrs fs :
  exists r, naturalStrategy dateFallback q attrs fs = ret r.
Proof.
  unfold naturalStrategy. destruct (resolved _) as [attr|]; [|eauto].
  destruct (match_ true naturalOpPattern q) as [m|] eqn:E; [|eauto].
  destruct (natural_groups _ _ E) as (g1 & g2 & H1 & H2).
  rewrite (group_Some _ _ _ H1), (group_Some _ _ _ H2). eauto.
Qed.

Lemma explicitStrategy_returns q attrs fs :
  exists r, explicitStrategy dateFallback q attrs fs = ret r.
Proof.
  unfold explicitStrategy.
  destruct (match_ true explicitPattern q) as [m|] eqn:E; [|eauto].
  destruct (explicit_groups _ _ E) as (g1 & g2 & g3 & H1 & H2 & H3).
  rewrite (group_Some _ _ _ H1). unfold bind at 1, ret at 1.
  destruct (resolved _) as [attr|]; [|eauto].
  rewrite (group_Some _ _ _ H2), (group_Some _ _ _ H3). eauto.
Qed.

Lemma simpleStrategy_returns q attrs fs :
  exists r, simpleStrategy dateFallback q attrs fs = ret r.
Proof.
  unfold simpleStrategy.
  destruct (match_ true simplePattern q) as [m|] eqn:E; [|eauto].
  destruct (simple_groups _ _ E) as (g1 & g2 & H1 & H2).
  rewrite (group_Some _ _ _ H1). unfold bind at 1, ret at 1.
  destruct (resolved _) as [attr|]; [|eauto].
  rewrite (group_Some _ _ _ H2). eauto.
Qed.

Lemma cascade_returns q attrs : exists fs, cascade dateFallback q attrs = ret fs.
Proof.
  unfold cascade.
  destruct (naturalStrategy_returns q attrs initialFilter) as ([b1 fs1] & ->).
  unfold bind at 1, ret at 1. cbn [fst snd].
  assert (H2 : exists r2, (if b1 then ret (b1, fs1)
                           else explicitStrategy dateFallback q attrs fs1) = ret r2).
  { destruct b1; [eauto|apply explicitStrategy_returns]. }
  destruct H2 as ([b2 fs2] & ->). unfold bind at 1, ret at 1. cbn [fst snd].
  assert (H3 : exists r3, (if b2 then ret (b2, fs2)
                           else simpleStrategy dateFallback q attrs fs2) = ret r3).
  { destruct b2; [eauto|apply simpleStrategy_returns]. }
  destruct H3 as ([b3 fs3] & ->). eauto.
Qed.

(** ** The two paths, run *)

Lemma superlativePath_run t lim hi f tr :
  superlativePath store t lim hi f tr =
  (match scan store (fullScan t) with
   | Returned res =>
       let sorted := sort (compareItems hi f) (default [] res) in
       Returned {| success := true;
                   items := slice0 (limitOrOne lim) sorted;
                   message := "SmartQuery executed: returning "
                              +:+ (if hi then "highest" else "lowest") +:+ " "
                              +:+ f +:+ " item(s) by scanning the table.";
                   count := length (slice0 (limitOrOne lim) sorted);
                   errorType := None |}
   | Thrown e => Thrown e
   end, (tr ++ [CallScan (fullScan t)])%list).
Proof.
  unfold superlativePath, bind, sendScan. now destruct (scan store _).
Qed.

Lemma filterPath_run t q lim attrs :
  exists fs, cascade dateFallback q attrs = ret fs /\
  forall tr,
  filterPath dateFallback store t q lim attrs tr =
  match resolved (filterExpressionOf fs) with
  | None => (Returned invalidFilter, tr)
  | Some fe =>
      (match scan store (filterScan t fe fs lim) with
       | Returned res =>
           Returned {| success := true;
                       items := default [] res;
                       message := "SmartQuery executed successfully on table " +:+ t
                                  +:+ ". Filter: " +:+ fe;
                       count := length (default [] res);
                       errorType := None |}
       | Thrown e => Thrown e
       end, (tr ++ [CallScan (filterScan t fe fs lim)])%list)
  end.
Proof.
  destruct (cascade_returns q attrs) as (fs & Hc). exists fs. split; [exact Hc|].
  intros tr. unfold filterPath. rewrite Hc. unfold bind at 1, ret at 1.
  destruct (resolved _) as [fe|]; [|reflexivity].
  unfold bind, sendScan. now destruct (scan store _).
Qed.

Lemma guardedBody_superlative t q lim attrs f tr :
  superlativeField (toLowerCase q) attrs = Some f ->
  guardedBody dateFallback store t q lim attrs tr
  = (match scan store (fullScan t) with
     | Returned res =>
         let sorted := sort (compareItems (isHighestQuery (toLowerCase q)) f) (default [] res) in
         Returned {| success := true;
                     items := slice0 (limitOrOne lim) sorted;
                     message := "SmartQuery executed: returning "
                       +:+ (if isHighestQuery (toLowerCase q) then "highest" else "lowest")
                       +:+ " " +:+ f +:+ " item(s) by scanning the table.";
                     count := length (slice0 (limitOrOne lim) sorted);
                     errorType := None |}
     | Thrown e => Returned (internalError e)
     end, (tr ++ [CallScan (fullScan t)])%list).
Proof.
  intros Hs. unfold guardedBody, tryCatch. cbv zeta. rewrite Hs, superlativePath_run.
  now destruct (scan store _).
Qed.

Lemma guardedBody_fallthrough t q lim attrs tr :
  superlativeField (toLowerCase q) attrs = None ->
  guardedBody dateFallback store t q lim attrs tr
  = tryCatch (filterPath dateFallback store t q lim attrs)
      (fun err => ret (internalError err)) tr.
Proof. intros Hs. unfold guardedBody. cbv zeta. now rewrite Hs. Qed.

(** The run of the guarded body when the cascade builds a filter *)
Lemma guardedBody_filtered t q lim attrs fs fe tr :
  superlativeField (toLowerCase q) attrs = None ->
  cascade dateFallback q attrs = ret fs ->
  resolved (filterExpressionOf fs) = Some fe ->
  guardedBody dateFallback store t q lim attrs tr
  = (match scan store (filterScan t fe fs lim) with
     | Returned res =>
         Returned {| success := true;
                     items := default [] res;
                     message := "SmartQuery executed successfully on table " +:+ t
                                +:+ ". Filter: " +:+ fe;
                     count := length (default [] res);
                     errorType := None |}
     | Thrown e => Returned (internalError e)
     end, (tr ++ [CallScan (filterScan t fe fs lim)])%list).
Proof.
  intros Hsup Hc Hfe. unfold guardedBody, tryCatch. cbv zeta. rewrite Hsup.
  unfold filterPath. rewrite Hc. unfold bind at 1, ret at 1. rewrite Hfe.
  unfold bind, sendScan. now destruct (scan store _).
Qed.

(** Every run of the guarded body: a failure without a scan, or one scan
    and then a result of the right shape if the scan returns and an
    [InternalError] result if it throws. *)
Lemma guardedBody_run t q lim attrs tr :
  (exists msg ty,
     guardedBody dateFallback store t q lim attrs tr = (Returned (failure msg ty), tr))
  \/ (exists input,
        snd (guardedBody dateFallback store t q lim attrs tr) = (tr ++ [CallScan input])%list
        /\ match scan store input with
           | Returned res =>
               exists r, fst (guardedBody dateFallback store t q lim attrs tr) = Returned r
                         /\ ResultShape r
           | Thrown e =>
               fst (guardedBody dateFallback store t q lim attrs tr)
               = Returned (internalError e)
           end).
Proof.
  destruct (superlativeField (toLowerCase q) attrs) as [f|] eqn:E.
  - right. exists (fullScan t). rewrite (guardedBody_superlative _ _ _ _ _ _ E).
    split; [reflexivity|].
    destruct (scan store _); [|reflexivity].
    eexists. split; [reflexivity|apply shape_success].
  - rewrite (guardedBody_fallthrough _ _ _ _ _ E). unfold tryCatch.
    destruct (filterPath_run t q lim attrs) as (fs & _ & Hf). rewrite Hf.
    destruct (resolved _) as [fe|]; [|left; eexists _, _; reflexivity].
    right. exists (filterScan t fe fs lim). split; [now destruct (scan store _)|].
    destruct (scan store _); [|reflexivity].
    eexists. split; [reflexivity|apply shape_success].
Qed.

(** The filter path never scans the whole table. *)
Lemma filterPath_trace t q lim attrs tr :
  snd (tryCatch (filterPath dateFallback store t q lim attrs)
         (fun err => ret (internalError err)) tr)
  <> (tr ++ [CallScan (fullScan t)])%list.
Proof.
  unfold tryCatch.
  destruct (filterPath_run t q lim attrs) as (fs & _ & Hf). rewrite Hf.
  assert (Hne : forall c, tr <> (tr ++ [c])%list).
  { intros c H. apply (f_equal length) in H. rewrite length_app in H. simpl in H. lia. }
  destruct (resolved _) as [fe|]; [|apply Hne].
  destruct (scan store _); simpl; intros H; apply app_inv_head in H; discriminate.
Qed.

(** ** smartQuery, case by case *)

Lemma smartQuery_invalid params :
  resolved (tableName params) = None \/ resolved (queryText params) = None ->
  run (smartQuery dateFallback store params)
  = (Returned (failure "tableName and queryText are required" "InvalidArgument"), []).
Proof.
  intros [H|H]; unfold run, smartQuery; rewrite H; [reflexivity|].
  now destruct (resolved (tableName params)).
Qed.

Lemma smartQuery_no_schema params t q :
  resolved (tableName params) = Some t ->
  resolved (queryText params) = Some q ->
  (forall tbl, describeTable store t = Returned (Some tbl) -> AttributeDefinitions tbl = None) ->
  run (smartQuery dateFallback store params)
  = (Returned (failure ("Could not retrieve schema for table " +:+ t +:+ ".") "SchemaError"),
     [CallDescribe t]).
Proof.
  intros Ht Hq Hd. unfold run, smartQuery. rewrite Ht, Hq.
  unfold bind, getTableSchema, tryCatch at 1, sendDescribe.
  destruct (describeTable store t) as [[tbl|]|e]; simpl; try reflexivity.
  now rewrite (Hd tbl eq_refl).
Qed.

Lemma smartQuery_valid params t q tbl defs :
  resolved (tableName params) = Some t ->
  resolved (queryText params) = Some q ->
  describeTable store t = Returned (Some tbl) ->
  AttributeDefinitions tbl = Some defs ->
  run (smartQuery dateFallback store params)
  = guardedBody dateFallback store t q (limit params) (attributeNamesOf defs) [CallDescribe t].
Proof.
  intros Ht Hq Hd Ha. unfold run, smartQuery. rewrite Ht, Hq.
  unfold bind, getTableSchema, tryCatch at 1, sendDescribe. rewrite Hd. simpl.
  now rewrite Ha.
Qed.

Lemma smartQuery_run params :
  run (smartQuery dateFallback store params)
    = (Returned (failure "tableName and queryText are required" "InvalidArgument"), [])
  \/ (exists t,
        run (smartQuery dateFallback store params)
        = (Returned (failure ("Could not retrieve schema for table " +:+ t +:+ ".") "SchemaError"),
           [CallDescribe t]))
  \/ (exists t q attrs,
        run (smartQuery dateFallback store params)
        = guardedBody dateFallback store t q (limit params) attrs [CallDescribe t]).
Proof.
  destruct (resolved (tableName params)) as [t|] eqn:Ht;
    [|left; apply smartQuery_invalid; now left].
  destruct (resolved (queryText params)) as [q|] eqn:Hq;
    [|left; apply smartQuery_invalid; now right].
  right.
  destruct (describeTable store t) as [[tbl|]|e] eqn:Hd.
  - destruct (AttributeDefinitions tbl) as [defs|] eqn:Ha.
    + right. exists t, q, (attributeNamesOf defs). now apply (smartQuery_valid _ _ _ tbl).
    + left. exists t. apply (smartQuery_no_schema _ t q); try assumption; congruence.
  - left. exists t. apply (smartQuery_no_schema _ t q); try assumption; congruence.
  - left. exists t. apply (smartQuery_no_schema _ t q); try assumption; congruence.
Qed.

Lemma smartQuery_shape params :
  exists r tr, run (smartQuery dateFallback store params) = (Returned r, tr) /\ ResultShape r.
Proof.
  destruct (smartQuery_run params) as [H|[(t & H)|(t & q & attrs & H)]]; rewrite H.
  1,2: eexists _, _; split; [reflexivity|apply shape_failure].
  destruct (guardedBody_run t q (limit params) attrs [CallDescribe t])
    as [(msg & ty & Hg)|(input & Htr & Hg)].
  - rewrite Hg. eexists _, _; split; [reflexivity|apply shape_failure].
  - destruct (guardedBody _ _ _ _ _ _ _) as [o tr]. simpl in *.
    destruct (scan store input).
    + destruct Hg as (r & -> & Hr). eauto.
    + rewrite Hg. eexists _, _; split; [reflexivity|apply shape_failure].
Qed.

(** ** The cascade on the queries of the specification *)

Lemma cascade_unresolved q attrs :
  resolved (findBestAttributeMatch q attrs) = None ->
  unresolvedToken explicitPattern q attrs ->
  unresolvedToken simplePattern q attrs ->
  cascade dateFallback q attrs = ret initialFilter.
Proof.
  intros Ha Hb Hc. unfold cascade, naturalStrategy. rewrite Ha.
  assert (He : explicitStrategy dateFallback q attrs initialFilter = ret (false, initialFilter)).
  { unfold explicitStrategy. destruct (match_ true explicitPattern q) as [m|] eqn:E; [|reflexivity].
    destruct (explicit_groups _ _ E) as (g1 & g2 & g3 & H1 & H2 & H3).
    rewrite (group_Some _ _ _ H1). unfold bind at 1, ret at 1.
    now rewrite (Hb m g1 E H1). }
  assert (Hs : simpleStrategy dateFallback q attrs initialFilter = ret (false, initialFilter)).
  { unfold simpleStrategy. destruct (match_ true simplePattern q) as [m|] eqn:E; [|reflexivity].
    destruct (simple_groups _ _ E) as (g1 & g2 & H1 & H2).
    rewrite (group_Some _ _ _ H1). unfold bind at 1, ret at 1.
    now rewrite (Hc m g1 E H1). }
  unfold bind at 1, ret at 1. simpl. rewrite He.
  unfold bind at 1, ret at 1. simpl. rewrite Hs.
  reflexivity.
Qed.

Lemma cascade_amount_gt :
  cascade dateFallback "Amount > 1000" tradeAttributes
  = ret {| valueIndex := 1; filterParts := ["#attr0 > :val0"];
           expressionAttributeNames := {[ "#attr0" := "Amount" ]};
           expressionAttributeValues := {[ ":val0" := JNum (Fin 1000) ]} |}.
Proof. vm_compute. reflexivity. Qed.

Lemma cascade_after_unresolved :
  cascade dateFallback "trades after 2025-02-25" tradeAttributes = ret initialFilter.
Proof. vm_compute. reflexivity. Qed.

Lemma cascade_when_after :
  cascade dateFallback "trades when after 2025-02-25" tradeAttributes
  = ret {| valueIndex := 1; filterParts := ["#attr0 > :val0"];
           expressionAttributeNames := {[ "#attr0" := "TradeDate" ]};
           expressionAttributeValues := {[ ":val0" := JStr "2025-02-25" ]} |}.
Proof. vm_compute. reflexivity. Qed.

Lemma directMatch_first lq pre a post :
  includes lq (toLowerCase a) = true ->
  (forall b, In b pre -> includes lq (toLowerCase b) = false) ->
  directMatch lq (pre ++ a :: post) = Some a.
Proof.
  intros Ha Hpre. unfold directMatch.
  induction pre as [|b pre IH]; simpl.
  - now rewrite Ha.
  - rewrite (Hpre b) by now left. apply IH. intros c Hc. apply Hpre. now right.
Qed.

(* ===================================================================== *)
(** * The properties of the specification *)
(* ===================================================================== *)

(** C1.  For the schema TradeId, Amount, SourceCountry, TradeDate and the
    query text "Amount > 1000", smartQuery calls the scan collaborator once,
    after the schema fetch, with the filter expression "#attr0 > :val0", the
    name map that sends #attr0 to Amount and the value map that sends :val0
    to the number 1000, and nothing else but the table name and the caller's
    limit; when that scan returns, the result has success true and carries
    the items of the scan. *)
Theorem smartQuery_explicit_operator params t tbl defs :
  resolved (tableName params) = Some t ->
  queryText params = Some "Amount > 1000" ->
  describeTable store t = Returned (Some tbl) ->
  AttributeDefinitions tbl = Some defs ->
  attributeNamesOf defs = tradeAttributes ->
  let input :=
    {| TableName := t;
       FilterExpression := Some "#attr0 > :val0";
       ExpressionAttributeNames := Some {[ "#attr0" := "Amount" ]};
       ExpressionAttributeValues := Some {[ ":val0" := JNum (Fin 1000) ]};
       Limit := limit params |} in
  snd (run (smartQuery dateFallback store params)) = [CallDescribe t; CallScan input]
  /\ forall res, scan store input = Returned res ->
       exists r, fst (run (smartQuery dateFallback store params)) = Returned r
                 /\ success r = true /\ items r = default [] res.
Proof.
  intros Ht Hq Hd Hdefs Hattrs input.
  assert (Hq' : resolved (queryText params) = Some "Amount > 1000") by now rewrite Hq.
  rewrite (smartQuery_valid _ _ _ _ _ Ht Hq' Hd Hdefs), Hattrs.
  rewrite (guardedBody_filtered t "Amount > 1000" (limit params) tradeAttributes _
             "#attr0 > :val0" _ eq_refl cascade_amount_gt eq_refl).
  change (filterScan _ _ _ _) with input. clearbody input.
  split; [reflexivity|].
  intros res ->. eexists; repeat split.
Qed.

(** C2.  Once the arguments are validated and the schema is fetched,
    smartQuery takes the superlative path (a scan of the whole table, no
    filter) if and only if the lowercased query contains one of highest,
    maximum, max, lowest, minimum, min and some attribute name contains
    amount or value.  On that path the sort key is the first such attribute
    in schema order; when the scan returns, the result holds the first
    [limit] (1 by default) items of a permutation of the scanned items that
    is sorted by the numeric value of the key, descending when a word of the
    first group is present and ascending otherwise, and its count is the
    number of items returned: the first item when no limit is given, the
    first [n] items for a limit [n > 0]; a limit of 0 counts as none given.
    A missing, null or non-numeric field counts as 0, a numeric one as its
    number.  When no attribute name contains amount or value, the same query
    runs the filter path instead. *)
Theorem superlative_path params t q tbl defs :
  resolved (tableName params) = Some t ->
  resolved (queryText params) = Some q ->
  describeTable store t = Returned (Some tbl) ->
  AttributeDefinitions tbl = Some defs ->
  let attrs := attributeNamesOf defs in
  let lq := toLowerCase q in
  let superlative :=
    (mentions lq highestWords \/ mentions lq lowestWords)
    /\ exists a, In a attrs /\ numericName a in
  let r := run (smartQuery dateFallback store params) in
  (superlative <-> snd r = [CallDescribe t; CallScan (fullScan t)])
  /\ (superlative ->
      exists key, firstNumeric attrs key /\
        forall res, scan store (fullScan t) = Returned res ->
        exists sorted qr,
          Permutation sorted (default [] res)
          /\ (mentions lq highestWords -> StronglySorted (keyOrder true key) sorted)
          /\ (~ mentions lq highestWords -> StronglySorted (keyOrder false key) sorted)
          /\ fst r = Returned qr /\ success qr = true
          /\ (limit params = None -> items qr = firstn 1 sorted)
          /\ (forall n, limit params = Some n -> (0 < n)%Z ->
              items qr = firstn (Z.to_nat n) sorted)
          /\ (limit params = Some 0%Z -> items qr = firstn 1 sorted)
          /\ count qr = length (items qr))
  /\ (forall key (item : Item),
        (item !! key = None \/ item !! key = Some JNull
         \/ (exists v, item !! key = Some v /\ toNumber v = NaN) ->
         sortKey key item = Fin 0)
        /\ (forall v, item !! key = Some v -> toNumber v <> NaN ->
            sameNum (sortKey key item) (toNumber v)))
  /\ ((forall a, In a attrs -> ~ numericName a) ->
      r = tryCatch (filterPath dateFallback store t q (limit params) attrs)
            (fun err => ret (internalError err)) [CallDescribe t]).
Proof.
  intros Ht Hq Hd Hdefs attrs lq superlative r.
  subst r. rewrite (smartQuery_valid _ _ _ _ _ Ht Hq Hd Hdefs). fold attrs.
  assert (Hsup : superlative -> exists key, firstNumeric attrs key
                                 /\ superlativeField lq attrs = Some key).
  { intros Hs. destruct (superlativeField lq attrs) as [f|] eqn:E.
    - exists f. split; [|reflexivity]. now apply superlativeField_Some in E.
    - apply superlativeField_None in E. contradiction. }
  split; [|split; [|split]].
  - split.
    + intros Hs. destruct (Hsup Hs) as (key & _ & E).
      now rewrite (guardedBody_superlative _ _ _ _ _ _ E).
    + intros Htr. destruct (superlativeField lq attrs) as [f|] eqn:E.
      * apply superlativeField_Some in E as (Hm & pre & post & Hl & Hf & _).
        split; [exact Hm|]. exists f. split; [|exact Hf].
        rewrite Hl. apply in_or_app. right. now left.
      * rewrite (guardedBody_fallthrough _ _ _ _ _ E) in Htr.
        now apply filterPath_trace in Htr.
  - intros Hs. destruct (Hsup Hs) as (key & Hkey & E). exists key. split; [exact Hkey|].
    intros res Hres. rewrite (guardedBody_superlative _ _ _ _ _ _ E), Hres. cbv zeta.
    exists (sort (compareItems (isHighestQuery lq) key) (default [] res)). eexists.
    split; [apply sort_perm|].
    split; [|split; [|split; [reflexivity|split; [reflexivity|]]]].
    + intros Hh. apply isHighestQuery_iff in Hh. rewrite Hh.
      apply sort_compareItems_sorted.
    + intros Hh. destruct (isHighestQuery lq) eqn:Eh.
      * exfalso. apply Hh. now apply isHighestQuery_iff.
      * apply sort_compareItems_sorted.
    + simpl. repeat split.
      * intros ->. apply slice0_absent.
      * intros n -> Hn. now apply slice0_positive.
      * intros ->. apply slice0_zero.
  - intros key item. split; [apply sortKey_missing|apply sortKey_numeric].
  - intros Hno. apply guardedBody_fallthrough. apply superlativeField_None.
    intros (_ & a & Ha & Hn). exact (Hno a Ha Hn).
Qed.

(** C3, as amended.  For the query text "trades after 2025-02-25" against
    the schema TradeId, Amount, SourceCountry, TradeDate the resolver finds
    no attribute: no attribute name occurs in the text and no keyword class
    fires, "after" being no trigger of the temporal class; smartQuery then
    answers InvalidFilter without a scan.  For the query text
    "trades when after 2025-02-25" against the same schema, no attribute
    name occurs in the text and the temporal class is the one keyword class
    that fires; the resolver maps the text to TradeDate, and the one scan
    sent has the operator > and the value normalized to the string
    "2025-02-25". *)
Theorem natural_phrase_resolution t lim tbl defs :
  truthy t = true ->
  describeTable store t = Returned (Some tbl) ->
  AttributeDefinitions tbl = Some defs ->
  attributeNamesOf defs = tradeAttributes ->
  let answer q :=
    run (smartQuery dateFallback store
           {| tableName := Some t; queryText := Some q; limit := lim |}) in
  (findBestAttributeMatch "trades after 2025-02-25" tradeAttributes = None
   /\ List.map (fun entry => matches true (fst entry) (toLowerCase "trades after 2025-02-25"))
        keywordMap = [false; false; false; false; false]
   /\ exists r, answer "trades after 2025-02-25" = (Returned r, [CallDescribe t])
                /\ success r = false /\ errorType r = Some "InvalidFilter")
  /\ (directMatch (toLowerCase "trades when after 2025-02-25") tradeAttributes = None
      /\ List.map (fun entry => matches true (fst entry)
                                  (toLowerCase "trades when after 2025-02-25"))
           keywordMap = [false; false; false; true; false]
      /\ findBestAttributeMatch "trades when after 2025-02-25" tradeAttributes
         = Some "TradeDate"
      /\ snd (answer "trades when after 2025-02-25")
         = [CallDescribe t;
            CallScan {| TableName := t;
                        FilterExpression := Some "#attr0 > :val0";
                        ExpressionAttributeNames := Some {[ "#attr0" := "TradeDate" ]};
                        ExpressionAttributeValues := Some {[ ":val0" := JStr "2025-02-25" ]};
                        Limit := lim |}]).
Proof.
  intros Ht Hd Hdefs Hattrs answer.
  assert (Hres : resolved (Some t) = Some t) by (simpl; now rewrite Ht).
  split.
  - split; [vm_compute; reflexivity|]. split; [vm_compute; reflexivity|].
    subst answer. cbv beta.
    rewrite (smartQuery_valid
               {| tableName := Some t; queryText := Some "trades after 2025-02-25"; limit := lim |}
               t "trades after 2025-02-25" tbl defs Hres eq_refl Hd Hdefs), Hattrs.
    rewrite guardedBody_fallthrough by (vm_compute; reflexivity).
    unfold tryCatch, filterPath. rewrite cascade_after_unresolved.
    exists invalidFilter. repeat split.
  - split; [vm_compute; reflexivity|]. split; [vm_compute; reflexivity|].
    split; [vm_compute; reflexivity|].
    subst answer. cbv beta.
    rewrite (smartQuery_valid
               {| tableName := Some t; queryText := Some "trades when after 2025-02-25";
                  limit := lim |}
               t "trades when after 2025-02-25" tbl defs Hres eq_refl Hd Hdefs), Hattrs.
    now rewrite (guardedBody_filtered t "trades when after 2025-02-25" lim tradeAttributes _
               "#attr0 > :val0" _ eq_refl cascade_when_after eq_refl).
Qed.

(** C4.  For every accepted triple (its value, trimmed and stripped of
    quotes, is not empty) the typed literal is stored under the value
    placeholder.  When the target attribute name contains date or time,
    whatever the case, and the value matches the date pattern, the literal
    is the string with the UTC calendar date (year, month, day) of the
    parsed date, or the value itself when the date does not parse, and never
    a number.  A value that is the date-only form of a day of the calendar
    is its own canonical form; for TradeDate and "2025-02-25" the literal is
    the string "2025-02-25", although the text parses as the number 2025.
    Otherwise the literal is
    the number the value parses as when that number is finite, and the
    value as a string when it is not. *)
Theorem value_typing fs attr op raw :
  let value := cleanValue raw in
  truthy value = true ->
  let fs' := snd (processAndAddFilter dateFallback fs attr op raw) in
  fst (processAndAddFilter dateFallback fs attr op raw) = true
  /\ expressionAttributeValues fs' !! (":val" +:+ showNat (valueIndex fs))
     = Some (typeValue dateFallback attr value)
  /\ ((includes (toLowerCase attr) "date" = true \/ includes (toLowerCase attr) "time" = true) ->
      matches false datePattern value = true ->
      (forall t, Date_parse dateFallback value = Some t ->
         typeValue dateFallback attr value = JStr (isoDate t))
      /\ (Date_parse dateFallback value = None -> typeValue dateFallback attr value = JStr value)
      /\ (forall n, typeValue dateFallback attr value <> JNum n))
  /\ ((includes (toLowerCase attr) "date" = true \/ includes (toLowerCase attr) "time" = true) ->
      forall t, parseIsoDateOnly value = Some t ->
      typeValue dateFallback attr value = JStr value)
  /\ (~ ((includes (toLowerCase attr) "date" = true \/ includes (toLowerCase attr) "time" = true)
         /\ matches false datePattern value = true) ->
      (isFinite (parseFloat value) = true ->
         typeValue dateFallback attr value = JNum (parseFloat value))
      /\ (isFinite (parseFloat value) = false -> typeValue dateFallback attr value = JStr value))
  /\ (typeValue dateFallback "TradeDate" "2025-02-25" = JStr "2025-02-25"
      /\ parseFloat "2025-02-25" = Fin 2025).
Proof.
  intros value Hv fs'. subst fs'. unfold processAndAddFilter. fold value. rewrite Hv. simpl.
  split; [reflexivity|]. split; [apply lookup_insert_eq|].
  assert (Hdate : isDateField attr = true <->
    (includes (toLowerCase attr) "date" = true \/ includes (toLowerCase attr) "time" = true)).
  { unfold isDateField. apply orb_true_iff. }
  split; [|split; [|split]].
  - intros Ha Hm. apply Hdate in Ha. unfold typeValue. rewrite Ha, Hm. simpl.
    repeat split.
    + intros t ->. now rewrite splitHead_toISOString.
    + now intros ->.
    + intros n. now destruct (Date_parse dateFallback value).
  - intros Ha t Ht. apply Hdate in Ha. unfold typeValue, Date_parse.
    rewrite Ha, (parseIsoDateOnly_matches _ _ Ht), Ht. simpl.
    now rewrite splitHead_toISOString, (parseIsoDateOnly_roundtrip _ _ Ht).
  - intros Hn. unfold typeValue.
    destruct (isDateField attr && matches false datePattern value) eqn:E.
    { exfalso. apply Hn. apply andb_true_iff in E as [E1 E2]. split; [now apply Hdate|exact E2]. }
    split; intros Hf; rewrite Hf.
    + now destruct (parseFloat value).
    + now rewrite andb_false_r.
  - split; vm_compute; reflexivity.
Qed.

(** C5.  For every text and every sequence of attribute names: if an
    attribute name occurs in the text, both lowercased, and no earlier
    attribute of the sequence does, the resolver returns that attribute,
    whatever the keyword classes would choose. *)
Theorem direct_match_wins text pre a post :
  includes (toLowerCase text) (toLowerCase a) = true ->
  (forall b, In b pre -> includes (toLowerCase text) (toLowerCase b) = false) ->
  findBestAttributeMatch text (pre ++ a :: post) = Some a.
Proof.
  intros Ha Hpre. unfold findBestAttributeMatch.
  now rewrite (directMatch_first _ _ _ _ Ha Hpre).
Qed.

(** C6.  When the arguments are valid, the schema is fetched, the test of
    the superlative path fails and none of the three strategies resolves an
    attribute (the whole text for the first, the captured token for the
    second and the third), the result has success false and error type
    InvalidFilter, and the schema fetch is the only call to the store. *)
Theorem smartQuery_unresolvable params t q tbl defs :
  resolved (tableName params) = Some t ->
  resolved (queryText params) = Some q ->
  describeTable store t = Returned (Some tbl) ->
  AttributeDefinitions tbl = Some defs ->
  superlativeField (toLowerCase q) (attributeNamesOf defs) = None ->
  resolved (findBestAttributeMatch q (attributeNamesOf defs)) = None ->
  unresolvedToken explicitPattern q (attributeNamesOf defs) ->
  unresolvedToken simplePattern q (attributeNamesOf defs) ->
  exists r,
    run (smartQuery dateFallback store params) = (Returned r, [CallDescribe t])
    /\ success r = false /\ errorType r = Some "InvalidFilter".
Proof.
  intros Ht Hq Hd Hdefs Hsup Ha Hb Hc.
  rewrite (smartQuery_valid _ _ _ _ _ Ht Hq Hd Hdefs).
  unfold guardedBody, tryCatch. cbv zeta. rewrite Hsup.
  unfold filterPath. rewrite (cascade_unresolved _ _ Ha Hb Hc).
  exists invalidFilter. repeat split.
Qed.


(** On parameters of the declared types smartQuery always returns a
    result.  When the schema fetch fails (the call throws, or there is no
    table or no attribute definitions), the result has error type
    SchemaError and the schema fetch is the only call.  When a scan was
    called and threw, the result has success false and error type
    InternalError and its message is "SmartQuery failed: " followed by the
    text of the error, which it therefore includes. *)
Lemma smartQuery_declared_types_returns params :
  (exists r tr, run (smartQuery dateFallback store params) = (Returned r, tr))
  /\ (forall t q,
        resolved (tableName params) = Some t ->
        resolved (queryText params) = Some q ->
        schemaUnavailable store t ->
        exists r, run (smartQuery dateFallback store params) = (Returned r, [CallDescribe t])
                  /\ success r = false /\ errorType r = Some "SchemaError")
  /\ (forall r tr input e,
        run (smartQuery dateFallback store params) = (Returned r, tr) ->
        In (CallScan input) tr ->
        scan store input = Thrown e ->
        success r = false /\ errorType r = Some "InternalError"
        /\ message r = "SmartQuery failed: " +:+ errorText e
        /\ includes (message r) (errorText e) = true).
Proof.
  split; [|split].
  - destruct (smartQuery_shape params) as (r & tr & H & _). eauto.
  - intros t q Ht Hq Hs. eexists. split.
    + apply (smartQuery_no_schema _ t q); try assumption.
      intros tbl Hd. destruct Hs as [(e & He)|[Hn|(tbl' & Hd' & Ha)]]; congruence.
    + split; reflexivity.
  - intros r tr input e Hrun Hin He.
    destruct (smartQuery_run params) as [H|[(t & H)|(t & q & attrs & H)]];
      rewrite H in Hrun.
    + injection Hrun as <- <-. destruct Hin.
    + injection Hrun as <- <-. destruct Hin as [Hin|[]]. discriminate.
    + destruct (guardedBody_run t q (limit params) attrs [CallDescribe t])
        as [(msg & ty & Hg)|(input' & Htr & Hg)].
      * rewrite Hg in Hrun. injection Hrun as <- <-. destruct Hin as [Hin|[]]. discriminate.
      * rewrite Hrun in Htr, Hg. simpl in Htr, Hg. subst tr.
        destruct Hin as [Hin|[Hin|[]]]; [discriminate|].
        injection Hin as ->. rewrite He in Hg. injection Hg as ->.
        repeat split. apply includes_append.
Qed.

(** C10.  Every result of smartQuery has a count equal to the number of its
    items, and every failure has no items and count 0. *)
Theorem smartQuery_count_is_length params :
  exists r tr,
    run (smartQuery dateFallback store params) = (Returned r, tr)
    /\ count r = length (items r)
    /\ (success r = false -> items r = [] /\ count r = 0%nat).
Proof.
  destruct (smartQuery_shape params) as (r & tr & Hrun & Hshape).
  exists r, tr. split; [exact Hrun|].
  destruct Hshape; simpl; split; auto; discriminate.
Qed.

End Properties.

(* ===================================================================== *)
(** * The properties on the sample data *)
(* ===================================================================== *)

(** C9, at the failing input.  Without a limit, the filtered scan for
    "Amount > 1000" is sent with no limit at all, not with a limit of 100. *)
Theorem filtered_scan_limit_absent :
  snd (run (smartQuery noFallback sampleStore (ask "Amount > 1000" None)))
  = [CallDescribe "Trades";
     CallScan {| TableName := "Trades";
                 FilterExpression := Some "#attr0 > :val0";
                 ExpressionAttributeNames := Some {[ "#attr0" := "Amount" ]};
                 ExpressionAttributeValues := Some {[ ":val0" := JNum (Fin 1000) ]};
                 Limit := None |}].
Proof. vm_compute. reflexivity. Qed.

(** C3, as stated, fails: the resolver maps "trades after 2025-02-25" to no
    attribute, and smartQuery answers InvalidFilter. *)
Lemma after_resolves_no_attribute :
  findBestAttributeMatch "trades after 2025-02-25" tradeAttributes = None
  /\ run (smartQuery noFallback sampleStore (ask "trades after 2025-02-25" None))
     = (Returned invalidFilter, [CallDescribe "Trades"]).
Proof. split; vm_compute; reflexivity. Qed.

Lemma smartQuery_explicit_operator_witness :
  snd (run (smartQuery noFallback sampleStore (ask "Amount > 1000" None)))
  = [CallDescribe "Trades";
     CallScan {| TableName := "Trades";
                 FilterExpression := Some "#attr0 > :val0";
                 ExpressionAttributeNames := Some {[ "#attr0" := "Amount" ]};
                 ExpressionAttributeValues := Some {[ ":val0" := JNum (Fin 1000) ]};
                 Limit := None |}].
Proof.
  exact (proj1 (smartQuery_explicit_operator noFallback sampleStore (ask "Amount > 1000" None)
                  "Trades" tradeTable _ eq_refl eq_refl eq_refl eq_refl eq_refl)).
Defined.

Lemma superlative_path_witness :
  snd (run (smartQuery noFallback sampleStore (ask "highest amount" None)))
  = [CallDescribe "Trades"; CallScan (fullScan "Trades")]
  /\ exists qr,
       fst (run (smartQuery noFallback sampleStore (ask "highest amount" None))) = Returned qr
       /\ items qr = [trade "t4" (Some (JNum (Fin 1200)))] /\ count qr = 1%nat.
Proof.
  split.
  - apply (proj1 (superlative_path noFallback sampleStore (ask "highest amount" None)
                    "Trades" "highest amount" tradeTable _ eq_refl eq_refl eq_refl eq_refl)).
    split.
    + left. exists "highest". split; [left; reflexivity|vm_compute; reflexivity].
    + exists "Amount". split; [right; left; reflexivity|left; vm_compute; reflexivity].
  - eexists. split; [vm_compute; reflexivity|]. split; vm_compute; reflexivity.
Defined.

Lemma natural_phrase_resolution_witness :
  findBestAttributeMatch "trades when after 2025-02-25" tradeAttributes = Some "TradeDate".
Proof.
  exact (proj1 (proj2 (proj2 (proj2 (natural_phrase_resolution noFallback sampleStore
     "Trades" None tradeTable _ eq_refl eq_refl eq_refl eq_refl))))).
Defined.

Lemma value_typing_witness :
  expressionAttributeValues
    (snd (processAndAddFilter noFallback initialFilter "TradeDate" ">" " 2025-02-25 "))
    !! ":val0" = Some (JStr "2025-02-25").
Proof.
  exact (proj1 (proj2 (value_typing noFallback initialFilter "TradeDate" ">" " 2025-02-25 "
                         eq_refl))).
Defined.

Lemma direct_match_wins_witness :
  keywordMatch (toLowerCase "price from Amount") tradeAttributes = Some "SourceCountry"
  /\ findBestAttributeMatch "price from Amount" tradeAttributes = Some "Amount".
Proof.
  split; [vm_compute; reflexivity|].
  apply (direct_match_wins "price from Amount" ["TradeId"] "Amount" ["SourceCountry"; "TradeDate"]).
  - vm_compute; reflexivity.
  - intros b [<-|[]]. vm_compute; reflexivity.
Defined.

Lemma smartQuery_unresolvable_witness :
  exists r,
    run (smartQuery noFallback sampleStore (ask "xyz123 blah" None))
    = (Returned r, [CallDescribe "Trades"])
    /\ success r = false /\ errorType r = Some "InvalidFilter".
Proof.
  apply (smartQuery_unresolvable noFallback sampleStore (ask "xyz123 blah" None)
           "Trades" "xyz123 blah" tradeTable _ eq_refl eq_refl eq_refl eq_refl).
  - vm_compute; reflexivity.
  - vm_compute; reflexivity.
  - intros m g Hm. vm_compute in Hm. discriminate.
  - intros m g Hm Hg. vm_compute in Hm. injection Hm as <-.
    vm_compute in Hg. injection Hg as <-. vm_compute; reflexivity.
Defined.


Lemma smartQuery_count_is_length_witness :
  exists r tr,
    run (smartQuery noFallback sampleStore (ask "lowest amount" (Some 3%Z))) = (Returned r, tr)
    /\ count r = length (items r)
    /\ (success r = false -> items r = [] /\ count r = 0%nat).
Proof.
  exact (smartQuery_count_is_length noFallback sampleStore (ask "lowest amount" (Some 3%Z))).
Defined.

Lemma append_assoc a b c : (a +:+ b) +:+ c = a +:+ (b +:+ c).
Proof. induction a as [|x a IH]; [reflexivity|]. rewrite !append_cons. now rewrite IH. Qed.

Lemma last_char_app prev w1 w2 : last_char (last_char prev w1) w2 = last_char prev (w1 +:+ w2).
Proof.
  revert prev. induction w1 as [|a w1 IH]; intros prev; [reflexivity|].
  rewrite append_cons. simpl. apply IH.
Qed.

Lemma length_app_string a b : String.length (a +:+ b) = (String.length a + String.length b)%nat.
Proof. induction a as [|x a IH]; [reflexivity|]. rewrite append_cons. simpl. now rewrite IH. Qed.

Lemma substring_prefix w rest : substring 0 (String.length w) (w +:+ rest) = w.
Proof.
  induction w as [|a w IH]; simpl.
  - now destruct rest.
  - now rewrite IH.
Qed.

Lemma consumed_app w rest : consumed (w +:+ rest) rest = w.
Proof.
  unfold consumed. rewrite length_app_string.
  replace (String.length w + String.length rest - String.length rest)%nat
    with (String.length w) by lia.
  apply substring_prefix.
Qed.

Lemma star_class_sound p prev s caps k c :
  star_class p prev s caps k = Some c ->
  exists w rest, s = w +:+ rest /\ all_in p w = true /\ k (last_char prev w) rest caps = Some c.
Proof.
  revert prev. induction s as [|a s IH]; intros prev; simpl.
  - intros H. exists "", "". auto.
  - destruct (p a) eqn:Ea.
    + destruct (star_class p (Some a) s caps k) eqn:E.
      * intros [= <-]. apply IH in E as (w & rest & -> & Hw & Hk).
        exists (String a w), rest. rewrite append_cons. simpl. rewrite Ea. auto.
      * intros H. exists "", (String a s). auto.
    + intros H. exists "", (String a s). auto.
Qed.

Lemma rmatch_sound ic r : forall prev s caps k c,
  rmatch ic r prev s caps k = Some c ->
  exists w rest caps',
    s = w +:+ rest /\ derives ic r prev w rest caps caps'
    /\ k (last_char prev w) rest caps' = Some c.
Proof.
  induction r as [|ch|p|r1 IH1 r2 IH2|r1 IH1 r2 IH2|p|i r1 IH1|]; intros prev s caps k c; simpl.
  - intros H. exists "", s, caps. split; [reflexivity|]. split; [constructor|exact H].
  - destruct s as [|a s]; [discriminate|]. destruct (char_eq ic ch a) eqn:E; [|discriminate].
    intros H. exists (String a ""), s, caps. split; [reflexivity|].
    split; [now constructor|exact H].
  - destruct s as [|a s]; [discriminate|]. destruct (p a) eqn:E; [|discriminate].
    intros H. exists (String a ""), s, caps. split; [reflexivity|].
    split; [now constructor|exact H].
  - intros H. apply IH1 in H as (w1 & rest1 & caps1 & -> & Hd1 & H).
    apply IH2 in H as (w2 & rest2 & caps2 & -> & Hd2 & H).
    exists (w1 +:+ w2), rest2, caps2. split; [now rewrite append_assoc|].
    split; [econstructor; eassumption|]. now rewrite <- last_char_app.
  - destruct (rmatch ic r1 prev s caps k) eqn:E.
    + intros [= <-]. apply IH1 in E as (w & rest & caps' & -> & Hd & H).
      exists w, rest, caps'. split; [reflexivity|]. split; [now apply derives_alt_l|exact H].
    + intros H. apply IH2 in H as (w & rest & caps' & -> & Hd & H).
      exists w, rest, caps'. split; [reflexivity|]. split; [now apply derives_alt_r|exact H].
  - intros H. apply star_class_sound in H as (w & rest & -> & Hw & H).
    exists w, rest, caps. split; [reflexivity|]. split; [now constructor|exact H].
  - intros H. apply IH1 in H as (w & rest & caps' & -> & Hd & H).
    rewrite consumed_app in H.
    exists w, rest, (<[i := w]> caps'). split; [reflexivity|].
    split; [now constructor|exact H].
  - destruct (at_word_boundary prev s) eqn:E; [|discriminate].
    intros H. exists "", s, caps. split; [reflexivity|]. split; [now constructor|exact H].
Qed.

(** A successful [match] reads some word of the text under the expression;
    group 0 is that word. *)
Lemma exec_from_sound ic r m : forall s prev,
  exec_from ic r prev s = Some m ->
  exists pre w rest caps,
    s = pre +:+ w +:+ rest
    /\ derives ic r (last_char prev pre) w rest ∅ caps /\ m = <[0%nat := w]> caps.
Proof.
  assert (Hhere : forall s prev c,
    rmatch ic (RGroup 0 r) prev s ∅ (fun _ _ caps => Some caps) = Some c ->
    exists w rest caps, s = w +:+ rest /\ derives ic r prev w rest ∅ caps
                        /\ c = <[0%nat := w]> caps).
  { intros s prev c E. apply rmatch_sound in E as (w & rest & caps & Hs & Hd & [= <-]).
    inversion Hd; subst. eauto 6. }
  induction s as [|a s IH]; intros prev; simpl.
  - destruct (rmatch ic r prev "" ∅ _) eqn:E; [|discriminate].
    intros [= <-]. apply (Hhere "" prev) in E as (w & rest & caps & Hs & Hd & ->).
    exists "", w, rest, caps. auto.
  - destruct (rmatch ic r prev (String a s) ∅ _) eqn:E.
    + intros [= <-]. apply (Hhere (String a s) prev) in E as (w & rest & caps & Hs & Hd & ->).
      exists "", w, rest, caps. auto.
    + intros H. apply IH in H as (pre & w & rest & caps & -> & Hd & ->).
      exists (String a pre), w, rest, caps. rewrite append_cons. auto.
Qed.

Lemma match_sound ic r s m :
  match_ ic r s = Some m ->
  exists pre w rest caps,
    s = pre +:+ w +:+ rest
    /\ derives ic r (last_char None pre) w rest ∅ caps /\ m = <[0%nat := w]> caps.
Proof. apply exec_from_sound. Qed.

Lemma derives_groupFree ic r prev w rest caps caps' :
  derives ic r prev w rest caps caps' -> groupFree r = true -> caps' = caps.
Proof.
  induction 1; simpl; intros Hg; try reflexivity; try discriminate.
  - apply andb_true_iff in Hg as [H1 H2]. rewrite IHderives2, IHderives1; auto.
  - apply andb_true_iff in Hg as [H1 H2]. auto.
  - apply andb_true_iff in Hg as [H1 H2]. auto.
Qed.

Lemma toLowerCase_app a b : toLowerCase (a +:+ b) = toLowerCase a +:+ toLowerCase b.
Proof. induction a as [|x a IH]; [reflexivity|]. rewrite append_cons. simpl. now rewrite IH, append_cons. Qed.

Lemma char_eq_ic c a : char_eq true c a = true -> lower_char a = lower_char c.
Proof. unfold char_eq. intros H. apply Ascii.eqb_eq in H. now symmetry. Qed.

Lemma derives_RLit lit : forall prev w rest caps caps',
  derives true (RLit lit) prev w rest caps caps' -> toLowerCase w = toLowerCase lit.
Proof.
  induction lit as [|c lit IH]; intros prev w rest caps caps' H.
  - inversion H; subst. reflexivity.
  - destruct lit as [|c' lit].
    + inversion H; subst. cbn [toLowerCase].
      match goal with E : char_eq _ _ _ = true |- _ => rewrite (char_eq_ic _ _ E) end.
      reflexivity.
    + change (RLit (String c (String c' lit))) with (RSeq (RChar c) (RLit (String c' lit))) in H.
      inversion H as [| | |? ? ? w1 w2 ? ? c1 ? Ha Hb| | | | |]; subst.
      inversion Ha as [|? ? ? ? ? Hc| | | | | | |]; subst.
      rewrite toLowerCase_app. apply IH in Hb. rewrite Hb.
      cbn [toLowerCase]. rewrite append_cons, (char_eq_ic _ _ Hc).
      reflexivity.
Qed.

Lemma derives_RAlts_lits lits : forall prev w rest caps caps',
  lits <> [] ->
  derives true (RAlts (map RLit lits)) prev w rest caps caps' ->
  exists lit, In lit lits /\ toLowerCase w = toLowerCase lit.
Proof.
  induction lits as [|l lits IH]; intros prev w rest caps caps' Hne H; [congruence|].
  destruct lits as [|l' lits].
  - simpl in H. exists l. split; [now left|]. eapply derives_RLit, H.
  - change (RAlts (map RLit (l :: l' :: lits)))
      with (RAlt (RLit l) (RAlts (map RLit (l' :: lits)))) in H.
    inversion H as [| | | |? ? ? ? ? ? ? Ha|? ? ? ? ? ? ? Hb| | |]; subst.
    + exists l. split; [now left|]. eapply derives_RLit; eassumption.
    + apply IH in Hb as (lit & Hin & Hl); [|discriminate].
      exists lit. split; [now right|exact Hl].
Qed.

Lemma derives_RPlus ic p prev w rest caps caps' :
  derives ic (RPlus p) prev w rest caps caps' ->
  all_in p w = true /\ w <> "" /\ caps' = caps.
Proof.
  unfold RPlus. intros H.
  inversion H as [| | |? ? ? w1 w2 ? ? c1 ? Ha Hb| | | | |]; subst.
  inversion Ha as [| |? ? ? ? ? Hc| | | | | |]; subst.
  inversion Hb as [| | | | | |? ? ? ? ? Hd| |]; subst.
  rewrite append_cons. simpl. rewrite Hc. auto.
Qed.

(** A text that lowercases to [l], where [l] has no lowercase letter, is [l]. *)
Lemma lower_char_fixed a : is_lower (lower_char a) = false -> lower_char a = a.
Proof.
  unfold lower_char. destruct (is_upper a) eqn:E; [|reflexivity].
  intros H. exfalso. revert E H.
  destruct a as [[] [] [] [] [] [] [] []]; vm_compute; congruence.
Qed.

Lemma toLowerCase_fixed w l :
  toLowerCase w = l -> all_in (fun c => negb (is_lower c)) l = true -> w = l.
Proof.
  revert l. induction w as [|a w IH]; intros l; simpl; intros <-; [reflexivity|].
  simpl. intros H. apply andb_true_iff in H as [H1 H2].
  apply negb_true_iff in H1. rewrite (lower_char_fixed _ H1). f_equal. now apply IH.
Qed.

Lemma explicit_match_inv q m :
  match_ true explicitPattern q = Some m ->
  exists g1 g2 g3,
    m !! 1%nat = Some g1 /\ m !! 2%nat = Some g2 /\ m !! 3%nat = Some g3
    /\ In g2 comparisonOperators.
Proof.
  intros H. apply match_sound in H as (pre & w & rest & caps & -> & Hd & ->).
  unfold explicitPattern in Hd. cbn [RSeqs RAlts] in Hd.
  inversion Hd as [| | |? ? ? wa wb ? ? c1 ? Ha Hb| | | | |]; subst; clear Hd.
  inversion Ha as [| | | | | | |? ? ? ? ? ? ? Ha'|]; subst; clear Ha.
  apply derives_RPlus in Ha' as (_ & _ & ->).
  inversion Hb as [| | |? ? ? wc wd ? ? c2 ? Hc Hd| | | | |]; subst; clear Hb.
  apply derives_groupFree in Hc as ->; [|reflexivity].
  inversion Hd as [| | |? ? ? we wf ? ? c3 ? He Hf| | | | |]; subst; clear Hd.
  inversion He as [| | | | | | |? ? ? ? ? ? ? He'|]; subst; clear He.
  pose proof He' as Hops.
  apply derives_groupFree in He' as ->; [|reflexivity].
  inversion Hf as [| | |? ? ? wg wh ? ? c4 ? Hg Hh| | | | |]; subst; clear Hf.
  apply derives_groupFree in Hg as ->; [|reflexivity].
  inversion Hh as [| | | | | | |? ? ? ? ? ? ? Hh'|]; subst; clear Hh.
  apply derives_RPlus in Hh' as (_ & _ & ->).
  exists wa, we, wh. repeat split; try (vm_compute; reflexivity).
  apply (derives_RAlts_lits comparisonOperators) in Hops as (lit & Hin & Hl); [|discriminate].
  assert (we = lit) as ->; [|exact Hin].
  apply toLowerCase_fixed.
  - rewrite Hl. simpl in Hin. decompose [or] Hin; subst; try reflexivity; contradiction.
  - simpl in Hin. decompose [or] Hin; subst; try reflexivity; contradiction.
Qed.

Lemma natural_match_inv q m :
  match_ true naturalOpPattern q = Some m ->
  exists g1 g2,
    m !! 1%nat = Some g1 /\ m !! 2%nat = Some g2 /\ In (toLowerCase g1) naturalPhrases.
Proof.
  intros H. apply match_sound in H as (pre & w & rest & caps & -> & Hd & ->).
  unfold naturalOpPattern in Hd. cbn [RSeqs] in Hd.
  inversion Hd as [| | |? ? ? wa wb ? ? c1 ? Ha Hb| | | | |]; subst; clear Hd.
  inversion Ha as [| | | | | | |? ? ? ? ? ? ? Ha'|]; subst; clear Ha.
  pose proof Ha' as Hph.
  apply derives_groupFree in Ha' as ->; [|reflexivity].
  inversion Hb as [| | |? ? ? wc wd ? ? c2 ? Hc Hd| | | | |]; subst; clear Hb.
  apply derives_RPlus in Hc as (_ & _ & ->).
  inversion Hd as [| | | | | | |? ? ? ? ? ? ? Hd'|]; subst; clear Hd.
  apply derives_RPlus in Hd' as (_ & _ & ->).
  exists wa, wd. repeat split; try (vm_compute; reflexivity).
  apply (derives_RAlts_lits naturalPhrases) in Hph as (lit & Hin & Hl); [|discriminate].
  rewrite Hl. simpl in Hin. decompose [or] Hin; subst; vm_compute; tauto.
Qed.

Lemma naturalOperator_phrase p :
  In p naturalPhrases -> naturalOperator p = ">" \/ naturalOperator p = "<".
Proof. simpl. intros H. decompose [or] H; subst; vm_compute; tauto. Qed.


(* ------------------------------------------------------------------ *)
(** ** The resolver *)

Lemma firstSome_Some {A B} (f : A -> option B) l b :
  firstSome f l = Some b -> exists x, In x l /\ f x = Some b.
Proof.
  induction l as [|x l IH]; simpl; [discriminate|].
  destruct (f x) eqn:E.
  - intros [= <-]. exists x. auto.
  - intros H. apply IH in H as (y & Hy & Hf). exists y. auto.
Qed.

Lemma keywordMatch_sound lq attrs a :
  keywordMatch lq attrs = Some a ->
  In a attrs
  /\ exists kw frags frag,
       In (kw, frags) keywordMap /\ matches true kw lq = true /\ In frag frags
       /\ includes (toLowerCase a) (toLowerCase frag) = true.
Proof.
  unfold keywordMatch. intros H.
  apply firstSome_Some in H as ([kw frags] & Hin & H).
  destruct (matches true kw lq) eqn:Em; [|discriminate].
  apply firstSome_Some in H as (frag & Hfrag & H).
  destruct (List.find _ attrs) as [s|] eqn:Ef; [|discriminate].
  destruct (truthy s); [|discriminate]. injection H as ->.
  apply find_some in Ef as [Ha Hi].
  split; [exact Ha|]. exists kw, frags, frag. auto.
Qed.


(** ** What the cascade can build *)

Lemma resolved_Some o a : resolved o = Some a -> o = Some a.
Proof. destruct o as [b|]; simpl; [|discriminate]. destruct (truthy b); congruence. Qed.

Lemma truthy_nonempty s : truthy s = true <-> s <> "".
Proof.
  destruct s; simpl; split; try discriminate; try reflexivity.
  intros H. now contradiction H.
Qed.

Lemma append_nonempty a c b : a +:+ String c b <> "".
Proof. destruct a; [discriminate|]. rewrite append_cons. discriminate. Qed.

Lemma isoDate_nonempty t : isoDate t <> "".
Proof. unfold isoDate. apply append_nonempty. Qed.

(** ** A number at the head of a value *)

Lemma span_digits ds rest :
  all_digits ds = true -> endsNumber rest -> span is_digit (ds +:+ rest) = (ds, rest).
Proof.
  intros Hd Hr. induction ds as [|c ds IH].
  - change ("" +:+ rest) with rest. destruct rest as [|c rest]; [reflexivity|].
    destruct Hr as (Hc & _). simpl. now rewrite Hc.
  - simpl in Hd. apply andb_true_iff in Hd as [Hc Hd].
    rewrite append_cons. simpl. rewrite Hc, (IH Hd). reflexivity.
Qed.

Lemma parse_exponent_none rest : endsNumber rest -> parse_exponent rest = (0%Z, rest).
Proof.
  destruct rest as [|c rest]; [reflexivity|]. intros (_ & _ & He & HE).
  unfold parse_exponent.
  destruct (Ascii.eqb c "e") eqn:E1; [apply Ascii.eqb_eq in E1; contradiction|].
  destruct (Ascii.eqb c "E") eqn:E2; [apply Ascii.eqb_eq in E2; contradiction|].
  reflexivity.
Qed.

Lemma parse_decimal_digits ds rest :
  ds <> "" -> all_digits ds = true -> endsNumber rest ->
  parse_decimal (ds +:+ rest)
  = Some (of_rational (inject_Z (digits_value 10 0 ds)), rest).
Proof.
  intros Hne Hd Hr.
  destruct ds as [|c ds]; [congruence|].
  assert (Hc : is_digit c = true) by (simpl in Hd; now apply andb_true_iff in Hd as [? ?]).
  assert (Hu : parse_unsigned_decimal (String c ds +:+ rest)
               = Some (of_rational (inject_Z (digits_value 10 0 (String c ds))), rest)).
  { unfold parse_unsigned_decimal.
    assert (Hi : drop_prefix "Infinity" (String c ds +:+ rest) = None).
    { rewrite append_cons. clear Hd Hne. revert Hc.
      destruct c as [[] [] [] [] [] [] [] []]; try discriminate; reflexivity. }
    rewrite Hi, (span_digits _ _ Hd Hr).
    assert (Hm : match rest with
                 | String "." r1' =>
                     let '(fp, r2) := span is_digit r1' in
                     if String.eqb (String c ds) "" && String.eqb fp "" then None
                     else Some (String c ds +:+ fp, (- Z.of_nat (String.length fp))%Z, r2)
                 | _ => if String.eqb (String c ds) "" then None
                        else Some (String c ds, 0%Z, rest)
                 end = Some (String c ds, 0%Z, rest)).
    { destruct rest as [|a rest]; [reflexivity|].
      destruct Hr as (_ & Hdot & _).
      destruct a as [[] [] [] [] [] [] [] []]; try reflexivity. congruence. }
    rewrite Hm, (parse_exponent_none _ Hr).
    unfold scale10. cbn [Z.add Z.leb Z.compare]. now rewrite Z.pow_0_r, Z.mul_1_r. }
  rewrite append_cons in *. unfold parse_decimal.
  revert Hc Hu. destruct c as [[] [] [] [] [] [] [] []]; try discriminate; auto.
Qed.

Section MoreProperties.

Variable dateFallback : string -> option Z.
Variable store : Store.

Lemma findBestAttributeMatch_sound q attrs a :
  findBestAttributeMatch q attrs = Some a ->
  In a attrs
  /\ (includes (toLowerCase q) (toLowerCase a) = true
      \/ exists kw frags frag,
           In (kw, frags) keywordMap /\ matches true kw (toLowerCase q) = true
           /\ In frag frags /\ includes (toLowerCase a) (toLowerCase frag) = true).
Proof.
  unfold findBestAttributeMatch, directMatch.
  destruct (List.find _ attrs) as [b|] eqn:E.
  - intros [= <-]. apply find_some in E as [Hin Hi]. auto.
  - intros H. apply keywordMatch_sound in H as [Hin H]. auto.
Qed.

Lemma typeValue_literal a v : v <> "" -> literal (typeValue dateFallback a v).
Proof.
  intros Hv. unfold typeValue, literal.
  destruct (isDateField a && matches false datePattern v).
  - destruct (Date_parse dateFallback v) as [t|].
    + right. eexists. split; [reflexivity|].
      rewrite splitHead_toISOString. apply isoDate_nonempty.
    + right. exists v. auto.
  - destruct (parseFloat v) as [| | |x]; simpl; try (right; exists v; now auto). left. eauto.
Qed.

Lemma processAndAddFilter_initial a op raw :
  processAndAddFilter dateFallback initialFilter a op raw
  = if truthy (cleanValue raw)
    then (true, singleFilter a op (typeValue dateFallback a (cleanValue raw)))
    else (false, initialFilter).
Proof.
  unfold processAndAddFilter. destruct (truthy (cleanValue raw)); reflexivity.
Qed.

Lemma processAndAddFilter_result attrs ops a op raw :
  In a attrs -> In op ops ->
  strategyResult dateFallback attrs ops (processAndAddFilter dateFallback initialFilter a op raw).
Proof.
  intros Ha Hop. rewrite processAndAddFilter_initial.
  destruct (truthy (cleanValue raw)) eqn:E; [right|left; reflexivity].
  exists a, op, raw. auto.
Qed.

Lemma naturalStrategy_result q attrs :
  exists r, naturalStrategy dateFallback q attrs initialFilter = ret r
            /\ strategyResult dateFallback attrs [">"; "<"] r.
Proof.
  unfold naturalStrategy.
  destruct (resolved (findBestAttributeMatch q attrs)) as [a|] eqn:Ea;
    [|eexists; split; [reflexivity|now left]].
  apply resolved_Some, findBestAttributeMatch_sound in Ea as [Ha _].
  destruct (match_ true naturalOpPattern q) as [m|] eqn:E;
    [|eexists; split; [reflexivity|now left]].
  destruct (natural_match_inv _ _ E) as (g1 & g2 & H1 & H2 & Hp).
  rewrite (group_Some _ _ _ H1), (group_Some _ _ _ H2).
  eexists. split; [reflexivity|].
  apply processAndAddFilter_result; [exact Ha|].
  destruct (naturalOperator_phrase _ Hp) as [-> | ->]; simpl; auto.
Qed.

Lemma explicitStrategy_result q attrs :
  exists r, explicitStrategy dateFallback q attrs initialFilter = ret r
            /\ strategyResult dateFallback attrs comparisonOperators r.
Proof.
  unfold explicitStrategy.
  destruct (match_ true explicitPattern q) as [m|] eqn:E;
    [|eexists; split; [reflexivity|now left]].
  destruct (explicit_match_inv _ _ E) as (g1 & g2 & g3 & H1 & H2 & H3 & Hop).
  rewrite (group_Some _ _ _ H1). unfold bind at 1, ret at 1.
  destruct (resolved (findBestAttributeMatch g1 attrs)) as [a|] eqn:Ea;
    [|eexists; split; [reflexivity|now left]].
  apply resolved_Some, findBestAttributeMatch_sound in Ea as [Ha _].
  rewrite (group_Some _ _ _ H2), (group_Some _ _ _ H3).
  eexists. split; [reflexivity|].
  now apply processAndAddFilter_result.
Qed.

Lemma simpleStrategy_result q attrs :
  exists r, simpleStrategy dateFallback q attrs initialFilter = ret r
            /\ strategyResult dateFallback attrs ["="] r.
Proof.
  unfold simpleStrategy.
  destruct (match_ true simplePattern q) as [m|] eqn:E;
    [|eexists; split; [reflexivity|now left]].
  destruct (simple_groups _ _ E) as (g1 & g2 & H1 & H2).
  rewrite (group_Some _ _ _ H1). unfold bind at 1, ret at 1.
  destruct (resolved (findBestAttributeMatch g1 attrs)) as [a|] eqn:Ea;
    [|eexists; split; [reflexivity|now left]].
  apply resolved_Some, findBestAttributeMatch_sound in Ea as [Ha _].
  rewrite (group_Some _ _ _ H2).
  eexists. split; [reflexivity|].
  apply processAndAddFilter_result; simpl; auto.
Qed.

Lemma strategyResult_weaken attrs ops ops' r :
  (forall op, In op ops -> In op ops') ->
  strategyResult dateFallback attrs ops r -> strategyResult dateFallback attrs ops' r.
Proof.
  intros Hsub [H|(a & op & raw & Ha & Hop & Hv & H)]; [now left|right].
  exists a, op, raw. auto.
Qed.

(** The cascade leaves the initial state or exactly one filter. *)
Lemma cascade_result q attrs :
  exists r, cascade dateFallback q attrs = ret (snd r)
            /\ strategyResult dateFallback attrs comparisonOperators r.
Proof.
  unfold cascade.
  destruct (naturalStrategy_result q attrs) as (r1 & -> & H1).
  unfold bind at 1, ret at 1.
  apply (strategyResult_weaken _ _ comparisonOperators) in H1;
    [|simpl; intros op [<-|[<-|[]]]; auto 6].
  destruct H1 as [-> |(a & op & raw & Ha & Hop & Hv & ->)]; cbn [fst snd].
  - destruct (explicitStrategy_result q attrs) as (r2 & -> & H2).
    unfold bind at 1, ret at 1.
    destruct H2 as [-> |(a & op & raw & Ha & Hop & Hv & ->)]; cbn [fst snd].
    + destruct (simpleStrategy_result q attrs) as (r3 & -> & H3).
      unfold bind at 1, ret at 1.
      apply (strategyResult_weaken _ _ comparisonOperators) in H3;
        [|simpl; intros op [<-|[]]; auto 6].
      exists r3. split; [reflexivity|exact H3].
    + eexists (true, _). split; [reflexivity|]. right. exists a, op, raw. auto.
  - eexists (true, _). split; [reflexivity|]. right. exists a, op, raw. auto.
Qed.

Lemma guardedBody_trace t q lim attrs tr :
  snd (guardedBody dateFallback store t q lim attrs tr) = tr
  \/ exists input,
       snd (guardedBody dateFallback store t q lim attrs tr) = (tr ++ [CallScan input])%list
       /\ scanForm t lim attrs input.
Proof.
  destruct (superlativeField (toLowerCase q) attrs) as [f|] eqn:E.
  - right. exists (fullScan t). rewrite (guardedBody_superlative _ _ _ _ _ _ _ _ E).
    split; [reflexivity|now left].
  - destruct (cascade_result q attrs) as (r & Hc & Hr).
    destruct Hr as [-> |(a & op & raw & Ha & Hop & Hv & ->)]; cbn [snd] in Hc.
    + left. rewrite (guardedBody_fallthrough _ _ _ _ _ _ _ E).
      unfold tryCatch, filterPath. rewrite Hc. reflexivity.
    + right. eexists.
      rewrite (guardedBody_filtered _ _ t q lim attrs _ ("#attr0 " +:+ op +:+ " :val0") tr E Hc);
        [|reflexivity].
      split; [now destruct (scan store _)|].
      right. exists a, op, (typeValue dateFallback a (cleanValue raw)).
      repeat split; try assumption.
      apply typeValue_literal. now apply truthy_nonempty.
Qed.


Lemma smartQuery_trace params :
  snd (run (smartQuery dateFallback store params)) = []
  \/ exists t,
       resolved (tableName params) = Some t
       /\ (snd (run (smartQuery dateFallback store params)) = [CallDescribe t]
           \/ exists tbl defs input,
                describeTable store t = Returned (Some tbl)
                /\ AttributeDefinitions tbl = Some defs
                /\ snd (run (smartQuery dateFallback store params))
                   = [CallDescribe t; CallScan input]
                /\ scanForm t (limit params) (attributeNamesOf defs) input).
Proof.
  destruct (resolved (tableName params)) as [t|] eqn:Ht;
    [|left; rewrite smartQuery_invalid; auto].
  destruct (resolved (queryText params)) as [q|] eqn:Hq;
    [|left; rewrite smartQuery_invalid; auto].
  right. exists t. split; [reflexivity|].
  destruct (describeTable store t) as [[tbl|]|e] eqn:Hd.
  - destruct (AttributeDefinitions tbl) as [defs|] eqn:Ha.
    + rewrite (smartQuery_valid _ _ _ _ _ _ _ Ht Hq Hd Ha).
      destruct (guardedBody_trace t q (limit params) (attributeNamesOf defs) [CallDescribe t])
        as [H|(input & H & Hf)].
      * left. exact H.
      * right. exists tbl, defs, input. auto.
    + left. rewrite (smartQuery_no_schema _ _ _ t q); try assumption; [reflexivity|congruence].
  - left. rewrite (smartQuery_no_schema _ _ _ t q); try assumption; [reflexivity|congruence].
  - left. rewrite (smartQuery_no_schema _ _ _ t q); try assumption; [reflexivity|congruence].
Qed.

(** ** The head of the sorted items *)

Lemma leNum_total a b : a <> NaN -> b <> NaN -> leNum a b \/ leNum b a.
Proof.
  destruct a, b; simpl; try tauto.
  intros _ _. destruct (Qlt_le_dec q q0) as [H|H]; [left; now apply Qlt_le_weak|now right].
Qed.

Lemma sign_sub_strict a b :
  a <> NaN -> b <> NaN -> sign (sub a b) = Gt -> ~ leNum a b.
Proof.
  destruct a, b; simpl; try tauto; try congruence.
  intros _ _ H Hle. rewrite (Qred_correct (q - q0)) in H.
  rewrite <- Qgt_alt in H. unfold Qminus in H. rewrite <- Qlt_minus_iff in H.
  now apply Qlt_not_le in H.
Qed.

Lemma keyOrder_trans d f a b c : keyOrder d f a b -> keyOrder d f b c -> keyOrder d f a c.
Proof. unfold keyOrder. destruct d; intros H1 H2; eapply leNum_trans; eassumption. Qed.

Lemma compareItems_Gt d f x y :
  sign (compareItems d f x y) = Gt -> strictlyBefore d f y x.
Proof.
  unfold compareItems, strictlyBefore, keyOrder. destruct d; intros H; split.
  - apply sign_sub_gt in H; auto using sortKey_not_NaN.
  - apply sign_sub_strict in H; auto using sortKey_not_NaN.
  - apply sign_sub_gt in H; auto using sortKey_not_NaN.
  - apply sign_sub_strict in H; auto using sortKey_not_NaN.
Qed.

Lemma compareItems_not_Gt d f x y :
  sign (compareItems d f x y) <> Gt -> keyOrder d f x y.
Proof.
  unfold compareItems, keyOrder. destruct d; intros H;
    apply sign_sub_le in H; auto using sortKey_not_NaN.
Qed.

(** The first of the sorted items is the first item of the list that no
    other item comes strictly before. *)
Lemma sort_head d f (l : list Item) :
  match l with
  | [] => sort (compareItems d f) l = []
  | _ =>
      exists pre m post,
        l = (pre ++ m :: post)%list
        /\ head (sort (compareItems d f) l) = Some m
        /\ (forall y, In y pre -> strictlyBefore d f m y)
        /\ (forall y, In y post -> keyOrder d f m y)
  end.
Proof.
  induction l as [|x l IH]; [reflexivity|].
  change (sort (compareItems d f) (x :: l))
    with (insertSorted (compareItems d f) x (sort (compareItems d f) l)).
  destruct l as [|x' l'].
  - exists [], x, []. split; [reflexivity|]. split; [reflexivity|]. split; intros y [].
  - destruct IH as (pre & m & post & Hl & Hh & Hpre & Hpost).
    destruct (sort (compareItems d f) (x' :: l')) as [|m' rest]; [discriminate|].
    injection Hh as ->. cbn [insertSorted].
    destruct (sign (compareItems d f x m)) eqn:E.
    + exists [], x, (x' :: l'). split; [reflexivity|]. split; [reflexivity|].
      split; [intros y []|].
      assert (Hxm : keyOrder d f x m) by (apply compareItems_not_Gt; congruence).
      rewrite Hl. intros y Hy. apply in_app_or in Hy as [Hy|[<-|Hy]]; [|exact Hxm|].
      * eapply keyOrder_trans; [exact Hxm|]. now apply Hpre.
      * eapply keyOrder_trans; [exact Hxm|]. now apply Hpost.
    + exists [], x, (x' :: l'). split; [reflexivity|]. split; [reflexivity|].
      split; [intros y []|].
      assert (Hxm : keyOrder d f x m) by (apply compareItems_not_Gt; congruence).
      rewrite Hl. intros y Hy. apply in_app_or in Hy as [Hy|[<-|Hy]]; [|exact Hxm|].
      * eapply keyOrder_trans; [exact Hxm|]. now apply Hpre.
      * eapply keyOrder_trans; [exact Hxm|]. now apply Hpost.
    + exists (x :: pre), m, post. rewrite Hl. split; [reflexivity|]. split; [reflexivity|].
      split; [|exact Hpost].
      intros y [<-|Hy]; [now apply compareItems_Gt|now apply Hpre].
Qed.

Lemma length_sort {A} (cmp : A -> A -> number) l : length (sort cmp l) = length l.
Proof. apply Permutation_length, sort_perm. Qed.


(** X1.  The resolver never invents an attribute: whatever it returns is one
    of the attribute names it was given, and it was chosen either because
    its name occurs in the text, both lowercased, or because the text
    triggers a keyword class one of whose fragments occurs in the name. *)
Theorem resolver_returns_schema_attribute q attrs a :
  findBestAttributeMatch q attrs = Some a ->
  In a attrs
  /\ (includes (toLowerCase q) (toLowerCase a) = true
      \/ exists kw frags frag,
           In (kw, frags) keywordMap /\ matches true kw (toLowerCase q) = true
           /\ In frag frags /\ includes (toLowerCase a) (toLowerCase frag) = true).
Proof. apply findBestAttributeMatch_sound. Qed.

(** X2.  smartQuery calls the store at most twice: nothing at all, or one
    schema fetch for the named table, or that schema fetch followed by one
    scan of the same table, and a scan only when the fetch returned a table
    with attribute definitions. *)
Theorem smartQuery_store_discipline params :
  snd (run (smartQuery dateFallback store params)) = []
  \/ exists t,
       resolved (tableName params) = Some t
       /\ (snd (run (smartQuery dateFallback store params)) = [CallDescribe t]
           \/ exists tbl defs input,
                describeTable store t = Returned (Some tbl)
                /\ AttributeDefinitions tbl = Some defs
                /\ snd (run (smartQuery dateFallback store params))
                   = [CallDescribe t; CallScan input]
                /\ TableName input = t).
Proof.
  destruct (smartQuery_trace params) as [H|(t & Ht & [H|(tbl & defs & input & Hd & Ha & H & Hf)])].
  - now left.
  - right. exists t. auto.
  - right. exists t. split; [exact Ht|]. right. exists tbl, defs, input.
    repeat split; try assumption.
    destruct Hf as [-> |(a & op & v & _ & _ & _ & ->)]; reflexivity.
Qed.

(** X3.  Every scan that smartQuery sends is either the scan of the whole
    table, with no filter and no limit, or a scan with exactly one
    comparison: the filter expression is #attr0, one of the operators >=,
    <=, >, <, = and :val0; the name map holds #attr0 alone, bound to an
    attribute name of the fetched schema; the value map holds :val0 alone,
    bound to a finite number or to a text that is not empty; and the limit
    is the caller's. *)
Theorem smartQuery_scan_form params input :
  In (CallScan input) (snd (run (smartQuery dateFallback store params))) ->
  exists t tbl defs,
    resolved (tableName params) = Some t
    /\ describeTable store t = Returned (Some tbl)
    /\ AttributeDefinitions tbl = Some defs
    /\ (input = fullScan t
        \/ exists a op v,
             In a (attributeNamesOf defs)
             /\ In op [">="; "<="; ">"; "<"; "="]
             /\ ((exists x, v = JNum (Fin x)) \/ (exists s, v = JStr s /\ s <> ""))
             /\ input = {| TableName := t;
                           FilterExpression := Some ("#attr0 " +:+ op +:+ " :val0");
                           ExpressionAttributeNames := Some {[ "#attr0" := a ]};
                           ExpressionAttributeValues := Some {[ ":val0" := v ]};
                           Limit := limit params |}).
Proof.
  intros Hin.
  destruct (smartQuery_trace params) as [H|(t & Ht & [H|(tbl & defs & i & Hd & Ha & H & Hf)])];
    rewrite H in Hin.
  - destruct Hin.
  - destruct Hin as [Hin|[]]. discriminate.
  - destruct Hin as [Hin|[Hin|[]]]; [discriminate|]. injection Hin as ->.
    exists t, tbl, defs. auto.
Qed.

(** X4.  When the resolver finds an attribute that is not empty for the
    whole text, and the pattern of the natural operators, a phrase among
    after, before, less than, greater than (whatever the case), white space
    and a run of letters, digits, white space, dots and dashes, matches the
    text, and the value captured by its leftmost match is not empty once
    trimmed and freed of quote characters, the cascade stops at its first
    strategy: the one filter compares that attribute with that value, with >
    when the captured phrase is after or greater than and with < when it is
    before or less than.  The later strategies are not tried, so that an
    explicit operator elsewhere in the text is not looked at, and the
    operator = that the source starts from is not used.  Nothing is said of
    a text whose leftmost match captures a blank value, or in which the
    phrase is followed by a character outside that run. *)
Theorem natural_phrase_precedence q attrs a m g1 g2 :
  findBestAttributeMatch q attrs = Some a ->
  a <> "" ->
  match_ true naturalOpPattern q = Some m ->
  m !! 1%nat = Some g1 ->
  m !! 2%nat = Some g2 ->
  cleanValue g2 <> "" ->
  exists op,
    (((toLowerCase g1 = "after" \/ toLowerCase g1 = "greater than") /\ op = ">")
     \/ ((toLowerCase g1 = "before" \/ toLowerCase g1 = "less than") /\ op = "<"))
    /\ cascade dateFallback q attrs
       = ret {| valueIndex := 1;
                filterParts := ["#attr0 " +:+ op +:+ " :val0"];
                expressionAttributeNames := {[ "#attr0" := a ]};
                expressionAttributeValues :=
                  {[ ":val0" := typeValue dateFallback a (cleanValue g2) ]} |}.
Proof.
  intros Ha Hne Hm H1 H2 Hv.
  destruct (natural_match_inv _ _ Hm) as (g1' & g2' & H1' & H2' & Hp).
  assert (g1' = g1) as -> by congruence. clear H1' H2' g2'.
  exists (naturalOperator (toLowerCase g1)). split.
  - simpl in Hp. destruct Hp as [Hp|[Hp|[Hp|[Hp|[]]]]]; rewrite <- Hp; vm_compute; auto.
  - assert (Hn : naturalStrategy dateFallback q attrs initialFilter
                 = ret (processAndAddFilter dateFallback initialFilter a
                          (naturalOperator (toLowerCase g1)) g2)).
    { unfold naturalStrategy. rewrite Ha. cbn [resolved].
      apply truthy_nonempty in Hne. rewrite Hne, Hm.
      now rewrite (group_Some _ _ _ H1), (group_Some _ _ _ H2). }
    rewrite processAndAddFilter_initial in Hn.
    apply truthy_nonempty in Hv. rewrite Hv in Hn.
    unfold cascade. now rewrite Hn.
Qed.

(** X5.  On the superlative path a negative limit -k does not count from
    the front: the result holds the sorted items without the last k of
    them, and none when there are no more than k. *)
Theorem superlative_negative_limit params t q tbl defs key res n :
  resolved (tableName params) = Some t ->
  resolved (queryText params) = Some q ->
  describeTable store t = Returned (Some tbl) ->
  AttributeDefinitions tbl = Some defs ->
  superlativeField (toLowerCase q) (attributeNamesOf defs) = Some key ->
  scan store (fullScan t) = Returned res ->
  limit params = Some n ->
  (n < 0)%Z ->
  let sorted := sort (compareItems (isHighestQuery (toLowerCase q)) key) (default [] res) in
  exists qr,
    fst (run (smartQuery dateFallback store params)) = Returned qr
    /\ success qr = true
    /\ items qr = firstn (length (default [] res) - Z.to_nat (- n)) sorted
    /\ count qr = (length (default [] res) - Z.to_nat (- n))%nat.
Proof.
  intros Ht Hq Hd Ha Hs Hres Hl Hn sorted.
  rewrite (smartQuery_valid _ _ _ _ _ _ _ Ht Hq Hd Ha).
  rewrite (guardedBody_superlative _ _ _ _ _ _ _ _ Hs), Hres. cbv zeta. fold sorted.
  eexists. split; [reflexivity|]. cbn [success items count].
  assert (Hslice : slice0 (limitOrOne (limit params)) sorted
                   = firstn (length (default [] res) - Z.to_nat (- n)) sorted).
  { rewrite Hl. unfold slice0, limitOrOne.
    destruct (n =? 0)%Z eqn:E0; [apply Z.eqb_eq in E0; lia|].
    destruct (0 <=? n)%Z eqn:E1; [apply Z.leb_le in E1; lia|].
    f_equal. unfold sorted. rewrite length_sort. lia. }
  rewrite Hslice. split; [reflexivity|]. split; [reflexivity|].
  rewrite length_firstn. unfold sorted. rewrite length_sort. lia.
Qed.

(** X6.  With no limit, or a limit of 0 or 1, the superlative path returns
    one item when the scan has any: for a query with highest, maximum or
    max the first scanned item whose sort key no other item exceeds, and
    otherwise the first scanned item whose sort key is the smallest.  Among
    items with equal keys the one scanned first wins.  An empty scan gives
    no item. *)
Theorem superlative_first_extreme params t q tbl defs key res :
  resolved (tableName params) = Some t ->
  resolved (queryText params) = Some q ->
  describeTable store t = Returned (Some tbl) ->
  AttributeDefinitions tbl = Some defs ->
  superlativeField (toLowerCase q) (attributeNamesOf defs) = Some key ->
  scan store (fullScan t) = Returned res ->
  limit params = None \/ limit params = Some 0%Z \/ limit params = Some 1%Z ->
  let descending := isHighestQuery (toLowerCase q) in
  exists qr,
    fst (run (smartQuery dateFallback store params)) = Returned qr
    /\ match default [] res with
       | [] => items qr = []
       | _ =>
           exists pre m post,
             default [] res = (pre ++ m :: post)%list
             /\ items qr = [m]
             /\ (forall y, In y pre ->
                   keyOrder descending key m y /\ ~ keyOrder descending key y m)
             /\ (forall y, In y post -> keyOrder descending key m y)
       end.
Proof.
  intros Ht Hq Hd Ha Hs Hres Hl descending.
  rewrite (smartQuery_valid _ _ _ _ _ _ _ Ht Hq Hd Ha).
  rewrite (guardedBody_superlative _ _ _ _ _ _ _ _ Hs), Hres. cbv zeta.
  eexists. split; [reflexivity|]. cbn [items]. fold descending.
  assert (Hone : limitOrOne (limit params) = 1%Z)
    by (destruct Hl as [-> |[-> | ->]]; reflexivity).
  rewrite Hone.
  pose proof (sort_head descending key (default [] res)) as Hh.
  destruct (default [] res) as [|x l] eqn:El; [now rewrite Hh|].
  destruct Hh as (pre & m & post & Hx & Hh & Hpre & Hpost).
  exists pre, m, post. split; [exact Hx|].
  split; [|split; [exact Hpre|exact Hpost]].
  destruct (sort (compareItems descending key) (x :: l)) as [|m' rest]; [discriminate|].
  injection Hh as ->. reflexivity.
Qed.

(** X7.  When the fetched table description names no attribute (its list
    of attribute definitions is empty, or no definition carries a name),
    every query with valid arguments ends in InvalidFilter, and the schema
    fetch is the only call to the store. *)
Theorem smartQuery_empty_schema params t q tbl defs :
  resolved (tableName params) = Some t ->
  resolved (queryText params) = Some q ->
  describeTable store t = Returned (Some tbl) ->
  AttributeDefinitions tbl = Some defs ->
  (forall def, In def defs -> AttributeName def = None \/ AttributeName def = Some "") ->
  run (smartQuery dateFallback store params) = (Returned invalidFilter, [CallDescribe t]).
Proof.
  intros Ht Hq Hd Ha Hnone.
  assert (Hattrs : attributeNamesOf defs = []).
  { unfold attributeNamesOf. clear Ha. induction defs as [|def defs IH]; [reflexivity|].
    assert (IH' : omap (fun def => resolved (AttributeName def)) defs = [])
      by (apply IH; intros d Hd'; apply Hnone; now right).
    cbn. destruct (Hnone def (or_introl eq_refl)) as [E|E]; rewrite E; cbn; exact IH'. }
  rewrite (smartQuery_valid _ _ _ _ _ _ _ Ht Hq Hd Ha), Hattrs.
  assert (Hnothing : forall g, findBestAttributeMatch g [] = None).
  { intros g. destruct (findBestAttributeMatch g []) as [a|] eqn:E; [|reflexivity].
    apply findBestAttributeMatch_sound in E as [[] _]. }
  rewrite guardedBody_fallthrough.
  - unfold tryCatch, filterPath.
    rewrite cascade_unresolved; [reflexivity| | |].
    + now rewrite Hnothing.
    + intros m g _ _. now rewrite Hnothing.
    + intros m g _ _. now rewrite Hnothing.
  - unfold superlativeField. simpl. now destruct (_ || _).
Qed.

(** X8.  A value that begins with decimal digits is typed by those digits
    alone when what follows cannot go on the number: for a target attribute
    that is no date field, the literal is the number the digits denote,
    whatever text comes after them, and the whole value as a text only when
    that number is not finite. *)
Theorem value_number_prefix attr ds rest :
  ds <> "" ->
  all_digits ds = true ->
  endsNumber rest ->
  isDateField attr = false ->
  let n := of_rational (inject_Z (digits_value 10 0 ds)) in
  parseFloat (ds +:+ rest) = n
  /\ typeValue dateFallback attr (ds +:+ rest)
     = if isFinite n then JNum n else JStr (ds +:+ rest).
Proof.
  intros Hne Hd Hr Ha n.
  assert (Hp : parseFloat (ds +:+ rest) = n).
  { unfold parseFloat.
    assert (Ht : trimStart (ds +:+ rest) = ds +:+ rest).
    { destruct ds as [|c ds]; [congruence|]. rewrite append_cons. simpl.
      simpl in Hd. apply andb_true_iff in Hd as [Hc _].
      revert Hc. destruct c as [[] [] [] [] [] [] [] []]; try discriminate; reflexivity. }
    now rewrite Ht, parse_decimal_digits. }
  split; [exact Hp|].
  unfold typeValue. rewrite Ha, Hp. cbn [andb].
  now destruct n.
Qed.

End MoreProperties.

(* ===================================================================== *)
(** * Facts about the client *)
(* ===================================================================== *)

(** ** Object literals *)

Lemma fields_nil k : Wire.fields [] !! k = None.
Proof. apply lookup_empty. Qed.

Lemma fields_cons k v l k' :
  Wire.fields ((k, v) :: l) !! k'
  = match v with
    | Some x => if String.eqb k k' then Some x else Wire.fields l !! k'
    | None => Wire.fields l !! k'
    end.
Proof.
  unfold Wire.fields at 1. cbn [foldr fst snd]. fold (Wire.fields l).
  destruct v as [x|]; [|reflexivity].
  destruct (String.eqb k k') eqn:E.
  - apply String.eqb_eq in E as ->. apply lookup_insert_eq.
  - apply String.eqb_neq in E. now apply lookup_insert_ne.
Qed.

(** A lookup in the arguments of a converted query *)
Ltac fields_lookup :=
  unfold Client.scanArgsOf, Server.scanParamsOf; rewrite ?fields_cons, ?fields_nil;
  cbn [String.eqb Ascii.eqb Bool.eqb];
  repeat match goal with |- context [match ?o with Some _ => _ | None => _ end] =>
    destruct o end; reflexivity.

Section ClientProperties.

Import Wire Client.

(** ** Tool names *)

Lemma replaceEach_length p r s : String.length (replaceEach p r s) = String.length s.
Proof. induction s as [|c s IH]; simpl; [reflexivity|now rewrite IH]. Qed.

Lemma sanitizeToolName_all name : all_in isNameChar (sanitizeToolName name) = true.
Proof.
  unfold sanitizeToolName. induction name as [|c s IH]; simpl; [reflexivity|].
  rewrite IH, andb_true_r. destruct (isNameChar c) eqn:E; [exact E|reflexivity].
Qed.

Lemma sanitizeToolName_fixed name :
  all_in isNameChar name = true -> sanitizeToolName name = name.
Proof.
  unfold sanitizeToolName. induction name as [|c s IH]; simpl; [reflexivity|].
  intros H. apply andb_true_iff in H as [Hc Hs]. now rewrite Hc, IH.
Qed.

Lemma sanitizeToolName_idem name :
  sanitizeToolName (sanitizeToolName name) = sanitizeToolName name.
Proof. apply sanitizeToolName_fixed, sanitizeToolName_all. Qed.

(** The name that optimizeQuery tests for has a colon: it is no sanitized
    name. *)
Lemma sanitized_not_query_table name : sanitizeToolName name <> "dynamodb:query_table".
Proof.
  intros H. pose proof (sanitizeToolName_all name) as Ha. rewrite H in Ha. discriminate.
Qed.

Lemma optimizeQuery_other toolName toolArgs :
  toolName <> "dynamodb:query_table" ->
  optimizeQuery toolName toolArgs = Ok {| callName := toolName; callArgs := toolArgs |}.
Proof.
  intros H. unfold optimizeQuery.
  destruct (String.eqb toolName "dynamodb:query_table") eqn:E; [|reflexivity].
  apply String.eqb_eq in E. contradiction.
Qed.

Lemma nameTable_keeps (tools : list Tool) (table : gmap string string) k :
  (forall other, In other tools -> sanitizeToolName (toolName other) <> k) ->
  foldl (fun table tool => <[sanitizeToolName (toolName tool) := toolName tool]> table)
    table tools !! k = table !! k.
Proof.
  revert table. induction tools as [|tool tools IH]; intros table H; [reflexivity|].
  simpl. rewrite IH by (intros o Ho; apply H; now right).
  apply lookup_insert_ne. apply H. now left.
Qed.

Lemma nameTable_last pre tool post :
  (forall other, In other post ->
     sanitizeToolName (toolName other) <> sanitizeToolName (toolName tool)) ->
  nameTable (pre ++ tool :: post) !! sanitizeToolName (toolName tool) = Some (toolName tool).
Proof.
  intros H. unfold nameTable. rewrite foldl_app. simpl.
  rewrite nameTable_keeps by exact H. apply lookup_insert_eq.
Qed.

(* ===================================================================== *)
(** * Properties of the client *)
(* ===================================================================== *)

(** X9.  A sanitized tool name has the length of the name, holds nothing
    but letters, digits, underscores and dashes, and is left as it is when
    sanitized again; a name is its own sanitized form exactly when it holds
    no other character. *)
Theorem sanitizeToolName_form name :
  String.length (sanitizeToolName name) = String.length name
  /\ all_in isNameChar (sanitizeToolName name) = true
  /\ sanitizeToolName (sanitizeToolName name) = sanitizeToolName name
  /\ (sanitizeToolName name = name <-> all_in isNameChar name = true).
Proof.
  split; [apply replaceEach_length|]. split; [apply sanitizeToolName_all|].
  split; [apply sanitizeToolName_idem|]. split.
  - intros H. rewrite <- H. apply sanitizeToolName_all.
  - apply sanitizeToolName_fixed.
Qed.

(** X10.  optimizeQuery leaves every call but a query alone.  A query whose
    key condition is a text is turned into a scan exactly when the text
    holds Age and neither Name nor #name, letter case counting; the scan
    then filters by the key condition and keeps the table name, the name and
    value maps and the limit, while the index name and the filter expression
    of the query are dropped.  Optimizing the result once more changes
    nothing. *)
Theorem optimizeQuery_rewrite toolName toolArgs :
  (toolName <> "dynamodb:query_table" ->
   optimizeQuery toolName toolArgs = Ok {| callName := toolName; callArgs := toolArgs |})
  /\ (forall k,
        toolName = "dynamodb:query_table" ->
        toolArgs !! "keyConditionExpression" = Some (VStr k) ->
        optimizeQuery toolName toolArgs
        = Ok (if includes k "Age" && negb (includes k "Name") && negb (includes k "#name")
              then {| callName := "dynamodb:scan_table"; callArgs := scanArgsOf toolArgs |}
              else {| callName := toolName; callArgs := toolArgs |}))
  /\ (scanArgsOf toolArgs !! "filterExpression" = toolArgs !! "keyConditionExpression"
      /\ scanArgsOf toolArgs !! "tableName" = toolArgs !! "tableName"
      /\ scanArgsOf toolArgs !! "expressionAttributeNames" = toolArgs !! "expressionAttributeNames"
      /\ scanArgsOf toolArgs !! "expressionAttributeValues"
         = toolArgs !! "expressionAttributeValues"
      /\ scanArgsOf toolArgs !! "limit" = toolArgs !! "limit"
      /\ scanArgsOf toolArgs !! "indexName" = None
      /\ scanArgsOf toolArgs !! "scanIndexForward" = None)
  /\ (forall call,
        optimizeQuery toolName toolArgs = Ok call ->
        optimizeQuery (callName call) (callArgs call) = Ok call).
Proof.
  split; [apply optimizeQuery_other|]. split; [|split].
  - intros k -> Hk. unfold optimizeQuery. cbn [String.eqb Ascii.eqb Bool.eqb]. rewrite Hk.
    cbn [truthyV].
    assert (Hkc : forall sub,
      includesV (if truthy k then VStr k else VStr "") sub = Ok (includes k sub))
      by (intros sub; now destruct k).
    rewrite !Hkc. cbn [andThen].
    destruct (includes k "Age"); [|reflexivity]. cbn [andb].
    destruct (includes k "Name"); [reflexivity|]. cbn [negb andb].
    destruct (includes k "#name"); reflexivity.
  - repeat split; fields_lookup.
  - intros call H. pose proof H as H0. unfold optimizeQuery in H.
    destruct (String.eqb toolName "dynamodb:query_table") eqn:E.
    + apply String.eqb_eq in E. subst toolName.
      destruct (includesV _ "Age") as [[]|]; cbn [andThen] in H; try discriminate.
      * destruct (includesV _ "Name") as [[]|]; cbn [andThen negb] in H; try discriminate.
        -- injection H as <-. exact H0.
        -- destruct (includesV _ "#name") as [[]|]; cbn [andThen negb] in H; try discriminate.
           ++ injection H as <-. exact H0.
           ++ injection H as <-. reflexivity.
      * injection H as <-. exact H0.
    + injection H as <-. cbn [callName callArgs]. exact H0.
Qed.

(** X11.  A tool is offered to the model under its sanitized name.  A
    tool_use block that carries the offered name of a listed tool is sent to
    the server under the name of the last listed tool with that offered
    name, with its arguments as they came: such a call is never rewritten
    by optimizeQuery, whose test is on the unsanitized name.  When no two
    listed tools share an offered name, every tool gets its own calls. *)
Theorem offered_name_round_trip pre tool post input :
  toolName tool <> "" ->
  (forall other, In other post ->
     sanitizeToolName (toolName other) <> sanitizeToolName (toolName tool)) ->
  In (sanitizeToolName (toolName tool)) (offeredNames (pre ++ tool :: post))
  /\ toolCallOf (nameTable (pre ++ tool :: post)) (sanitizeToolName (toolName tool)) input
     = Ok (toolName tool, input).
Proof.
  intros Hne Hlast. split.
  - unfold offeredNames. rewrite map_app. apply in_or_app. right. now left.
  - unfold toolCallOf.
    rewrite optimizeQuery_other by apply sanitized_not_query_table.
    cbn [andThen callName callArgs].
    rewrite sanitizeToolName_idem, (nameTable_last _ _ _ Hlast).
    apply truthy_nonempty in Hne. now rewrite Hne.
Qed.

(** X12.  The client instance is created once.  Whatever the first call of
    initMCPClient does, return or throw, it leaves an instance behind and
    tries at most one connection; when it throws, that instance has no
    tools.  Every later call returns the same instance without connecting
    and without looking at its arguments, and mcpProcessQuery runs on that
    instance instead of reporting a client that is not initialized. *)
Theorem initMCPClient_once host serverScriptPath profile :
  exists outcome instance attempts,
    initMCPClient host serverScriptPath profile None = (outcome, Some instance, attempts)
    /\ (length attempts <= 1)%nat
    /\ (outcome = Ok instance \/ exists e, outcome = Raise e)
    /\ (forall e, outcome = Raise e ->
          tools instance = [] /\ sanitizedToOriginalToolName instance = ∅)
    /\ (forall host' path' profile',
          initMCPClient host' path' profile' (Some instance) = (Ok instance, Some instance, []))
    /\ (forall A (processQuery : EnhancedMCPClient -> string -> Result A) query,
          mcpProcessQuery processQuery query (Some instance) = processQuery instance query).
Proof.
  unfold initMCPClient, connectToServer.
  destruct (negb (endsWith serverScriptPath ".js") && negb (endsWith serverScriptPath ".py")).
  - eexists _, _, _. split; [reflexivity|]. cbn [length].
    split; [lia|]. split; [right; eauto|]. repeat split.
  - destruct (connect host _) as [[]|e].
    + destruct (listTools host _) as [listed|e].
      * eexists _, _, _. split; [reflexivity|]. cbn [length].
        split; [lia|]. split; [now left|]. split; [discriminate|]. split; reflexivity.
      * eexists _, _, _. split; [reflexivity|]. cbn [length].
        split; [lia|]. split; [right; eauto|]. repeat split.
    + eexists _, _, _. split; [reflexivity|]. cbn [length].
      split; [lia|]. split; [right; eauto|]. repeat split.
Qed.

End ClientProperties.

(* ===================================================================== *)
(** * Facts about the server *)
(* ===================================================================== *)

Section ServerProperties.

Import Wire Server.

Variable engine : Engine.
Variable dynamo : Dynamo.
Variable serializer : Serializer.

(** ** Values and names *)

Lemma normalizeEntry_Some val : is_Some (normalizeEntry val).
Proof.
  destruct val as [| | | | |o]; simpl; eauto.
  destruct (o !! "N") as [n|]; [destruct (_ || _); eauto|].
  destruct (o !! "S") as [s|]; [destruct (_ || _); eauto|].
  destruct (o !! "B") as [b|]; [destruct (_ || _); eauto|].
  simpl. eauto.
Qed.

Lemma dom_omap_normalizeEntry (values : object) :
  dom (omap normalizeEntry values) = dom values.
Proof.
  apply set_eq. intros k. rewrite !elem_of_dom, lookup_omap.
  destruct (values !! k) as [v|]; simpl.
  - split; [eauto|]. intros _. apply normalizeEntry_Some.
  - split; intros [? ?]; discriminate.
Qed.

(** The names that are kept are entries of the names given, under keys
    that occur in the expressions, and there is at least one of them. *)
Lemma cleanExpressionAttributeNames_Some given expressions kept :
  cleanExpressionAttributeNames given expressions = Ok (Some kept) ->
  kept <> ∅
  /\ forall k v, kept !! k = Some v ->
       (exists names, given = Some names /\ ownProperties names !! k = Some v)
       /\ includes (combinedExpressionOf expressions) k = true.
Proof.
  unfold cleanExpressionAttributeNames. intros H.
  destruct given as [names|]; [|discriminate].
  destruct (negb (truthyV names)); [discriminate|].
  destruct (bool_decide _); [discriminate|].
  set (m := filter _ (ownProperties names)) in H.
  destruct (0 <? size m)%nat eqn:E; [|discriminate]. injection H as <-.
  apply Nat.ltb_lt in E. split.
  - intros He. rewrite He, map_size_empty in E. lia.
  - intros k v Hk. apply map_lookup_filter_Some in Hk as [Hk Hi]. eauto.
Qed.

(** ** The runs of the tools *)

Lemma scanTable_run (params : object) :
  run (scanTable engine dynamo (Some params))
  = match normalizeAttributeValues engine (params !! "expressionAttributeValues") with
    | Raise e => (Ok (ScanFailed ("Failed to scan table: " +:+ errorText e) (name e)), [])
    | Ok normalizedValues =>
        match cleanExpressionAttributeNames (params !! "expressionAttributeNames")
                (truthyOnly (params !! "filterExpression")) with
        | Raise e => (Ok (ScanFailed ("Failed to scan table: " +:+ errorText e) (name e)), [])
        | Ok cleanedNames =>
            match marshalled dynamo normalizedValues with
            | Raise e =>
                (Ok (ScanFailed ("Failed to scan table: " +:+ errorText e) (name e)), [])
            | Ok marshalledValues =>
            let input := scanInputOf params marshalledValues cleanedNames in
            (match sendScan dynamo input with
             | Ok response =>
                 Ok (Scanned
                       ("Scan executed successfully on table "
                        +:+ template engine (params !! "tableName")
                        +:+ (if truthyO (params !! "indexName")
                             then " (index: " +:+ template engine (params !! "indexName") +:+ ")"
                             else ""))
                       (default [] (Items response)) (Count response) (ScannedCount response)
                       (LastEvaluatedKey response) (ConsumedCapacity response))
             | Raise e => Ok (ScanFailed ("Failed to scan table: " +:+ errorText e) (name e))
             end, [ScanCommand input])
            end
        end
    end.
Proof.
  unfold run, scanTable, tryCatch, bind, property, lift, ret, send. cbn [default].
  destruct (normalizeAttributeValues engine _) as [nv|e]; [|reflexivity].
  destruct (cleanExpressionAttributeNames _ _) as [cn|e]; [|reflexivity].
  destruct (marshalled dynamo nv) as [mv|e]; [|reflexivity].
  cbn [app]. now destruct (sendScan dynamo _).
Qed.

Lemma scanTable_undefined :
  run (scanTable engine dynamo None)
  = (Ok (ScanFailed
           ("Failed to scan table: "
            +:+ "Cannot read properties of undefined (reading 'expressionAttributeValues')")
           (Some "TypeError")), []).
Proof. reflexivity. Qed.

Lemma scanTable_returns params :
  exists r tr, run (scanTable engine dynamo params) = (Ok r, tr).
Proof.
  destruct params as [params|]; [|rewrite scanTable_undefined; eauto].
  rewrite scanTable_run.
  destruct (normalizeAttributeValues engine _) as [nv|e]; [|eauto].
  destruct (cleanExpressionAttributeNames _ _) as [cn|e]; [|eauto].
  destruct (marshalled dynamo nv) as [mv|e]; [|eauto].
  cbv zeta. destruct (sendScan dynamo _); eauto.
Qed.

(** Every run of scanTable: a failure before the store is reached, or one
    scan whose input is made of the parameters. *)
Lemma scanTable_command params :
  exists r tr,
    run (scanTable engine dynamo params) = (Ok r, tr)
    /\ ((tr = [] /\ success r = false)
        \/ exists o marshalledValues cleanedNames,
             params = Some o
             /\ cleanExpressionAttributeNames (o !! "expressionAttributeNames")
                  (truthyOnly (o !! "filterExpression")) = Ok cleanedNames
             /\ tr = [ScanCommand (scanInputOf o marshalledValues cleanedNames)]
             /\ match sendScan dynamo (scanInputOf o marshalledValues cleanedNames) with
                | Ok response => success r = true /\ items r = default [] (Items response)
                | Raise e => success r = false
                end).
Proof.
  destruct params as [o|];
    [|eexists _, _; split; [apply scanTable_undefined|left; split; reflexivity]].
  rewrite scanTable_run.
  destruct (normalizeAttributeValues engine _) as [nv|e];
    [|eexists _, _; split; [reflexivity|left; split; reflexivity]].
  destruct (cleanExpressionAttributeNames _ _) as [cn|e] eqn:Ec;
    [|eexists _, _; split; [reflexivity|left; split; reflexivity]].
  destruct (marshalled dynamo nv) as [mv|e];
    [|eexists _, _; split; [reflexivity|left; split; reflexivity]].
  cbv zeta. destruct (sendScan dynamo (scanInputOf o mv cn)) as [response|e] eqn:Es.
  - eexists _, _. split; [reflexivity|]. right. exists o, mv, cn.
    rewrite Es. repeat split. exact Ec.
  - eexists _, _. split; [reflexivity|]. right. exists o, mv, cn.
    rewrite Es. repeat split. exact Ec.
Qed.

Lemma queryTable_run (params : object) :
  run (queryTable engine dynamo (Some params))
  = (match fst (run (scanTable engine dynamo (Some (scanParamsOf params)))) with
     | Ok r => Ok (prefixMessage "Query converted to scan: " r)
     | Raise e => Raise e
     end,
     snd (run (scanTable engine dynamo (Some (scanParamsOf params))))).
Proof.
  destruct (scanTable_returns (Some (scanParamsOf params))) as (r & tr & H).
  rewrite H. unfold run in *. unfold queryTable, tryCatch, bind, property, ret.
  cbn [default]. unfold id. cbv beta iota. now rewrite H.
Qed.

Lemma queryTable_returns params :
  exists r tr, run (queryTable engine dynamo params) = (Ok r, tr).
Proof.
  destruct params as [o|]; [|eexists _, _; reflexivity].
  rewrite queryTable_run.
  destruct (scanTable_returns (Some (scanParamsOf o))) as (r & tr & ->). eauto.
Qed.

(** The table that [getTableSchema] answers with *)
Lemma getTableSchema_run tableName tr :
  getTableSchema dynamo tableName tr
  = (Ok match sendDescribeTable dynamo tableName with
        | Ok table => table
        | Raise _ => None
        end, (tr ++ [DescribeTableCommand tableName])%list).
Proof.
  unfold getTableSchema, tryCatch, send, ret. now destruct (sendDescribeTable dynamo tableName).
Qed.

Lemma getItem_run (params : object) :
  run (getItem engine dynamo (Some params))
  = let tableName := params !! "tableName" in
    let tableSchema :=
      match sendDescribeTable dynamo tableName with
      | Ok table => table
      | Raise _ => None
      end in
    match marshall dynamo (fixItemKeyTypes engine (params !! "key") tableSchema) with
    | Raise e =>
        (Ok (GetItemFailed ("Failed to get item: " +:+ errorText e)),
         [DescribeTableCommand tableName])
    | Ok key =>
        let input := {| getTableName := tableName; Key := key |} in
        (match sendGetItem dynamo input with
         | Ok response =>
             Ok (Retrieved
                   match response with
                   | Some _ =>
                       "Item retrieved successfully from table " +:+ template engine tableName
                   | None =>
                       "No item found with the specified key in table "
                       +:+ template engine tableName
                   end
                   response
                   match response with Some _ => true | None => false end)
         | Raise e => Ok (GetItemFailed ("Failed to get item: " +:+ errorText e))
         end,
         [DescribeTableCommand tableName; GetItemCommand input])
    end.
Proof.
  unfold run, getItem, tryCatch, bind, property. unfold ret at 1.
  rewrite getTableSchema_run. unfold ret at 1. unfold lift. cbn [app]. cbv zeta.
  destruct (marshall dynamo _) as [key|e]; [|reflexivity].
  unfold send, ret. cbn [app]. now destruct (sendGetItem dynamo _).
Qed.

Lemma getItem_returns params :
  exists r tr, run (getItem engine dynamo params) = (Ok r, tr).
Proof.
  destruct params as [o|]; [|eexists _, _; reflexivity].
  rewrite getItem_run. cbv zeta. destruct (marshall dynamo _); [|eauto].
  destruct (sendGetItem dynamo _); eauto.
Qed.

Lemma listTables_run params :
  run (listTables dynamo params)
  = let input :=
      {| listLimit := default ∅ params !! "limit";
         ExclusiveStartTableName := default ∅ params !! "exclusiveStartTableName" |} in
    (match sendListTables dynamo input with
     | Ok response =>
         Ok (Listed "Tables listed successfully" (default [] (TableNames response))
               (LastEvaluatedTableName response)
               (default 0%nat (length <$> TableNames response)))
     | Raise e => Ok (ListTablesFailed ("Failed to list tables: " +:+ errorText e))
     end, [ListTablesCommand input]).
Proof.
  unfold run, listTables, tryCatch, bind, ret, send. cbn [app].
  now destruct (sendListTables dynamo _).
Qed.

Lemma listTables_returns params :
  exists r tr, run (listTables dynamo params) = (Ok r, tr).
Proof. rewrite listTables_run. cbv zeta. destruct (sendListTables dynamo _); eauto. Qed.

Lemma describeTable_returns params :
  exists r tr, run (describeTable engine dynamo params) = (Ok r, tr).
Proof.
  destruct params as [o|]; [|eexists _, _; reflexivity].
  unfold run, describeTable, tryCatch, bind, property, ret, send. cbn [app].
  destruct (sendDescribeTable dynamo _); eauto.
Qed.

(** ** The types of the key attributes *)

Lemma fixKeyAttribute_eq attrTypes (m : object) a :
  fixKeyAttribute engine attrTypes m a
  = match m !! a with
    | Some x => <[a := fixedKeyValue engine (attrTypes !! a) x]> m
    | None => m
    end.
Proof.
  unfold fixKeyAttribute, fixedKeyValue.
  destruct (m !! a) as [x|] eqn:Em; [|reflexivity].
  destruct (bool_decide (attrTypes !! a = Some "S")) eqn:ES.
  - apply bool_decide_eq_true in ES.
    rewrite (bool_decide_eq_false_2 (attrTypes !! a = Some "N")) by (rewrite ES; discriminate).
    cbn [andb]. destruct (isString x); cbn [negb]; [|reflexivity].
    symmetry. now apply insert_id.
  - cbn [andb]. rewrite Em.
    destruct (bool_decide (attrTypes !! a = Some "N")); [|symmetry; now apply insert_id].
    destruct (isNumber x); cbn [orb]; [symmetry; now apply insert_id|].
    destruct (isNaN (toNumberV x)); [symmetry; now apply insert_id|reflexivity].
Qed.

Lemma fixedKeyValue_idem ty x :
  fixedKeyValue engine ty (fixedKeyValue engine ty x) = fixedKeyValue engine ty x.
Proof.
  unfold fixedKeyValue.
  destruct (bool_decide (ty = Some "S")).
  - now destruct (isString x) eqn:E; [rewrite E|].
  - destruct (bool_decide (ty = Some "N")); [|reflexivity].
    destruct (isNumber x || isNaN (toNumberV x)) eqn:E; [now rewrite E|reflexivity].
Qed.

Lemma fixKeyAttribute_lookup attrTypes (m : object) a k :
  fixKeyAttribute engine attrTypes m a !! k
  = if bool_decide (k = a) then fixedKeyValue engine (attrTypes !! k) <$> m !! k else m !! k.
Proof.
  rewrite fixKeyAttribute_eq. destruct (bool_decide (k = a)) eqn:E.
  - apply bool_decide_eq_true in E as ->.
    destruct (m !! a) as [x|] eqn:Em; [now rewrite lookup_insert_eq|now rewrite Em].
  - apply bool_decide_eq_false in E.
    destruct (m !! a) as [x|]; [now rewrite lookup_insert_ne|reflexivity].
Qed.

Lemma foldl_fixKeyAttribute_lookup attrTypes attrs : forall (m : object) k,
  foldl (fixKeyAttribute engine attrTypes) m attrs !! k
  = if bool_decide (k ∈ attrs) then fixedKeyValue engine (attrTypes !! k) <$> m !! k
    else m !! k.
Proof.
  induction attrs as [|a attrs IH]; intros m k; [reflexivity|].
  cbn [foldl]. rewrite IH, fixKeyAttribute_lookup.
  destruct (bool_decide (k = a)) eqn:Ea.
  - apply bool_decide_eq_true in Ea as ->.
    rewrite (bool_decide_eq_true_2 (a ∈ a :: attrs)) by apply list_elem_of_here.
    destruct (bool_decide (a ∈ attrs)); [|reflexivity].
    destruct (m !! a) as [x|]; [|reflexivity]. cbn [fmap option_fmap option_map].
    now rewrite fixedKeyValue_idem.
  - apply bool_decide_eq_false in Ea.
    destruct (bool_decide (k ∈ attrs)) eqn:Ei.
    + apply bool_decide_eq_true in Ei.
      now rewrite (bool_decide_eq_true_2 (k ∈ a :: attrs)) by now apply list_elem_of_further.
    + apply bool_decide_eq_false in Ei.
      rewrite (bool_decide_eq_false_2 (k ∈ a :: attrs)); [reflexivity|].
      intros H. apply elem_of_cons in H as [H|H]; contradiction.
Qed.

Lemma elem_of_keyAttrs keySchema k :
  k ∈ omap keyAttributeName keySchema
  <-> exists e, In e keySchema /\ keyAttributeName e = Some k.
Proof.
  rewrite list_elem_of_omap. split; intros (e & He & Hk); exists e.
  - split; [now apply list_elem_of_In|exact Hk].
  - split; [now apply list_elem_of_In|exact Hk].
Qed.

Lemma fixItemKeyTypes_object (item : object) schema keySchema defs :
  KeySchema schema = Some keySchema ->
  AttributeDefinitions schema = Some defs ->
  fixItemKeyTypes engine (Some (VObj item)) (Some schema)
  = Some (VObj (foldl (fixKeyAttribute engine (attrTypesOf defs)) item
                  (omap keyAttributeName keySchema))).
Proof. intros Hk Hd. unfold fixItemKeyTypes. cbn [mbind option_bind]. now rewrite Hk, Hd. Qed.

(* ===================================================================== *)
(** * Properties of the server *)
(* ===================================================================== *)

(** X13.  cleanExpressionAttributeNames on a map of names: a key # makes it
    throw; otherwise it keeps exactly the entries whose key occurs in the
    expressions joined by a blank, it never adds or changes an entry, and
    when nothing is kept it returns undefined, never an empty map.  Without
    a map of names it returns undefined. *)
Theorem cleanExpressionAttributeNames_keeps (names : object) expressions :
  let combined := combinedExpressionOf expressions in
  ("#" ∈ dom names ->
   cleanExpressionAttributeNames (Some (VObj names)) expressions
   = Raise (Error invalidKeyMessage))
  /\ ("#" ∉ dom names ->
      exists cleaned,
        cleanExpressionAttributeNames (Some (VObj names)) expressions = Ok cleaned
        /\ match cleaned with
           | Some kept =>
               kept <> ∅
               /\ forall k v, kept !! k = Some v <->
                              names !! k = Some v /\ includes combined k = true
           | None => forall k, k ∈ dom names -> includes combined k = false
           end)
  /\ cleanExpressionAttributeNames None expressions = Ok None.
Proof.
  intros combined. unfold cleanExpressionAttributeNames. cbn [truthyV negb ownProperties].
  fold combined. split; [|split; [|reflexivity]].
  - intros H. now rewrite bool_decide_eq_true_2.
  - intros H. rewrite bool_decide_eq_false_2 by exact H.
    eexists. split; [reflexivity|].
    set (kept := filter _ names).
    destruct (0 <? size kept)%nat eqn:E.
    + apply Nat.ltb_lt in E. split.
      * intros He. rewrite He, map_size_empty in E. lia.
      * intros k v. unfold kept. rewrite map_lookup_filter_Some. reflexivity.
    + apply Nat.ltb_ge in E. assert (He : kept = ∅) by (apply map_size_empty_iff; lia).
      intros k Hk. apply elem_of_dom in Hk as [v Hv].
      destruct (includes combined k) eqn:Ei; [|reflexivity].
      assert (Hin : kept !! k = Some v) by (apply map_lookup_filter_Some; auto).
      rewrite He, lookup_empty in Hin. discriminate.
Qed.

(** X14.  normalizeAttributeValues on a map of values returns a map with
    the same keys, even when it is empty.  A value that is no object is
    kept; a wrapper with the one tag N and a text that is not empty becomes
    the number the text denotes; a wrapper with the one tag S and a text
    that is not empty becomes that text, while the wrapper of the empty text
    is kept as it is; a wrapper with any one tag other than N, S and B is
    kept as it is.  Nothing is returned when the argument is absent, and
    when it is a text that does not parse. *)
Theorem normalizeAttributeValues_unwraps (values : object) :
  (exists normalized,
     normalizeAttributeValues engine (Some (VObj values)) = Ok (Some normalized)
     /\ dom normalized = dom values
     /\ (forall k v, values !! k = Some v -> isObject v = false -> normalized !! k = Some v)
     /\ (forall k t, values !! k = Some (VObj {[ "N" := VStr t ]}) -> t <> "" ->
           normalized !! k = Some (VNum (stringToNumber t)))
     /\ (forall k t, values !! k = Some (VObj {[ "S" := VStr t ]}) -> t <> "" ->
           normalized !! k = Some (VStr t))
     /\ (forall k, values !! k = Some (VObj {[ "S" := VStr "" ]}) ->
           normalized !! k = Some (VObj {[ "S" := VStr "" ]}))
     /\ (forall k tag x, values !! k = Some (VObj {[ tag := x ]}) ->
           tag <> "N" -> tag <> "S" -> tag <> "B" ->
           normalized !! k = Some (VObj {[ tag := x ]})))
  /\ normalizeAttributeValues engine None = Ok None
  /\ (forall t, JSON_parse engine t = None ->
        normalizeAttributeValues engine (Some (VStr t)) = Ok None).
Proof.
  split; [|split; [reflexivity|]].
  - eexists. split; [reflexivity|]. cbn [ownProperties].
    split; [apply dom_omap_normalizeEntry|].
    split; [|split; [|split; [|split]]].
    + intros k v Hk Hv. rewrite lookup_omap, Hk. now destruct v.
    + intros k t Hk Ht. rewrite lookup_omap, Hk. cbn [option_bind mbind normalizeEntry].
      apply truthy_nonempty in Ht.
      rewrite lookup_singleton_eq. cbn [truthyO truthyV]. now rewrite Ht.
    + intros k t Hk Ht. rewrite lookup_omap, Hk. cbn [option_bind mbind normalizeEntry].
      apply truthy_nonempty in Ht.
      rewrite lookup_singleton_eq, !lookup_singleton_ne by discriminate.
      cbn [truthyO truthyV]. now rewrite Ht.
    + intros k Hk. rewrite lookup_omap, Hk. cbn [option_bind mbind normalizeEntry].
      rewrite lookup_singleton_eq, !lookup_singleton_ne by discriminate.
      reflexivity.
    + intros k tag x Hk HN HS HB. rewrite lookup_omap, Hk.
      cbn [option_bind mbind normalizeEntry].
      rewrite !lookup_singleton_ne by assumption. reflexivity.
  - intros t Ht. unfold normalizeAttributeValues. cbn [truthyV].
    destruct (truthy t); [|reflexivity]. cbn [negb]. now rewrite Ht.
Qed.

(** X15.  scanTable never throws and sends at most one command, a scan.
    When it sends none, its answer is a failure.  The scan carries the table
    name, the index name, the filter expression and the limit of the
    parameters as they are; the names it carries, if any, are entries of
    the names of the parameters whose key occurs in the filter expression,
    and never an empty map.  The answer is a success exactly when the scan
    returns, and then its items are those of the response, none when the
    response has no list of items. *)
Theorem scanTable_contract params :
  exists r tr,
    run (scanTable engine dynamo params) = (Ok r, tr)
    /\ ((tr = [] /\ success r = false)
        \/ exists o input,
             params = Some o /\ tr = [ScanCommand input]
             /\ TableName input = o !! "tableName"
             /\ IndexName input = o !! "indexName"
             /\ FilterExpression input = o !! "filterExpression"
             /\ Limit input = o !! "limit"
             /\ (forall names, ExpressionAttributeNames input = Some names ->
                   names <> ∅
                   /\ forall k v, names !! k = Some v ->
                        (exists given, o !! "expressionAttributeNames" = Some given
                                       /\ ownProperties given !! k = Some v)
                        /\ includes (combinedExpressionOf (truthyOnly (o !! "filterExpression"))) k
                           = true)
             /\ (success r = true <-> exists response, sendScan dynamo input = Ok response)
             /\ (forall response, sendScan dynamo input = Ok response ->
                   items r = default [] (Items response))).
Proof.
  destruct (scanTable_command params) as (r & tr & Hrun & [H|(o & nv & cn & -> & Hc & -> & Hs)]).
  - exists r, tr. auto.
  - exists r, [ScanCommand (scanInputOf o nv cn)]. split; [exact Hrun|]. right.
    exists o, (scanInputOf o nv cn). do 6 (split; [reflexivity|]). split; [|split].
    + cbn [ExpressionAttributeNames scanInputOf]. intros names ->.
      now apply cleanExpressionAttributeNames_Some.
    + destruct (sendScan dynamo _) as [response|e].
      * split; [eauto|]. intros _. apply Hs.
      * rewrite Hs. split; [discriminate|]. intros [response H]. discriminate.
    + intros response Hr. rewrite Hr in Hs. apply Hs.
Qed.

(** X16.  A map of names with the key # stops scanTable before the store is
    reached, provided the values normalize: the answer is a failure with
    the error type Error whose message ends in the text of the source, and
    no command is sent.  queryTable hands the same answer on with its
    prefix. *)
Theorem scanTable_invalid_name_key (params names : object) :
  params !! "expressionAttributeNames" = Some (VObj names) ->
  "#" ∈ dom names ->
  (forall e, normalizeAttributeValues engine (params !! "expressionAttributeValues") <> Raise e) ->
  run (scanTable engine dynamo (Some params))
  = (Ok (ScanFailed ("Failed to scan table: " +:+ invalidKeyMessage) (Some "Error")), [])
  /\ run (queryTable engine dynamo (Some params))
     = (Ok (ScanFailed ("Query converted to scan: Failed to scan table: " +:+ invalidKeyMessage)
              (Some "Error")), []).
Proof.
  intros Hn Hk Hv.
  assert (Hscan : forall p : object,
    p !! "expressionAttributeNames" = Some (VObj names) ->
    p !! "expressionAttributeValues" = params !! "expressionAttributeValues" ->
    run (scanTable engine dynamo (Some p))
    = (Ok (ScanFailed ("Failed to scan table: " +:+ invalidKeyMessage) (Some "Error")), [])).
  { intros p Hpn Hpv. rewrite scanTable_run, Hpv, Hpn.
    destruct (normalizeAttributeValues engine _) as [nv|e]; [|now contradiction (Hv e)].
    unfold cleanExpressionAttributeNames. cbn [truthyV negb ownProperties].
    now rewrite bool_decide_eq_true_2. }
  split; [now apply Hscan|].
  rewrite queryTable_run, Hscan; [reflexivity| |].
  - rewrite <- Hn. fields_lookup.
  - fields_lookup.
Qed.

(** X17.  queryTable never sends a query: it answers with the answer of
    scanTable for the parameters of the query, the key condition taken as
    the filter expression, and puts its prefix before the message.  Every
    command it sends is a scan filtered by the key condition, and it never
    throws.  The filter expression and the sort direction of the query play
    no part. *)
Theorem queryTable_converts (params : object) :
  (exists r tr,
     run (scanTable engine dynamo (Some (scanParamsOf params))) = (Ok r, tr)
     /\ run (queryTable engine dynamo (Some params))
        = (Ok (prefixMessage "Query converted to scan: " r), tr)
     /\ forall c, In c tr ->
          exists input, c = ScanCommand input
                        /\ FilterExpression input = params !! "keyConditionExpression"
                        /\ TableName input = params !! "tableName"
                        /\ IndexName input = params !! "indexName"
                        /\ Limit input = params !! "limit")
  /\ (forall v w,
        run (queryTable engine dynamo
               (Some (<["filterExpression" := v]> (<["scanIndexForward" := w]> params))))
        = run (queryTable engine dynamo (Some params))).
Proof.
  split.
  - destruct (scanTable_command (Some (scanParamsOf params)))
      as (r & tr & Hrun & [[-> _]|(o & nv & cn & [= <-] & _ & -> & _)]).
    + exists r, []. split; [exact Hrun|]. split; [now rewrite queryTable_run, Hrun|].
      intros c [].
    + eexists r, _. split; [exact Hrun|]. split; [now rewrite queryTable_run, Hrun|].
      intros c [<-|[]]. eexists. split; [reflexivity|].
      cbn [FilterExpression TableName IndexName Limit scanInputOf].
      repeat split; fields_lookup.
  - intros v w. rewrite !queryTable_run.
    assert (H : scanParamsOf (<["filterExpression" := v]> (<["scanIndexForward" := w]> params))
                = scanParamsOf params).
    { unfold scanParamsOf. now rewrite !lookup_insert_ne by discriminate. }
    now rewrite H.
Qed.

(** X18.  For a query that names no index, the scan that the client puts in
    its place (optimizeQuery) and the scan that the server makes of it
    (queryTable) are the same: scanTable on the arguments of the one does
    what queryTable does on the query, up to the prefix of the message.
    With an index name the two differ: the server keeps it and the client
    drops it. *)
Theorem client_rewrite_agrees (toolArgs : object) :
  (toolArgs !! "indexName" = None ->
   Client.scanArgsOf toolArgs = scanParamsOf toolArgs
   /\ exists r tr,
        run (scanTable engine dynamo (Some (Client.scanArgsOf toolArgs))) = (Ok r, tr)
        /\ run (queryTable engine dynamo (Some toolArgs))
           = (Ok (prefixMessage "Query converted to scan: " r), tr))
  /\ (forall index, toolArgs !! "indexName" = Some index ->
        scanParamsOf toolArgs !! "indexName" = Some index
        /\ Client.scanArgsOf toolArgs !! "indexName" = None).
Proof.
  split.
  - intros Hi.
    assert (H : Client.scanArgsOf toolArgs = scanParamsOf toolArgs)
      by (unfold Client.scanArgsOf, scanParamsOf; now rewrite Hi).
    split; [exact H|]. rewrite H.
    destruct (scanTable_returns (Some (scanParamsOf toolArgs))) as (r & tr & Hrun).
    exists r, tr. split; [exact Hrun|]. now rewrite queryTable_run, Hrun.
  - intros index Hi. split; [rewrite <- Hi|]; fields_lookup.
Qed.

(** X19.  fixItemKeyTypes on a key given as an object, with a schema that
    has a key schema and attribute definitions: the result has the keys of
    the key; an attribute that the key schema does not name, or whose
    declared type is neither S nor N, keeps its value; an attribute of the
    key schema declared S ends as a text, its own when it is one; one
    declared N ends as the number its value converts to, unless the value
    is a number already or converts to NaN, in which case it is kept.
    Fixing the result again changes nothing.  Without a schema the key is
    returned as it is. *)
Theorem fixItemKeyTypes_coerces (item : object) schema keySchema defs :
  KeySchema schema = Some keySchema ->
  AttributeDefinitions schema = Some defs ->
  let isKey k := exists e, In e keySchema /\ keyAttributeName e = Some k in
  let declared := attrTypesOf defs in
  exists fixed,
    fixItemKeyTypes engine (Some (VObj item)) (Some schema) = Some (VObj fixed)
    /\ dom fixed = dom item
    /\ (forall k, ~ isKey k -> fixed !! k = item !! k)
    /\ (forall k, declared !! k <> Some "S" -> declared !! k <> Some "N" ->
          fixed !! k = item !! k)
    /\ (forall k x, isKey k -> item !! k = Some x -> declared !! k = Some "S" ->
          fixed !! k = Some (if isString x then x else VStr (keyText engine x)))
    /\ (forall k x, isKey k -> item !! k = Some x -> declared !! k = Some "N" ->
          fixed !! k
          = Some (if isNumber x || isNaN (toNumberV x) then x else VNum (toNumberV x)))
    /\ fixItemKeyTypes engine (Some (VObj fixed)) (Some schema) = Some (VObj fixed)
    /\ (forall any, fixItemKeyTypes engine any None = any).
Proof.
  intros Hk Hd isKey declared.
  rewrite (fixItemKeyTypes_object _ _ _ _ Hk Hd). fold declared.
  set (attrs := omap keyAttributeName keySchema).
  set (fixed := foldl _ item attrs).
  assert (Hl : forall k, fixed !! k
                = if bool_decide (k ∈ attrs)
                  then fixedKeyValue engine (declared !! k) <$> item !! k else item !! k)
    by (intros k; apply foldl_fixKeyAttribute_lookup).
  assert (Hkey : forall k, isKey k <-> k ∈ attrs)
    by (intros k; symmetry; apply elem_of_keyAttrs).
  exists fixed. split; [reflexivity|]. split; [|split; [|split; [|split; [|split; [|split]]]]].
  - apply set_eq. intros k. rewrite !elem_of_dom, Hl.
    destruct (bool_decide _); [|reflexivity]. now rewrite fmap_is_Some.
  - intros k Hn. rewrite Hl, bool_decide_eq_false_2; [reflexivity|]. now rewrite <- Hkey.
  - intros k HS HN. rewrite Hl. destruct (bool_decide (k ∈ attrs)); [|reflexivity].
    unfold fixedKeyValue. rewrite !bool_decide_eq_false_2 by assumption.
    now destruct (item !! k).
  - intros k x Hi Hx HS. rewrite Hl, bool_decide_eq_true_2 by now apply Hkey.
    rewrite Hx. cbn [fmap option_fmap option_map]. unfold fixedKeyValue.
    now rewrite bool_decide_eq_true_2.
  - intros k x Hi Hx HN. rewrite Hl, bool_decide_eq_true_2 by now apply Hkey.
    rewrite Hx. cbn [fmap option_fmap option_map]. unfold fixedKeyValue.
    rewrite bool_decide_eq_false_2 by (rewrite HN; discriminate).
    now rewrite bool_decide_eq_true_2.
  - rewrite (fixItemKeyTypes_object _ _ _ _ Hk Hd). fold declared attrs. do 2 f_equal.
    apply map_eq. intros k. rewrite foldl_fixKeyAttribute_lookup, Hl.
    destruct (bool_decide (k ∈ attrs)); [|reflexivity].
    destruct (item !! k) as [x|]; [|reflexivity]. cbn [fmap option_fmap option_map].
    now rewrite fixedKeyValue_idem.
  - intros any. unfold fixItemKeyTypes. reflexivity.
Qed.

(** X20.  getItem never throws.  With parameters it first sends the
    description of the table, whatever it answers.  The key, with its types
    fixed by that description (the key as given when the description throws
    or holds no table), is then marshalled.  When marshalling throws,
    nothing more is sent and the answer is a failure with the text of that
    error.  Otherwise the retrieval is sent with the marshalled key: the
    answer is a success whenever the retrieval returns, found or not, and a
    failure with the text of the error when it throws.  Without parameters
    nothing is sent. *)
Theorem getItem_contract params :
  exists r tr,
    run (getItem engine dynamo params) = (Ok r, tr)
    /\ (params = None -> tr = [] /\ exists msg, r = GetItemFailed msg)
    /\ (forall o, params = Some o ->
          let tableName := o !! "tableName" in
          let tableSchema :=
            match sendDescribeTable dynamo tableName with
            | Ok table => table
            | Raise _ => None
            end in
          let fixedKey := fixItemKeyTypes engine (o !! "key") tableSchema in
          (tableSchema = None -> fixedKey = o !! "key")
          /\ (forall e, marshall dynamo fixedKey = Raise e ->
                tr = [DescribeTableCommand tableName]
                /\ r = GetItemFailed ("Failed to get item: " +:+ errorText e))
          /\ (forall key, marshall dynamo fixedKey = Ok key ->
                let input := {| getTableName := tableName; Key := key |} in
                tr = [DescribeTableCommand tableName; GetItemCommand input]
                /\ (forall response, sendGetItem dynamo input = Ok response ->
                      exists msg, r = Retrieved msg response (bool_decide (is_Some response)))
                /\ (forall e, sendGetItem dynamo input = Raise e ->
                      r = GetItemFailed ("Failed to get item: " +:+ errorText e)))).
Proof.
  destruct params as [o|].
  - rewrite getItem_run. cbv zeta.
    set (schema := match sendDescribeTable dynamo _ with Ok t => t | Raise _ => None end).
    set (fixedKey := fixItemKeyTypes engine (o !! "key") schema).
    assert (Hkey : schema = None -> fixedKey = o !! "key").
    { intros Hs. unfold fixedKey. rewrite Hs. reflexivity. }
    destruct (marshall dynamo fixedKey) as [key|e] eqn:Em.
    + destruct (sendGetItem dynamo _) as [response|e] eqn:Eg.
      * eexists _, _. split; [reflexivity|]. split; [discriminate|].
        intros o' [= <-]. fold schema fixedKey. split; [exact Hkey|]. split.
        -- intros e. rewrite Em. discriminate.
        -- intros key'. rewrite Em. intros [= <-]. split; [reflexivity|]. split.
           ++ intros response'. rewrite Eg. intros [= <-]. eexists. f_equal.
              now destruct response.
           ++ intros e. rewrite Eg. discriminate.
      * eexists _, _. split; [reflexivity|]. split; [discriminate|].
        intros o' [= <-]. fold schema fixedKey. split; [exact Hkey|]. split.
        -- intros e'. rewrite Em. discriminate.
        -- intros key'. rewrite Em. intros [= <-]. split; [reflexivity|]. split.
           ++ intros response'. rewrite Eg. discriminate.
           ++ intros e'. rewrite Eg. now intros [= <-].
    + eexists _, _. split; [reflexivity|]. split; [discriminate|].
      intros o' [= <-]. fold schema fixedKey. split; [exact Hkey|]. split.
      * intros e'. rewrite Em. intros [= <-]. split; reflexivity.
      * intros key. rewrite Em. discriminate.
  - eexists _, _. split; [reflexivity|]. split; [|discriminate].
    intros _. split; [reflexivity|]. eauto.
Qed.

(** X21.  listTables never throws and sends one command, with the limit
    and the start name of its parameters, none of them when it is called
    without parameters.  In a success the count of tables is the number of
    the names returned, and both are empty when the response has no list
    of names. *)
Theorem listTables_counts params :
  exists r input,
    run (listTables dynamo params) = (Ok r, [ListTablesCommand input])
    /\ listLimit input = (params ≫= (fun o => o !! "limit"))
    /\ ExclusiveStartTableName input = (params ≫= (fun o => o !! "exclusiveStartTableName"))
    /\ (forall response, sendListTables dynamo input = Ok response ->
          exists tables,
            r = Listed "Tables listed successfully" tables (LastEvaluatedTableName response)
                  (length tables)
            /\ (forall names, TableNames response = Some names -> tables = names)
            /\ (TableNames response = None -> tables = []))
    /\ (forall e, sendListTables dynamo input = Raise e ->
          r = ListTablesFailed ("Failed to list tables: " +:+ errorText e)).
Proof.
  rewrite listTables_run. cbv zeta.
  destruct (sendListTables dynamo _) as [response|e] eqn:E.
  - eexists _, _. split; [reflexivity|]. cbn [listLimit ExclusiveStartTableName].
    split; [now destruct params|]. split; [now destruct params|]. split.
    + rewrite E. intros response' [= <-]. exists (default [] (TableNames response)).
      split; [now destruct (TableNames response)|].
      split; [now intros names ->|now intros ->].
    + rewrite E. discriminate.
  - eexists _, _. split; [reflexivity|]. cbn [listLimit ExclusiveStartTableName].
    split; [now destruct params|]. split; [now destruct params|]. split.
    + rewrite E. discriminate.
    + rewrite E. now intros e' [= <-].
Qed.

(** What [respond] does with the result of a tool *)
Lemma respond_run result tr :
  respond serializer result tr
  = (match ofResult serializer result with
     | Ok t => Ok {| contentText := t; isError := negb (succeeded result) |}
     | Raise e => Raise e
     end, tr).
Proof. unfold respond, bind, lift, ret. now destruct (ofResult serializer result). Qed.

(** X22.  The request handler never throws.  A name of READ_ONLY_TOOLS
    runs its tool, which always returns, and the commands sent are those of
    the tool.  When the result is turned into text, the answer is that text,
    the error flag being set exactly when the result is no success; when
    turning it into text throws, the clause for unexpected errors answers
    with the text of an object that holds the message Unexpected error
    occurred while executing, the name and the text of the error, with the
    error type, the name and the arguments, and sets the error flag: that
    clause is reached in no other way.  Any other name is answered with the
    text of an object that holds the message Unknown tool and the list of
    the five names, with the error flag, and no command is sent. *)
Theorem callTool_dispatch name args :
  exists response tr,
    run (callTool engine dynamo serializer name args) = (Ok response, tr)
    /\ (~ In name READ_ONLY_TOOLS ->
        tr = []
        /\ response = {| contentText := ofValue serializer (unknownTool name);
                         isError := true |})
    /\ let answered result :=
         (forall t, ofResult serializer result = Ok t ->
            response = {| contentText := t; isError := negb (succeeded result) |})
         /\ (forall e, ofResult serializer result = Raise e ->
               response = {| contentText := ofValue serializer (errorResponse name e args);
                             isError := true |}) in
       (name = "dynamodb:list_tables" ->
        exists r, run (listTables dynamo args) = (Ok r, tr) /\ answered (OfListTables r))
       /\ (name = "dynamodb:describe_table" ->
           exists r, run (describeTable engine dynamo args) = (Ok r, tr)
                     /\ answered (OfDescribeTable r))
       /\ (name = "dynamodb:get_item" ->
           exists r, run (getItem engine dynamo args) = (Ok r, tr) /\ answered (OfGetItem r))
       /\ (name = "dynamodb:query_table" ->
           exists r, run (queryTable engine dynamo args) = (Ok r, tr) /\ answered (OfScan r))
       /\ (name = "dynamodb:scan_table" ->
           exists r, run (scanTable engine dynamo args) = (Ok r, tr) /\ answered (OfScan r)).
Proof.
  assert (Hstep : forall (tool : S ToolResult) result tr,
    run tool = (Ok result, tr) ->
    exists response,
      tryCatch (r <~ tool ;; respond serializer r)
        (fun error =>
           ret {| contentText := ofValue serializer (errorResponse name error args);
                  isError := true |}) [] = (Ok response, tr)
      /\ (forall t, ofResult serializer result = Ok t ->
            response = {| contentText := t; isError := negb (succeeded result) |})
      /\ (forall e, ofResult serializer result = Raise e ->
            response = {| contentText := ofValue serializer (errorResponse name e args);
                          isError := true |})).
  { intros tool result tr Hrun. unfold run in Hrun. unfold tryCatch, bind. rewrite Hrun.
    rewrite respond_run. destruct (ofResult serializer result) as [t|e].
    - eexists. split; [reflexivity|]. split; [now intros t' [= <-]|discriminate].
    - eexists. split; [reflexivity|]. split; [discriminate|now intros e' [= <-]]. }
  assert (Hlift : forall {A} (tool : S A) (wrap : A -> ToolResult) r tr,
    run tool = (Ok r, tr) -> run (x <~ tool ;; ret (wrap x)) = (Ok (wrap r), tr)).
  { intros A tool wrap r tr Hrun. unfold run in *. unfold bind. now rewrite Hrun. }
  assert (Hassoc : forall {A} (tool : S A) (wrap : A -> ToolResult) handler,
    tryCatch (x <~ tool ;; respond serializer (wrap x)) handler []
    = tryCatch (r <~ (x <~ tool ;; ret (wrap x)) ;; respond serializer r) handler []).
  { intros A tool wrap handler. unfold tryCatch, bind, ret.
    now destruct (tool []) as [[x|e] tr']. }
  unfold callTool, run.
  destruct (String.eqb name "dynamodb:list_tables") eqn:E1.
  { apply String.eqb_eq in E1 as ->.
    destruct (listTables_returns args) as (r & tr & H).
    rewrite Hassoc.
    destruct (Hstep _ _ _ (Hlift _ _ OfListTables _ _ H)) as (response & -> & Hok & Hno).
    exists response, tr. split; [reflexivity|]. split.
    - intros Hn. exfalso. apply Hn. simpl. auto.
    - cbv zeta. split; [intros _; exists r; auto|].
      repeat split; discriminate. }
  destruct (String.eqb name "dynamodb:describe_table") eqn:E2.
  { apply String.eqb_eq in E2 as ->.
    destruct (describeTable_returns args) as (r & tr & H).
    rewrite Hassoc.
    destruct (Hstep _ _ _ (Hlift _ _ OfDescribeTable _ _ H)) as (response & -> & Hok & Hno).
    exists response, tr. split; [reflexivity|]. split.
    - intros Hn. exfalso. apply Hn. simpl. auto.
    - cbv zeta. split; [discriminate|]. split; [intros _; exists r; auto|].
      repeat split; discriminate. }
  destruct (String.eqb name "dynamodb:get_item") eqn:E3.
  { apply String.eqb_eq in E3 as ->.
    destruct (getItem_returns args) as (r & tr & H).
    rewrite Hassoc.
    destruct (Hstep _ _ _ (Hlift _ _ OfGetItem _ _ H)) as (response & -> & Hok & Hno).
    exists response, tr. split; [reflexivity|]. split.
    - intros Hn. exfalso. apply Hn. simpl. auto.
    - cbv zeta. split; [discriminate|]. split; [discriminate|].
      split; [intros _; exists r; auto|]. repeat split; discriminate. }
  destruct (String.eqb name "dynamodb:query_table") eqn:E4.
  { apply String.eqb_eq in E4 as ->.
    destruct (queryTable_returns args) as (r & tr & H).
    rewrite Hassoc.
    destruct (Hstep _ _ _ (Hlift _ _ OfScan _ _ H)) as (response & -> & Hok & Hno).
    exists response, tr. split; [reflexivity|]. split.
    - intros Hn. exfalso. apply Hn. simpl. auto 6.
    - cbv zeta. split; [discriminate|]. split; [discriminate|]. split; [discriminate|].
      split; [intros _; exists r; auto|discriminate]. }
  destruct (String.eqb name "dynamodb:scan_table") eqn:E5.
  { apply String.eqb_eq in E5 as ->.
    destruct (scanTable_returns args) as (r & tr & H).
    rewrite Hassoc.
    destruct (Hstep _ _ _ (Hlift _ _ OfScan _ _ H)) as (response & -> & Hok & Hno).
    exists response, tr. split; [reflexivity|]. split.
    - intros Hn. exfalso. apply Hn. simpl. auto 7.
    - cbv zeta. split; [discriminate|]. split; [discriminate|]. split; [discriminate|].
      split; [discriminate|]. intros _; exists r; auto. }
  apply String.eqb_neq in E1, E2, E3, E4, E5.
  eexists _, _. split; [reflexivity|]. split; [auto|].
  cbv zeta. repeat split; intros; congruence.
Qed.

End ServerProperties.

(* ===================================================================== *)
(** * Facts about smartQuery on the arguments as they arrive *)
(* ===================================================================== *)

Section UntypedProperties.

Import Wire Server.

Variable dateFallback : string -> option Z.
Variable engine : Engine.
Variable dynamo : Dynamo.





(* ===================================================================== *)
(** * smartQuery and the exceptions *)
(* ===================================================================== *)


End UntypedProperties.

(* ===================================================================== *)
(** * More properties on the sample data *)
(* ===================================================================== *)

Lemma resolver_returns_schema_attribute_witness :
  findBestAttributeMatch "the price" tradeAttributes = Some "Amount"
  /\ In "Amount" tradeAttributes.
Proof.
  assert (H : findBestAttributeMatch "the price" tradeAttributes = Some "Amount")
    by (vm_compute; reflexivity).
  split; [exact H|].
  exact (proj1 (resolver_returns_schema_attribute "the price" tradeAttributes "Amount" H)).
Defined.

Lemma smartQuery_scan_form_witness :
  exists a op v,
    In a tradeAttributes /\ In op [">="; "<="; ">"; "<"; "="]
    /\ {| TableName := "Trades";
          FilterExpression := Some "#attr0 > :val0";
          ExpressionAttributeNames := Some {[ "#attr0" := "Amount" ]};
          ExpressionAttributeValues := Some {[ ":val0" := JNum (Fin 1000) ]};
          Limit := Some 5%Z |}
       = {| TableName := "Trades";
            FilterExpression := Some ("#attr0 " +:+ op +:+ " :val0");
            ExpressionAttributeNames := Some {[ "#attr0" := a ]};
            ExpressionAttributeValues := Some {[ ":val0" := v ]};
            Limit := Some 5%Z |}.
Proof.
  assert (Hin : In (CallScan {| TableName := "Trades";
                                FilterExpression := Some "#attr0 > :val0";
                                ExpressionAttributeNames := Some {[ "#attr0" := "Amount" ]};
                                ExpressionAttributeValues := Some {[ ":val0" := JNum (Fin 1000) ]};
                                Limit := Some 5%Z |})
                  (snd (run (smartQuery noFallback sampleStore
                               (ask "Amount > 1000" (Some 5%Z))))))
    by (vm_compute; auto).
  destruct (smartQuery_scan_form noFallback sampleStore _ _ Hin)
    as (t & tbl & defs & Ht & Hd & Ha & [Hf|(a & op & v & Hattr & Hop & _ & Hi)]);
    [discriminate|].
  injection Ht as <-. injection Hd as <-. injection Ha as <-.
  exists a, op, v. split; [exact Hattr|]. split; [exact Hop|exact Hi].
Defined.

Lemma natural_phrase_precedence_witness :
  cascade noFallback "Amount > 5 after 3" tradeAttributes
  = ret {| valueIndex := 1;
           filterParts := ["#attr0 > :val0"];
           expressionAttributeNames := {[ "#attr0" := "Amount" ]};
           expressionAttributeValues := {[ ":val0" := JNum (Fin 3) ]} |}.
Proof.
  assert (Ha : findBestAttributeMatch "Amount > 5 after 3" tradeAttributes = Some "Amount")
    by (vm_compute; reflexivity).
  assert (Hm : match_ true naturalOpPattern "Amount > 5 after 3"
               = Some (<[0%nat := "after 3"]> (<[2%nat := "3"]> (<[1%nat := "after"]> ∅))))
    by (vm_compute; reflexivity).
  destruct (natural_phrase_precedence noFallback _ _ _ _ "after" "3" Ha
              ltac:(discriminate) Hm eq_refl eq_refl ltac:(discriminate))
    as (op & Hop & Hc).
  destruct Hop as [[_ ->]|[[H|H] _]]; [exact Hc|discriminate|discriminate].
Defined.

Lemma superlative_negative_limit_witness :
  exists qr,
    fst (run (smartQuery noFallback sampleStore (ask "highest amount" (Some (-2)%Z))))
    = Returned qr
    /\ items qr = [trade "t4" (Some (JNum (Fin 1200))); trade "t2" (Some (JStr "70"));
                   trade "t1" (Some (JNum (Fin 5)))]
    /\ count qr = 3%nat.
Proof.
  assert (Hs : superlativeField (toLowerCase "highest amount")
                 (attributeNamesOf [attributeDefinition "TradeId" "S";
                                    attributeDefinition "Amount" "N";
                                    attributeDefinition "SourceCountry" "S";
                                    attributeDefinition "TradeDate" "S"]) = Some "Amount")
    by (vm_compute; reflexivity).
  destruct (superlative_negative_limit noFallback sampleStore
              (ask "highest amount" (Some (-2)%Z)) "Trades" "highest amount" tradeTable _
              "Amount" (Some sampleItems) (-2)%Z
              eq_refl eq_refl eq_refl eq_refl Hs eq_refl eq_refl eq_refl)
    as (qr & Hrun & _ & Hitems & Hcount).
  exists qr. split; [exact Hrun|].
  split; [rewrite Hitems|rewrite Hcount]; vm_compute; reflexivity.
Defined.

Lemma superlative_first_extreme_witness :
  exists qr,
    fst (run (smartQuery noFallback sampleStore (ask "lowest amount" None))) = Returned qr
    /\ items qr = [trade "t3" (Some (JStr "n/a"))].
Proof.
  assert (Hs : superlativeField (toLowerCase "lowest amount")
                 (attributeNamesOf [attributeDefinition "TradeId" "S";
                                    attributeDefinition "Amount" "N";
                                    attributeDefinition "SourceCountry" "S";
                                    attributeDefinition "TradeDate" "S"]) = Some "Amount")
    by (vm_compute; reflexivity).
  destruct (superlative_first_extreme noFallback sampleStore (ask "lowest amount" None)
              "Trades" "lowest amount" tradeTable _ "Amount" (Some sampleItems)
              eq_refl eq_refl eq_refl eq_refl Hs eq_refl (or_introl eq_refl))
    as (qr & Hrun & pre & m & post & Hsplit & Hitems & Hpre & _).
  exists qr. split; [exact Hrun|].
  vm_compute in Hrun. injection Hrun as <-. reflexivity.
Defined.

Lemma smartQuery_empty_schema_witness :
  run (smartQuery noFallback bareStore (ask "Amount > 1000" None))
  = (Returned invalidFilter, [CallDescribe "Trades"]).
Proof.
  apply (smartQuery_empty_schema noFallback bareStore (ask "Amount > 1000" None)
           "Trades" "Amount > 1000" {| AttributeDefinitions := Some [] |} []);
    try reflexivity.
  intros def [].
Defined.

Lemma value_number_prefix_witness :
  typeValue noFallback "Amount" ("100" +:+ " and TradeDate") = JNum (Fin 100).
Proof.
  assert (Hne : "100" <> "") by discriminate.
  assert (Hd : all_digits "100" = true) by (vm_compute; reflexivity).
  assert (Hr : endsNumber " and TradeDate")
    by (split; [reflexivity|repeat split; discriminate]).
  assert (Ha : isDateField "Amount" = false) by (vm_compute; reflexivity).
  pose proof (value_number_prefix noFallback "Amount" "100" " and TradeDate"
                Hne Hd Hr Ha) as H.
  cbv zeta in H. destruct H as [_ H].
  etransitivity; [exact H|]. vm_compute. reflexivity.
Defined.

Lemma offered_name_round_trip_witness :
  Client.toolCallOf (Client.nameTable serverTools) "dynamodb_query_table" ageQuery
  = Wire.Ok ("dynamodb:query_table", ageQuery).
Proof.
  apply (proj2 (offered_name_round_trip
                  (firstn 3 serverTools)
                  {| Client.toolName := "dynamodb:query_table";
                     Client.description := "";
                     Client.input_schema := Wire.VObj ∅ |}
                  (skipn 4 serverTools)
                  ageQuery
                  ltac:(discriminate)
                  ltac:(intros other [<-|[]]; discriminate))).
Defined.

Lemma scanTable_invalid_name_key_witness :
  Server.run (Server.scanTable idleEngine emptyDynamo (Some hashParams))
  = (Wire.Ok (Server.ScanFailed ("Failed to scan table: " +:+ Server.invalidKeyMessage)
                (Some "Error")), []).
Proof.
  apply (proj1 (scanTable_invalid_name_key idleEngine emptyDynamo hashParams hashNames
                  ltac:(vm_compute; reflexivity)
                  ltac:(apply elem_of_dom; eexists; apply lookup_singleton_eq)
                  ltac:(intros e; vm_compute; discriminate))).
Defined.

Lemma fixItemKeyTypes_coerces_witness :
  exists fixed,
    Server.fixItemKeyTypes idleEngine (Some (Wire.VObj versionedKey)) (Some versionedTable)
    = Some (Wire.VObj fixed)
    /\ fixed !! "TradeId" = Some (Wire.VStr "t1")
    /\ fixed !! "Version" = Some (Wire.VNum (Fin 3)).
Proof.
  destruct (fixItemKeyTypes_coerces idleEngine versionedKey versionedTable _ _ eq_refl eq_refl)
    as (fixed & Heq & _ & _ & _ & HS & HN & _).
  exists fixed. split; [exact Heq|]. split.
  - rewrite (HS "TradeId" (Wire.VStr "t1")); [reflexivity| | |].
    + eexists. split; [left; reflexivity|reflexivity].
    + vm_compute. reflexivity.
    + vm_compute. reflexivity.
  - rewrite (HN "Version" (Wire.VStr "3")); [vm_compute; reflexivity| | |].
    + eexists. split; [right; left; reflexivity|reflexivity].
    + vm_compute. reflexivity.
    + vm_compute. reflexivity.
Defined.


